(** * Dereth cartography tools: archive layer, bitmap and map drivers

    A shallow embedding of the C programs exp.c, exc.c, acbmp.c and
    mapac.c.  The archive is a read-only byte file; the C stream on it
    is the part of the state that a run changes.  Every function of
    the sources that touches the stream lives in the [io] monad below,
    which threads the stream position, the list of offsets handed to
    [fseek] and the lines printed on the console. *)

From Stdlib Require Import ZArith List Lia Bool Sorted.
From Stdlib.Strings Require Import Byte.
Import ListNotations.
Open Scope Z_scope.

(** ** Bytes and 32-bit little-endian words *)

Definition byte_val (b : byte) : Z := Z.of_N (Byte.to_N b).

Definition le16 (b0 b1 : byte) : Z := byte_val b0 + 256 * byte_val b1.

Definition le32 (b0 b1 b2 b3 : byte) : Z :=
  byte_val b0 + 256 * byte_val b1 + 65536 * byte_val b2
  + 16777216 * byte_val b3.

(** [mem[i]] for [mem] seen through a [uint *]. *)
Definition word_at (mem : list byte) (i : Z) : Z :=
  let k := Z.to_nat (4 * i) in
  le32 (nth k mem x00) (nth (k + 1) mem x00)
       (nth (k + 2) mem x00) (nth (k + 3) mem x00).

(** [mem[i]] for [mem] seen through a [ushort *]. *)
Definition half_at (mem : list byte) (i : Z) : Z :=
  let k := Z.to_nat (2 * i) in
  le16 (nth k mem x00) (nth (k + 1) mem x00).

(** ** The archive and the stream opened on it *)

Record archive := mkArchive {
  contents : list byte;
  seekable : Z -> bool          (* offsets at which fseek succeeds *)
}.

Inductive message :=
| MsgNullFile        (* ERROR: NULL file pointer found! *)
| MsgSeekFailed      (* ERROR: Seek to ... failed! *)
| MsgShortSector     (* ERROR: Sector is only ... words! *)
| MsgNullDir         (* ERROR: NULL directory entry found! *)
| MsgSeekBeyond      (* ERROR: Seek to ... is beyond end of file! *)
| MsgShortDir        (* ERROR: Sector only contains ... words! *)
| MsgNoSector        (* ERROR: Sector does not exist! *)
| MsgNumFiles        (* ERROR: Number of files exceeds directory entries! *)
| MsgChanged (x y oldType oldZ newType newZ : Z).
                     (* (x, y) was ..., ....  Now ..., .... *)

Record stream := mkStream {
  fpos : Z;                     (* current position of the stream *)
  seeks : list Z;               (* offsets passed to fseek, oldest first *)
  console : list message        (* lines printed, oldest first *)
}.

Inductive outcome (A : Type) :=
| Done (s : stream) (a : A)
| Aborted (s : stream)          (* a failed assert *)
| OutOfFuel (s : stream).       (* the rounds granted to a loop are used up *)
Arguments Done {A} s a.
Arguments Aborted {A} s.
Arguments OutOfFuel {A} s.

Definition final {A} (o : outcome A) : stream :=
  match o with Done s _ | Aborted s | OutOfFuel s => s end.

Definition io (A : Type) := stream -> outcome A.

Definition ret {A} (a : A) : io A := fun s => Done s a.

Definition bind {A B} (m : io A) (k : A -> io B) : io B :=
  fun s => match m s with
           | Done s' a => k a s'
           | Aborted s' => Aborted s'
           | OutOfFuel s' => OutOfFuel s'
           end.

Declare Scope io_scope.
Delimit Scope io_scope with io.
Notation "x <- m ;; k" := (bind m (fun x => k))
  (at level 100, m at next level, right associativity) : io_scope.
Notation "' p <- m ;; k" := (bind m (fun p => k))
  (at level 100, p pattern, m at next level, right associativity) : io_scope.
Notation "m ;; k" := (bind m (fun _ => k))
  (at level 100, right associativity) : io_scope.
Open Scope io_scope.

Definition diverge {A} : io A := fun s => OutOfFuel s.

Definition printf (m : message) : io unit :=
  fun s => Done (mkStream (fpos s) (seeks s) (console s ++ [m])) tt.

Definition assert (b : bool) : io unit :=
  fun s => if b then Done s tt else Aborted s.

(** [fseek(inFile, pos, SEEK_SET)]: 0 on success. *)
Definition fseek (inFile : archive) (pos : Z) : io Z :=
  fun s =>
    if seekable inFile pos
    then Done (mkStream pos (seeks s ++ [pos]) (console s)) 0
    else Done (mkStream (fpos s) (seeks s ++ [pos]) (console s)) (-1).

(** [fread(dst, size, nmemb, inFile)]: the number of whole items read
    and the bytes of these items, which reached [dst].  The stream
    moves on by every byte read, also those of an item that the end
    of the file cuts short. *)
Definition fread (inFile : archive) (size nmemb : Z) : io (Z * list byte) :=
  fun s =>
    let avail := Z.max 0 (Z.of_nat (length (contents inFile)) - fpos s) in
    let cnt := Z.min nmemb (avail / size) in
    let data := firstn (Z.to_nat (cnt * size))
                       (skipn (Z.to_nat (fpos s)) (contents inFile)) in
    Done (mkStream (fpos s + Z.min (nmemb * size) avail) (seeks s) (console s))
         (cnt, data).

(** ** Caller memory *)

(** [memcpy(dst + off, src, n)] on the block [dst]. *)
Definition splice {A} (dst : list A) (off : nat) (data : list A) : list A :=
  firstn off dst ++ data ++ skipn (off + length data) dst.

Definition memcpy (dst : list byte) (off : Z) (src : list byte) (n : Z)
  : list byte :=
  splice dst (Z.to_nat off) (firstn (Z.to_nat n) src).

(** ** FetchFile (exp.c, exc.c, acbmp.c)

    The three copies differ in [SECSIZE] only: 256 words in exp.c and
    acbmp.c, 64 words in exc.c.  [buf] is the caller's block and [off]
    the distance the local pointer [buf] has moved into it.  The
    result is the returned int and the block. *)

Section FetchFile.
Variable SECSIZE : Z.

Fixpoint FetchFile_loop (fuel : nat) (inFile : archive)
         (filePos len : Z) (buf : list byte) (off : Z)
  : io (Z * list byte) :=
  match fuel with
  | O => diverge
  | S fuel' =>
    read <- fseek inFile filePos ;;
    if negb (read =? 0) then
      printf MsgSeekFailed ;; ret (0, buf)
    else
      '(read, sec) <- fread inFile 4 SECSIZE ;;
      if negb (read =? SECSIZE) then
        printf MsgShortSector ;; ret (0, buf)
      else
        let filePos := Z.land (word_at sec 0) 0x7FFFFFFF in
        if len >? (SECSIZE - 1) * 4 then
          let buf' := memcpy buf off (skipn 4 sec) ((SECSIZE - 1) * 4) in
          let off' := off + (SECSIZE - 1) * 4 in
          let len' := len - (SECSIZE - 1) * 4 in
          if filePos =? 0 then ret (1, buf')
          else FetchFile_loop fuel' inFile filePos len' buf' off'
        else
          let buf' := memcpy buf off (skipn 4 sec) len in
          if filePos =? 0 then ret (1, buf')
          else FetchFile_loop fuel' inFile filePos 0 buf' off
  end.

Definition FetchFile (fuel : nat) (inFile : archive)
           (filePos len : Z) (buf : list byte) : io (Z * list byte) :=
  if filePos =? 0 then
    printf MsgNullFile ;; ret (0, buf)
  else
    FetchFile_loop fuel inFile filePos len buf 0.
End FetchFile.

(** ** Directory nodes

    Once a node is in the local array [dir], the three copies of
    FetchFilePos run the same text on it: the bound on the entry
    count, the scan, the test for a hit, the leaf test and the choice
    of the child. *)

Definition NUMFILELOC : Z := 0x03F.
Definition ROOTDIRPTRLOC : Z := 0x148.

(** A directory entry: id, offset of the first sector, length. *)
Definition entry : Type := Z * Z * Z.

Definition key (e : entry) : Z := fst (fst e).

(** [while ((i < numFiles) && (id > dir[i * 3 + NUMFILELOC + 1])) i++;]
    The loop leaves after at most [numFiles] rounds, which is the
    count [n] it is started with. *)
Fixpoint scan (n : nat) (dir : list byte) (id numFiles i : Z) : Z :=
  match n with
  | O => i
  | S n' =>
    if (i <? numFiles) && (id >? word_at dir (i * 3 + NUMFILELOC + 1))
    then scan n' dir id numFiles (i + 1)
    else i
  end.

Inductive verdict :=
| TooMany                        (* numFiles >= NUMFILELOC *)
| Hit (filePos len : Z)          (* the entry at i carries id *)
| Miss                           (* dir[1] == 0 *)
| Descend (dirPos : Z).          (* dirPos = dir[i + 1] *)

Definition search_node (dir : list byte) (id : Z) : verdict :=
  let numFiles := word_at dir NUMFILELOC in
  if numFiles >=? NUMFILELOC then TooMany
  else
    let i := scan (Z.to_nat numFiles) dir id numFiles 0 in
    if (i <? numFiles) && (id =? word_at dir (i * 3 + NUMFILELOC + 1))
    then Hit (word_at dir (i * 3 + NUMFILELOC + 2))
             (word_at dir (i * 3 + NUMFILELOC + 3))
    else if word_at dir 1 =? 0 then Miss
    else Descend (word_at dir (i + 1)).

(** FetchFilePos of exp.c and acbmp.c: a node is one sector.
    [filePos] and [len] are what the caller's two cells hold; the
    result is the returned int and the two cells.  At a leaf the
    source assigns 0 to its own pointer variables [filePos] and [len],
    not through them, so the cells stay as they are. *)
Module Portal.
Definition SECSIZE : Z := 256.

Section Sized.
Variable SECSIZE : Z.

Fixpoint FetchFilePos (fuel : nat) (inFile : archive)
         (dirPos id : Z) (filePos len : Z) : io (Z * (Z * Z)) :=
  match fuel with
  | O => diverge
  | S fuel' =>
    if dirPos =? 0 then
      printf MsgNullDir ;; ret (0, (filePos, len))
    else
      read <- fseek inFile dirPos ;;
      if negb (read =? 0) then
        printf MsgSeekBeyond ;; ret (0, (filePos, len))
      else
        '(read, dir) <- fread inFile 4 SECSIZE ;;
        if negb (read =? SECSIZE) then
          printf MsgShortDir ;; ret (0, (filePos, len))
        else
          match search_node dir id with
          | TooMany => printf MsgNumFiles ;; ret (0, (filePos, len))
          | Hit p l => ret (1, (p, l))
          | Miss => ret (0, (filePos, len))
          | Descend p => FetchFilePos fuel' inFile p id filePos len
          end
  end.
End Sized.
End Portal.

(** FetchFilePos of exc.c: a node is a chain of up to four sectors.
    The local array [dir] of [4 * SECSIZE] words is declared outside
    the loop, so what a node does not overwrite is what the node
    before it (or, the first time, the stack) left there. *)
Module Cell.
Definition SECSIZE : Z := 64.

Section Sized.
Variable SECSIZE : Z.

(** One [if (dirPos != 0) { ... }] block: the next sector's first
    word goes to [dirPos], its other words to [&dir[dst]].  [None]
    stands for the block's [return 0]. *)
Definition follow (inFile : archive) (dirPos : Z) (dir : list byte)
           (dst : Z) : io (option (Z * list byte)) :=
  if negb (dirPos =? 0) then
    read <- fseek inFile dirPos ;;
    if negb (read =? 0) then
      printf MsgSeekBeyond ;; ret None
    else
      '(read, w) <- fread inFile 4 1 ;;
      if negb (read =? 1) then
        printf MsgNoSector ;; ret None
      else
        '(read, tail) <- fread inFile 4 (SECSIZE - 1) ;;
        if negb (read =? SECSIZE - 1) then
          printf MsgShortDir ;; ret None
        else
          ret (Some (word_at w 0,
                     memcpy dir (4 * dst) tail (4 * (SECSIZE - 1))))
  else ret (Some (dirPos, dir)).

(** The node at [dirPos], read over [dir]. *)
Definition read_node (inFile : archive) (dirPos : Z) (dir : list byte)
  : io (option (list byte)) :=
  read <- fseek inFile dirPos ;;
  if negb (read =? 0) then
    printf MsgSeekBeyond ;; ret None
  else
    '(read, sec) <- fread inFile 4 SECSIZE ;;
    if negb (read =? SECSIZE) then
      printf MsgShortDir ;; ret None
    else
      let dir := memcpy dir 0 sec (4 * SECSIZE) in
      let dirPos := word_at dir 0 in
      r <- follow inFile dirPos dir SECSIZE ;;
      match r with
      | None => ret None
      | Some (dirPos, dir) =>
        r <- follow inFile dirPos dir (SECSIZE * 2 - 1) ;;
        match r with
        | None => ret None
        | Some (dirPos, dir) =>
          r <- follow inFile dirPos dir (SECSIZE * 3 - 2) ;;
          match r with
          | None => ret None
          | Some (_, dir) => ret (Some dir)
          end
        end
      end.

Fixpoint FetchFilePos (fuel : nat) (inFile : archive)
         (dirPos id : Z) (filePos len : Z) (dir : list byte)
  : io (Z * (Z * Z)) :=
  match fuel with
  | O => diverge
  | S fuel' =>
    if dirPos =? 0 then
      printf MsgNullDir ;; ret (0, (filePos, len))
    else
      r <- read_node inFile dirPos dir ;;
      match r with
      | None => ret (0, (filePos, len))
      | Some dir =>
        match search_node dir id with
        | TooMany => printf MsgNumFiles ;; ret (0, (filePos, len))
        | Hit p l => ret (1, (p, l))
        | Miss => ret (0, (filePos, len))
        | Descend p => FetchFilePos fuel' inFile p id filePos len dir
        end
      end
  end.
End Sized.
End Cell.

(** ** mapac.c: the map and the walk over the directory *)

Definition u32 (z : Z) : Z := z mod 0x100000000.

(** [for (i = from; ...; i++) st = body i st], run [n] times. *)
Fixpoint for_upto {St : Type} (n : nat) (i : Z) (body : Z -> St -> io St)
         (st : St) : io St :=
  match n with
  | O => ret st
  | S n' => st' <- body i st ;; for_upto n' (i + 1) body st'
  end.

Module Mapac.
Definition LANDSIZE : Z := 2041.
Definition CELLSECSIZE : Z := 64.

Record landData := mkLand { type : Z; z : Z; used : Z }.

(** The global [land[LANDSIZE][LANDSIZE]], row first.  The array
    has the points with both indices from 0 to [LANDSIZE - 1]; the
    function is total, and says what the program does only as long
    as every write stays among these points, which the block indices
    below 255 ensure. *)
Definition landmap := Z -> Z -> landData.

Definition land_set (land : landmap) (row col : Z) (d : landData)
  : landmap :=
  fun r c => if (r =? row) && (c =? col) then d else land r c.

Definition blank : landmap := fun _ _ => mkLand 0 0 0.

(** [typeData[k]] and [zData[k]] of a landblock sector. *)
Definition typeData (sec : list byte) (k : Z) : Z :=
  half_at (skipn 12 sec) k.

Definition zData (sec : list byte) (k : Z) : Z :=
  byte_val (nth (Z.to_nat (174 + k)) sec x00).

(** The body of the two loops of writeLandData. *)
Definition write_point (sec : list byte) (startX startY x y : Z)
           (land : landmap) : io landmap :=
  let row := u32 (startY - y) in
  let col := u32 (startX + x) in
  let oldType := type (land row col) in
  let oldZ := z (land row col) in
  let newType := typeData sec (x * 9 + y) in
  let newZ := zData sec (x * 9 + y) in
  (if negb (used (land row col) =? 0)
      && (negb (oldType =? newType) || negb (oldZ =? newZ))
   then printf (MsgChanged col row oldType oldZ newType newZ)
   else ret tt) ;;
  ret (land_set land row col (mkLand newType newZ 1)).

Definition writeLandData (sec : list byte) (blockX blockY : Z)
           (land : landmap) : io landmap :=
  let startX := u32 (blockX * 8) in
  let startY := u32 (LANDSIZE - blockY * 8 - 1) in
  for_upto 9 0
    (fun x land => for_upto 9 0 (write_point sec startX startY x) land)
    land.

(** The arguments ReadDir passes for the block indices, from the
    id word [sec[1]] of the landblock sector. *)
Definition blockX_of (id : Z) : Z := Z.shiftr id 24.
Definition blockY_of (id : Z) : Z := Z.shiftr (Z.land id 0x00FF0000) 16.

(** One [if (dirPos != 0) { ... }] block of ReadDir. *)
Definition follow (inFile : archive) (dirPos : Z) (dir : list byte)
           (dst : Z) : io (Z * list byte) :=
  if negb (dirPos =? 0) then
    r <- fseek inFile dirPos ;;
    assert (r =? 0) ;;
    '(n, w) <- fread inFile 4 1 ;;
    assert (n =? 1) ;;
    '(n, tail) <- fread inFile (4 * (CELLSECSIZE - 1)) 1 ;;
    assert (n =? 1) ;;
    ret (word_at w 0, memcpy dir (4 * dst) tail (4 * (CELLSECSIZE - 1)))
  else ret (dirPos, dir).

(** "Read the directory": the node at [dirPos], read over the local
    array, whose first contents [dir] are whatever the stack held. *)
Definition read_node (inFile : archive) (dirPos : Z) (dir : list byte)
  : io (list byte) :=
  assert (negb (dirPos =? 0)) ;;
  r <- fseek inFile dirPos ;;
  assert (r =? 0) ;;
  '(n, sec) <- fread inFile (4 * CELLSECSIZE) 1 ;;
  assert (n =? 1) ;;
  let dir := memcpy dir 0 sec (4 * CELLSECSIZE) in
  let dirPos := word_at dir 0 in
  '(dirPos, dir) <- follow inFile dirPos dir CELLSECSIZE ;;
  '(dirPos, dir) <- follow inFile dirPos dir (CELLSECSIZE * 2 - 1) ;;
  '(_, dir) <- follow inFile dirPos dir (CELLSECSIZE * 3 - 2) ;;
  ret dir.

(** The body of the loop over the entries: [st] is [found] and the
    map. *)
Definition visit_entry (inFile : archive) (dir : list byte) (i : Z)
           (st : Z * landmap) : io (Z * landmap) :=
  let '(found, land) := st in
  let id := word_at dir (i * 3 + NUMFILELOC + 1) in
  if Z.land id 0x0000FFFF =? 0x0000FFFF then
    assert (word_at dir (i * 3 + NUMFILELOC + 3) =? 252) ;;
    assert (negb (Z.land id 0xFF000000 =? 0xFF000000)) ;;
    assert (negb (Z.land id 0x00FF0000 =? 0x00FF0000)) ;;
    r <- fseek inFile (word_at dir (i * 3 + NUMFILELOC + 2)) ;;
    assert (r =? 0) ;;
    '(n, sec) <- fread inFile (4 * CELLSECSIZE) 1 ;;
    assert (n =? 1) ;;
    land' <- writeLandData sec (blockX_of (word_at sec 1))
                           (blockY_of (word_at sec 1)) land ;;
    ret (u32 (found + 1), land')
  else ret st.

(** [junk] stands for what the stack holds where a call finds its
    local array [dir]. *)
Fixpoint ReadDir (fuel : nat) (inFile : archive) (junk : list byte)
         (dirPos : Z) (land : landmap) : io (Z * landmap) :=
  match fuel with
  | O => diverge
  | S fuel' =>
    dir <- read_node inFile dirPos junk ;;
    let numFiles := word_at dir NUMFILELOC in
    assert (numFiles <? NUMFILELOC) ;;
    st <- for_upto (Z.to_nat numFiles) 0 (visit_entry inFile dir)
                   (0, land) ;;
    if negb (word_at dir 1 =? 0) then
      for_upto (Z.to_nat (numFiles + 1)) 0
        (fun i st =>
           let '(found, land) := st in
           '(sub, land') <- ReadDir fuel' inFile junk
                                    (word_at dir (i + 1)) land ;;
           ret (u32 (found + sub), land'))
        st
    else ret st
  end.
End Mapac.

(** ** acbmp.c: the two passes over the ids of graphics *)

Module Acbmp.
(** [for (i = 0; i < 65536; i++) if (FetchFilePos(inFile, rootDirPtr,
    base | i, &filePos, &len)) { ... }]: the ids at which the body
    is entered, with what the two cells hold on entry.  The body,
    which exports one graphic, is not part of this function. *)
Fixpoint probe_from (n : nat) (fuel : nat) (inFile : archive)
         (rootDirPtr base i : Z) (filePos len : Z) : io (list entry) :=
  match n with
  | O => ret []
  | S n' =>
    '(r, (filePos', len')) <-
      Portal.FetchFilePos Portal.SECSIZE fuel inFile rootDirPtr
                          (Z.lor base i) filePos len ;;
    rest <- probe_from n' fuel inFile rootDirPtr base (i + 1)
                       filePos' len' ;;
    if negb (r =? 0) then ret ((Z.lor base i, filePos', len') :: rest)
    else ret rest
  end.

Definition probe (fuel : nat) (inFile : archive)
           (rootDirPtr base : Z) (filePos len : Z) : io (list entry) :=
  probe_from (Z.to_nat 65536) fuel inFile rootDirPtr base 0 filePos len.

(** [palPtrs += imageH * imageW / sizeof(uint) + 4;] counted in
    words from the start of the record. *)
Definition palPtrs_index (imageW imageH : Z) : Z :=
  u32 (imageH * imageW) / 4 + 4.

(** The header words of a texture record and [palPtrs[0]] after
    the pointer has been moved. *)
Definition imageId (buf : list byte) : Z := word_at buf 0.
Definition imageType (buf : list byte) : Z := word_at buf 1.
Definition imageW (buf : list byte) : Z := word_at buf 2.
Definition imageH (buf : list byte) : Z := word_at buf 3.

Definition palette_key (buf : list byte) : Z :=
  word_at buf (palPtrs_index (imageW buf) (imageH buf)).
End Acbmp.

(** ** What is on disk

    The vocabulary in which the properties of the readers are stated:
    a sector found at an offset, and a chain of sectors linked through
    their first words and closed by a null offset. *)

Definition low31 (w : Z) : Z := Z.land w 0x7FFFFFFF.

Definition payload (sec : list byte) : list byte := skipn 4 sec.

(** An offset without the reserved bit 31. *)
Definition high_bit_clear (p : Z) : Prop := 0 <= p < 0x80000000.

(** The bytes a read of one whole sector at [pos] delivers. *)
Definition sector_bytes (SECSIZE : Z) (inFile : archive) (pos : Z)
  : list byte :=
  firstn (Z.to_nat (SECSIZE * 4)) (skipn (Z.to_nat pos) (contents inFile)).

(** Each offset of [l] is the first word, masked to its low 31 bits,
    of the sector at the offset before it, the first being [pos]. *)
Fixpoint masked_links (SECSIZE : Z) (inFile : archive) (pos : Z)
         (l : list Z) : Prop :=
  match l with
  | [] => True
  | q :: l' =>
    q = low31 (word_at (sector_bytes SECSIZE inFile pos) 0) /\
    masked_links SECSIZE inFile q l'
  end.

Section Layout.
Variable SECSIZE : Z.
Variable inFile : archive.

Definition sector_at (pos : Z) (sec : list byte) : Prop :=
  seekable inFile pos = true /\
  0 <= pos /\
  length sec = Z.to_nat (4 * SECSIZE) /\
  firstn (Z.to_nat (4 * SECSIZE))
         (skipn (Z.to_nat pos) (contents inFile)) = sec.

(** A record chain: the sectors reached from [pos], each through the
    low 31 bits of the first word of the one before; the empty chain
    is the null offset. *)
Fixpoint chain_at (pos : Z) (secs : list (list byte)) : Prop :=
  match secs with
  | [] => pos = 0
  | sec :: rest =>
    pos <> 0 /\ sector_at pos sec /\
    chain_at (low31 (word_at sec 0)) rest
  end.

Fixpoint chain_offsets (pos : Z) (secs : list (list byte)) : list Z :=
  match secs with
  | [] => []
  | sec :: rest => pos :: chain_offsets (low31 (word_at sec 0)) rest
  end.
End Layout.

(** Bytes of payload in a sector, and the sectors a record of [L]
    bytes needs. *)
Definition payload_size (SECSIZE : Z) : Z := (SECSIZE - 1) * 4.

Definition sectors_needed (SECSIZE L : Z) : Z :=
  (L + payload_size SECSIZE - 1) / payload_size SECSIZE.

(** ** The directory tree as the readers see it

    A node in memory is the array [dir]: word 0 is the first word of
    its first sector, words 1 .. hold the offsets of the child nodes,
    word [NUMFILELOC] the number of entries and the words from
    [NUMFILELOC + 1] on the entries, three words each. *)

Definition numFiles_of (dir : list byte) : Z := word_at dir NUMFILELOC.

Definition dir_entry (dir : list byte) (i : Z) : entry :=
  (word_at dir (i * 3 + NUMFILELOC + 1),
   word_at dir (i * 3 + NUMFILELOC + 2),
   word_at dir (i * 3 + NUMFILELOC + 3)).

Definition dir_entries (dir : list byte) : list entry :=
  map (fun i => dir_entry dir (Z.of_nat i))
      (seq 0 (Z.to_nat (numFiles_of dir))).

Definition dir_child (dir : list byte) (i : Z) : Z := word_at dir (i + 1).

(** Where the scan of [search_node] stops. *)
Definition scan_index (dir : list byte) (id : Z) : Z :=
  scan (Z.to_nat (numFiles_of dir)) dir id (numFiles_of dir) 0.

(** The ids that fence the children of a node whose own ids lie
    between [lo] and [hi]: [lo], the ids of the entries, [hi]. *)
Definition fence (dir : list byte) (lo hi i : Z) : Z :=
  if i <? 0 then lo
  else if i <? numFiles_of dir then key (dir_entry dir i)
  else hi.

(** [lo], the ids of the node and [hi] ascend strictly. *)
Definition fenced (dir : list byte) (lo hi : Z) : bool :=
  forallb (fun j => fence dir lo hi (Z.of_nat j - 1) <? fence dir lo hi (Z.of_nat j))
          (seq 0 (S (Z.to_nat (numFiles_of dir)))).

(** The entries under a node in order: child 0, entry 0, child 1,
    entry 1, ..., the last child. *)
Fixpoint inorder (subs : list (list entry)) (es : list entry) : list entry :=
  match subs with
  | [] => []
  | sub :: subs' =>
    match es with
    | [] => sub
    | e :: es' => sub ++ e :: inorder subs' es'
    end
  end.

Section Tree.
(** [node_at pos dir]: the node stored at offset [pos] has the
    words [dir]. *)
Variable node_at : Z -> list byte -> Prop.

(** [tree_at h pos lo hi all]: at [pos] starts a tree of at most [h]
    levels whose ids lie strictly between [lo] and [hi] and whose
    entries are, in order, [all].  A node is a leaf when its first
    child offset is null; otherwise each of its [numFiles + 1]
    child offsets starts a tree, fenced by the ids of the entries
    next to it. *)
Inductive tree_at : nat -> Z -> Z -> Z -> list entry -> Prop :=
| tree_leaf h pos lo hi dir :
    node_at pos dir ->
    numFiles_of dir < NUMFILELOC ->
    fenced dir lo hi = true ->
    dir_child dir 0 = 0 ->
    tree_at (S h) pos lo hi (dir_entries dir)
| tree_branch h pos lo hi dir subs :
    node_at pos dir ->
    numFiles_of dir < NUMFILELOC ->
    fenced dir lo hi = true ->
    dir_child dir 0 <> 0 ->
    length subs = S (Z.to_nat (numFiles_of dir)) ->
    (forall i, 0 <= i <= numFiles_of dir ->
               tree_at h (dir_child dir i)
                       (fence dir lo hi (i - 1)) (fence dir lo hi i)
                       (nth (Z.to_nat i) subs [])) ->
    tree_at (S h) pos lo hi (inorder subs (dir_entries dir)).
End Tree.

(** Nodes of a PORTAL-class archive: one sector. *)
Definition portal_node_at (SECSIZE : Z) (inFile : archive)
           (pos : Z) (dir : list byte) : Prop :=
  pos <> 0 /\ sector_at SECSIZE inFile pos dir.

(** Nodes of a CELL-class archive: a first sector and up to three
    more, each found at the offset that the first word of the one
    before holds, as it stands.  The chain is closed by a null first
    word, or by the array being full after the fourth sector. *)
Fixpoint linked (SECSIZE : Z) (inFile : archive) (room : nat)
         (pos : Z) (secs : list (list byte)) : Prop :=
  match secs with
  | [] => room = O \/ pos = 0
  | sec :: rest =>
    pos <> 0 /\ sector_at SECSIZE inFile pos sec /\
    match room with
    | O => False
    | S room' => linked SECSIZE inFile room' (word_at sec 0) rest
    end
  end.

(** The node written in one piece: the first sector whole, the later
    ones without their first word. *)
Definition cell_image (secs : list (list byte)) : list byte :=
  match secs with
  | [] => []
  | sec :: rest => sec ++ concat (map payload rest)
  end.

Definition cell_node_at (SECSIZE : Z) (inFile : archive)
           (pos : Z) (dir : list byte) : Prop :=
  exists secs,
    secs <> [] /\ linked SECSIZE inFile 4 pos secs /\
    dir = cell_image secs /\
    4 * (NUMFILELOC + 1 + 3 * numFiles_of dir) <= Z.of_nat (length dir).

(** The words of a CELL-class node counted as if it were written in
    one piece: sector 1 gives words 0..63, and sectors 2, 3 and 4,
    without their first word, give words 64..126, 127..189 and
    190..252.  [None] where the chain gives no word. *)
Definition sector_word (secs : list (list byte)) (j : nat) (w : Z)
  : option Z :=
  match nth_error secs j with
  | Some sec => Some (word_at sec w)
  | None => None
  end.

Definition contiguous_word (secs : list (list byte)) (k : Z) : option Z :=
  if k <? 64 then sector_word secs 0 k
  else if k <? 127 then sector_word secs 1 (k - 63)
  else if k <? 190 then sector_word secs 2 (k - 126)
  else if k <? 253 then sector_word secs 3 (k - 189)
  else None.

(** The array [dir] of 256 words holds the node of the sectors
    [secs] over what it held before, [dir0]. *)
Definition reconstitutes (secs : list (list byte)) (dir0 dir : list byte)
  : Prop :=
  length dir = length dir0 /\
  forall k, 0 <= k < 256 ->
    word_at dir k = match contiguous_word secs k with
                    | Some w => w
                    | None => word_at dir0 k
                    end.

(** Entries in strictly ascending order of their ids. *)
Definition ascending (l : list entry) : Prop :=
  StronglySorted Z.lt (map key l).

(** The children [subs] and the entries [es] of a node interleave
    between [lo] and [hi]: each child is in order and lies strictly
    between the ids next to it. *)
Fixpoint interleaved (lo : Z) (subs : list (list entry)) (es : list entry)
         (hi : Z) : Prop :=
  match subs with
  | [] => False
  | sub :: subs' =>
    ascending sub /\
    match es with
    | [] => subs' = [] /\ Forall (fun x => lo < key x < hi) sub
    | e :: es' =>
      Forall (fun x => lo < key x < key e) sub /\
      lo < key e < hi /\
      interleaved (key e) subs' es' hi
    end
  end.

(** The tests that select the entries of a traversal: an id in
    [a, b); an id with the same upper 16 bits as [base]; an id whose
    upper 8 bits are the type [t]. *)
Definition in_range (a b : Z) (e : entry) : bool :=
  (a <=? key e) && (key e <? b).

Definition same_prefix16 (base : Z) (e : entry) : bool :=
  key e / 0x10000 =? base / 0x10000.

Definition of_type (t : Z) (e : entry) : bool :=
  key e / 0x1000000 =? t.

(** What a lookup reports. *)
Definition found (o : outcome (Z * (Z * Z))) (s : stream) (off len : Z)
  : Prop :=
  exists s', o = Done s' (1, (off, len)) /\ console s' = console s.

Definition not_found (o : outcome (Z * (Z * Z))) (s : stream)
           (filePos len : Z) : Prop :=
  exists s', o = Done s' (0, (filePos, len)) /\ console s' = console s.

(** What a lookup does to the caller's two cells, which held
    [filePos] and [len]: it returns 0 and leaves them, or it returns
    1 and they hold the offset and length of an entry whose id is
    [id].  A lookup has no assert to fail. *)
Definition cells_framed (id filePos len : Z) (o : outcome (Z * (Z * Z)))
  : Prop :=
  match o with
  | Done _ (r, c) =>
    (r = 0 /\ c = (filePos, len)) \/
    (r = 1 /\ exists dir, search_node dir id = Hit (fst c) (snd c))
  | Aborted _ => False
  | OutOfFuel _ => True
  end.

(** ** Archives used as examples

    A CELL-class archive: 1024 bytes of header, then sectors of 256
    bytes.  [fseek] takes a [long]; on the 32-bit hosts the tools were
    written for it refuses an offset whose bit 31 is set. *)

Definition byte_of (z : Z) : byte :=
  match Byte.of_N (Z.to_N (z mod 256)) with
  | Some b => b
  | None => x00
  end.

Definition word_bytes (w : Z) : list byte :=
  [byte_of w; byte_of (w / 256); byte_of (w / 65536); byte_of (w / 16777216)].

Definition bytes_of_words (ws : list Z) : list byte :=
  flat_map word_bytes ws.

Definition long_seek (pos : Z) : bool := (0 <=? pos) && (pos <? 0x80000000).

Definition header (rootDirPtr : Z) : list byte :=
  repeat x00 (Z.to_nat ROOTDIRPTRLOC) ++ word_bytes rootDirPtr
  ++ repeat x00 (1024 - Z.to_nat ROOTDIRPTRLOC - 4).

(** A sector of [SECSIZE] words: its next pointer, then the byte
    [fill] throughout. *)
Definition filled_sector (SECSIZE next : Z) (fill : byte) : list byte :=
  word_bytes next ++ repeat fill (Z.to_nat (payload_size SECSIZE)).

(** Two record sectors at 1024 and 1280; the first points to the
    second with bit 31 set. *)
Definition two_sector_archive : archive :=
  mkArchive (header 0
             ++ filled_sector 64 0x80000500 x11
             ++ filled_sector 64 0 x22)
            long_seek.

(** One record sector at 1024, closing its chain. *)
Definition one_sector_archive : archive :=
  mkArchive (header 0 ++ filled_sector 64 0 x11) long_seek.

Definition fresh : stream := mkStream 0 [] [].

Definition pad (n : nat) (ws : list Z) : list Z :=
  ws ++ repeat 0 (n - length ws).

Definition entry_words (es : list entry) : list Z :=
  flat_map (fun e => [key e; snd (fst e); snd e]) es.

(** A node in one sector of 256 words. *)
Definition portal_node (children : list Z) (es : list entry) : list byte :=
  bytes_of_words
    (pad 256 ([0] ++ pad 62 children ++ [Z.of_nat (length es)]
              ++ entry_words es)).

(** A PORTAL-class archive with a root at 1024 and two leaves.
<<
                  [ 05000002 ]                    1024
     [ 04000001 05000001 ]  [ 05010000 06000000 ] 2048, 3072
>> *)
Definition portal_root : list byte :=
  portal_node [2048; 3072] [(0x05000002, 4096, 20)].
Definition portal_left : list byte :=
  portal_node [] [(0x04000001, 5120, 1032); (0x05000001, 6144, 24)].
Definition portal_right : list byte :=
  portal_node [] [(0x05010000, 7168, 80); (0x06000000, 8192, 24)].

Definition portal_example : archive :=
  mkArchive (header 1024 ++ portal_root ++ portal_left ++ portal_right)
            long_seek.

Definition portal_entries : list entry :=
  [(0x04000001, 5120, 1032); (0x05000001, 6144, 24);
   (0x05000002, 4096, 20);
   (0x05010000, 7168, 80); (0x06000000, 8192, 24)].

(** ** The node format with the first child in word 0

    The format description puts the first child offset in word 0 of
    a node, the others in the words after it, the count in word 3F
    and the entries from word 40; a leaf has a null word 0.
    [tree_at_word0] is [tree_at] for that layout. *)
Definition word0_child (dir : list byte) (i : Z) : Z := word_at dir i.

Inductive tree_at_word0 (node_at : Z -> list byte -> Prop)
  : nat -> Z -> Z -> Z -> list entry -> Prop :=
| word0_leaf h pos lo hi dir :
    node_at pos dir ->
    numFiles_of dir < NUMFILELOC ->
    fenced dir lo hi = true ->
    word0_child dir 0 = 0 ->
    tree_at_word0 node_at (S h) pos lo hi (dir_entries dir)
| word0_branch h pos lo hi dir subs :
    node_at pos dir ->
    numFiles_of dir < NUMFILELOC ->
    fenced dir lo hi = true ->
    word0_child dir 0 <> 0 ->
    length subs = S (Z.to_nat (numFiles_of dir)) ->
    (forall i, 0 <= i <= numFiles_of dir ->
               tree_at_word0 node_at h (word0_child dir i)
                       (fence dir lo hi (i - 1)) (fence dir lo hi i)
                       (nth (Z.to_nat i) subs [])) ->
    tree_at_word0 node_at (S h) pos lo hi (inorder subs (dir_entries dir)).

(** A node of that layout in one sector of 256 words. *)
Definition word0_node (children : list Z) (es : list entry) : list byte :=
  bytes_of_words
    (pad 256 (pad 63 children ++ [Z.of_nat (length es)] ++ entry_words es)).

(** The directory of the PORTAL example, entry for entry, in that
    layout. *)
Definition word0_root : list byte :=
  word0_node [2048; 3072] [(0x05000002, 4096, 20)].
Definition word0_left : list byte :=
  word0_node [] [(0x04000001, 5120, 1032); (0x05000001, 6144, 24)].
Definition word0_right : list byte :=
  word0_node [] [(0x05010000, 7168, 80); (0x06000000, 8192, 24)].

Definition word0_example : archive :=
  mkArchive (header 1024 ++ word0_root ++ word0_left ++ word0_right)
            long_seek.

(** The two sectors of a CELL-class node with up to 21 entries. *)
Definition cell_head (next : Z) (children : list Z) (n : Z) : list byte :=
  bytes_of_words ([next] ++ pad 62 children ++ [n]).
Definition cell_tail (next : Z) (es : list entry) : list byte :=
  bytes_of_words (pad 64 (next :: entry_words es)).

(** A landblock sector: next pointer, id, object flag, 81 type codes,
    81 heights, pad. *)
Definition landblock_sector (id : Z) (t h : Z) : list byte :=
  bytes_of_words [0; id; 0]
  ++ flat_map (fun _ => [byte_of t; byte_of (t / 256)]) (seq 0 81)
  ++ repeat (byte_of h) 81 ++ [x00].

(** A CELL-class archive with a root at 1024 and two leaves at 1536
    and 2048, each node in two sectors, and the two landblocks of the
    directory at 2560 and 2816.
<<
              [ 7F7FFFFF ]
     [ 0102FFFF ]      [ 8000FFFE ]
>> *)
Definition cell_root : list (list byte) :=
  [cell_head 1280 [1536; 2048] 1; cell_tail 0 [(0x7F7FFFFF, 2560, 252)]].
Definition cell_left : list (list byte) :=
  [cell_head 1792 [] 1; cell_tail 0 [(0x0102FFFF, 2816, 252)]].
Definition cell_right : list (list byte) :=
  [cell_head 2304 [] 1; cell_tail 0 [(0x8000FFFE, 3072, 8)]].

Definition cell_example : archive :=
  mkArchive (header 1024 ++ concat cell_root ++ concat cell_left
             ++ concat cell_right
             ++ landblock_sector 0x7F7FFFFF 0x0C 30
             ++ landblock_sector 0x0102FFFF 0x41 50)
            long_seek.

Definition cell_entries : list entry :=
  [(0x0102FFFF, 2816, 252); (0x7F7FFFFF, 2560, 252); (0x8000FFFE, 3072, 8)].

(** A CELL-class directory of one node at 1024 whose one entry has
    the id 0102FFFF and the offset 1536 of a landblock sector that
    carries the id 0304FFFF in its own second word. *)
Definition misfiled_root : list (list byte) :=
  [cell_head 1280 [] 1; cell_tail 0 [(0x0102FFFF, 1536, 252)]].

Definition misfiled_example : archive :=
  mkArchive (header 1024 ++ concat misfiled_root
             ++ landblock_sector 0x0304FFFF 0x41 50)
            long_seek.

(** What the stack holds under a local array of 256 words. *)
Definition junk : list byte := repeat xaa 1024.

(** The texture record of one pixel: id, type 2, width 1, height 1,
    one index byte padded to a word, then the palette id. *)
Definition one_pixel_texture : list byte :=
  bytes_of_words [0x05000001; 2; 1; 1; 0; 0x04000001].

(** ** Chains that never close *)

(** The offsets [at_ 0], [at_ 1], ... are not null and each holds a
    sector whose first word, masked to its low 31 bits, is the offset
    after it. *)
Definition endless (SECSIZE : Z) (inFile : archive) (at_ : nat -> Z) : Prop :=
  forall n, at_ n <> 0 /\
            exists sec, sector_at SECSIZE inFile (at_ n) sec /\
                        low31 (word_at sec 0) = at_ (S n).

(** One record sector at 1024 whose next pointer is its own offset. *)
Definition looping_archive : archive :=
  mkArchive (header 0 ++ filled_sector 64 1024 x11) long_seek.

(** ** What a reader leaves behind *)

(** What a call leaves of the block outside the window
    [off, off + len). *)
Definition block_kept (buf : list byte) (off len : nat)
           (o : outcome (Z * list byte)) : Prop :=
  match o with
  | Done _ (_, buf') =>
    length buf' = length buf /\
    forall k, (k < off \/ off + len <= k)%nat ->
              nth_error buf' k = nth_error buf k
  | _ => True
  end.

(** The return value and the console of a reader that prints one
    line for each failure. *)
Definition fails_aloud {A} (s : stream) (o : outcome (Z * A)) : Prop :=
  match o with
  | Done s' (r, _) =>
    (r = 1 /\ console s' = console s) \/
    (r = 0 /\ exists m, console s' = console s ++ [m])
  | Aborted _ => False
  | OutOfFuel s' => console s' = console s
  end.

(** The return value and the console of a lookup: a miss is silent,
    every other failure prints one line. *)
Definition lookup_reported {A} (s : stream) (o : outcome (Z * A)) : Prop :=
  match o with
  | Done s' (r, _) =>
    (r = 1 /\ console s' = console s) \/
    (r = 0 /\ (console s' = console s \/
               exists m, console s' = console s ++ [m]))
  | Aborted _ => False
  | OutOfFuel s' => console s' = console s
  end.

(** The words of the array [dir] that hold a node with the most
    entries [search_node] accepts, 62: the words below
    [NUMFILELOC + 1 + 3 * 62]. *)
Definition node_words : Z := NUMFILELOC + 1 + 3 * (NUMFILELOC - 1).

(** A PORTAL-class directory of one node at 1024 whose two child
    offsets lead back to the node. *)
Definition cyclic_directory : archive :=
  mkArchive (header 1024 ++ portal_node [1024; 1024] [(0x05000002, 4096, 20)])
            long_seek.

(** A node that announces 63 entries. *)
Definition crowded_directory : archive :=
  mkArchive (header 1024
             ++ bytes_of_words (pad 256 ([0] ++ pad 62 [] ++ [63])))
            long_seek.

(** A node of 62 entries with the ids 1 to 62, all of its child
    offsets leading to 2048. *)
Definition full_directory : archive :=
  mkArchive (header 1024
             ++ portal_node (repeat 2048 62)
                            (map (fun k => (Z.of_nat k, 0, 0)) (seq 1 62)))
            long_seek.

(** ** exp.c and exc.c: main

    [argc] is the count of arguments, [inFile] the archive that
    [argv[1]] names if it opens, [id] the number that the conversion
    of [argv[2]] from hexadecimal gives.  [filePos] and [len] are
    what the stack holds in the two cells of main, [malloc n] what
    the heap holds in the block handed out for [n] bytes, and
    [can_write] says whether the output file opens.  The result is
    the exit status, the lines main prints itself and the bytes of
    the output file, if one is written. *)

Inductive complaint :=
| ErrArguments        (* ERROR: Incorrect number of arguments! *)
| ErrInput            (* ERROR: File ... failed to open! (the archive) *)
| ErrEndOfFile        (* ERROR: End of file reached! *)
| ErrNoFile (id : Z)  (* ERROR: File ... does not exist! / not found! *)
| ErrOutput.          (* ERROR: File ... failed to open! (the output) *)

Record run := mkRun {
  status : Z;
  said : list complaint;
  written : option (list byte)
}.

Module Exp.
Definition main (fuel : nat) (argc : Z) (inFile : option archive) (id : Z)
           (filePos len : Z) (malloc : Z -> list byte) (can_write : bool)
  : io run :=
  if negb (argc =? 3) then ret (mkRun (-1) [ErrArguments] None)
  else
    match inFile with
    | None => ret (mkRun (-1) [ErrInput] None)
    | Some inFile =>
      read <- fseek inFile ROOTDIRPTRLOC ;;
      if negb (read =? 0) then
        printf MsgSeekBeyond ;; ret (mkRun (-1) [] None)
      else
        '(read, w) <- fread inFile 4 1 ;;
        if negb (read =? 1) then ret (mkRun 0 [ErrEndOfFile] None)
        else
          let rootDirPtr := word_at w 0 in
          '(r, (filePos, len)) <-
            Portal.FetchFilePos Portal.SECSIZE fuel inFile rootDirPtr id
                                filePos len ;;
          if r =? 0 then ret (mkRun (-1) [ErrNoFile id] None)
          else
            let buf := malloc len in
            '(r, buf) <- FetchFile Portal.SECSIZE fuel inFile filePos len buf ;;
            if r =? 0 then ret (mkRun (-1) [] None)
            else if negb can_write then ret (mkRun (-1) [ErrOutput] None)
            else ret (mkRun 0 [] (Some (firstn (Z.to_nat len) buf)))
    end.
End Exp.

(** main of exc.c; [dir] is what the stack holds under the local
    array of FetchFilePos. *)
Module Exc.
Definition main (fuel : nat) (argc : Z) (inFile : option archive) (id : Z)
           (filePos len : Z) (dir : list byte) (malloc : Z -> list byte)
           (can_write : bool) : io run :=
  if negb (argc =? 3) then ret (mkRun (-1) [ErrArguments] None)
  else
    match inFile with
    | None => ret (mkRun (-1) [ErrInput] None)
    | Some inFile =>
      read <- fseek inFile ROOTDIRPTRLOC ;;
      if negb (read =? 0) then
        printf MsgSeekBeyond ;; ret (mkRun (-1) [] None)
      else
        '(read, w) <- fread inFile 4 1 ;;
        if negb (read =? 1) then ret (mkRun 0 [ErrEndOfFile] None)
        else
          let rootDirPtr := word_at w 0 in
          '(r, (filePos, len)) <-
            Cell.FetchFilePos Cell.SECSIZE fuel inFile rootDirPtr id
                              filePos len dir ;;
          if r =? 0 then ret (mkRun (-1) [ErrNoFile id] None)
          else
            let buf := malloc len in
            '(r, buf) <- FetchFile Cell.SECSIZE fuel inFile filePos len buf ;;
            if r =? 0 then ret (mkRun (-1) [] None)
            else if negb can_write then ret (mkRun (-1) [ErrOutput] None)
            else ret (mkRun 0 [] (Some (firstn (Z.to_nat len) buf)))
    end.
End Exc.

(** The header of the archive holds the offset [root] of the root
    node at [ROOTDIRPTRLOC], where the stream can go. *)
Definition root_pointer (inFile : archive) (root : Z) : Prop :=
  seekable inFile ROOTDIRPTRLOC = true /\
  ROOTDIRPTRLOC + 4 <= Z.of_nat (length (contents inFile)) /\
  word_at (skipn (Z.to_nat ROOTDIRPTRLOC) (contents inFile)) 0 = root.

(** What a run of an extractor leaves: the status is 0 or -1; a file
    is written only by a run that ends with status 0 and has printed
    nothing; and a run that ends with status 0 has written a file
    unless it met the end of the archive in the header. *)
Definition tidy (s : stream) (o : outcome run) : Prop :=
  match o with
  | Done s' r =>
    (status r = 0 \/ status r = -1) /\
    (written r <> None ->
     status r = 0 /\ said r = [] /\ console s' = console s) /\
    (status r = 0 -> written r <> None \/ said r = [ErrEndOfFile])
  | Aborted _ => False
  | OutOfFuel _ => True
  end.

(** The block [malloc] hands out for [n] bytes: [n] bytes of
    whatever the heap held. *)
Definition heap (n : Z) : list byte := repeat xcd (Z.to_nat n).

(** ** acbmp.c: the bitmap written for one graphic *)

(** [(int) u] for [u] of type [uint]. *)
Definition to_int (u : Z) : Z :=
  if u <? 0x80000000 then u else u - 0x100000000.

Module Bmp.
(** The bytes that [fwrite(&outShort, sizeof(short), 1, outFile)] and
    [fwrite(&outInt, sizeof(int), 1, outFile)] put in the file. *)
Definition short_bytes (v : Z) : list byte := [byte_of v; byte_of (v / 256)].
Definition int_bytes (v : Z) : list byte := word_bytes v.

(** The sixteen writes before the loops, the same in both passes. *)
Definition file_header (imageW imageH : Z) : list byte :=
  short_bytes 19778
  ++ int_bytes (u32 (imageW * imageH * 3 + 54 + Z.land imageW 3 * imageH))
  ++ short_bytes 0
  ++ short_bytes 0
  ++ int_bytes 54
  ++ int_bytes 40
  ++ int_bytes imageW
  ++ int_bytes imageH
  ++ short_bytes 1
  ++ short_bytes 24
  ++ int_bytes 0
  ++ int_bytes (u32 (imageW * imageH * 3 + Z.land imageW 3 * imageH))
  ++ int_bytes 0
  ++ int_bytes 0
  ++ int_bytes 0
  ++ int_bytes 0.

Section Rows.
(** [pixel x y]: the three bytes written for the point [(x, y)]. *)
Variable pixel : Z -> Z -> list byte.
Variables imageW imageH : Z.

(** [for (x = 0; x < imageW; x++) { ... }] and
    [for (x = 0; x < (imageW & 3); x++) { color = 0; ... }]. *)
Definition row (y : Z) : list byte :=
  flat_map (fun x => pixel (Z.of_nat x) y) (seq 0 (Z.to_nat imageW))
  ++ repeat x00 (Z.to_nat (Z.land imageW 3)).

(** [for (y = ...; y >= 0; y--)] entered with [y = n - 1]. *)
Fixpoint rows_from (n : nat) : list byte :=
  match n with
  | O => []
  | S n' => row (Z.of_nat n') ++ rows_from n'
  end.

(** [y = imageH - 1] is computed in [uint] and stored in an [int]. *)
Definition rows : list byte :=
  rows_from (Z.to_nat (to_int (u32 (imageH - 1)) + 1)).
End Rows.

(** The texture pass: [image = buf + 16] holds one index for each
    point, [pal] four bytes for each index after its first eight.
    [buf] and [pal] are the memory at the two pointers; the loops
    check no index against the length of a record. *)
Definition texture_pixel (buf pal : list byte) (imageW x y : Z) : list byte :=
  let c := byte_val (nth (Z.to_nat (16 + u32 (y * imageW + x))) buf x00) in
  [nth (Z.to_nat (c * 4 + 8)) pal x00;
   nth (Z.to_nat (c * 4 + 9)) pal x00;
   nth (Z.to_nat (c * 4 + 10)) pal x00].

Definition texture (buf pal : list byte) : list byte :=
  let imageW := word_at buf 2 in
  let imageH := word_at buf 3 in
  file_header imageW imageH
  ++ rows (texture_pixel buf pal imageW) imageW imageH.

(** The pass over the UI graphics: [image = buf + 12] holds three
    bytes for each point. *)
Definition ui_pixel (buf : list byte) (imageW x y : Z) : list byte :=
  [nth (Z.to_nat (12 + u32 ((y * imageW + x) * 3 + 2))) buf x00;
   nth (Z.to_nat (12 + u32 ((y * imageW + x) * 3 + 1))) buf x00;
   nth (Z.to_nat (12 + u32 ((y * imageW + x) * 3))) buf x00].

Definition ui_graphic (buf : list byte) : list byte :=
  let imageW := word_at buf 1 in
  let imageH := word_at buf 2 in
  file_header imageW imageH
  ++ rows (ui_pixel buf imageW) imageW imageH.

(** The bytes of a row in the file. *)
Definition stride (imageW : Z) : Z := 3 * imageW + Z.land imageW 3.
End Bmp.

(** A UI graphic of two columns and two rows: id, width, height, and
    the points in the order of the record, three bytes each. *)
Definition two_by_two : list byte :=
  bytes_of_words [0x06000000; 2; 2]
  ++ [x01; x02; x03;  x04; x05; x06;  x07; x08; x09;  x0a; x0b; x0c].

(** A palette: eight bytes of header, then for index [k] the bytes
    [k], [k + 100], [k + 200] and a pad. *)
Definition small_palette : list byte :=
  repeat x00 8
  ++ flat_map (fun k => [byte_of (Z.of_nat k); byte_of (Z.of_nat k + 100);
                         byte_of (Z.of_nat k + 200); x00])
              (seq 0 4).

(** A texture of three columns and two rows whose points hold the
    indices 0, 1, 2 and 3, 2, 1; the indices are padded to a word
    and followed by the id of the palette. *)
Definition small_texture : list byte :=
  bytes_of_words [0x05000001; 2; 3; 2]
  ++ [x00; x01; x02;  x03; x02; x01;  x00; x00]
  ++ bytes_of_words [0x04000001].

(** ** acbmp.c: main

    The bitmaps are named after the counter [fileNum]; every bitmap
    written is listed on a line of the console.  The lines main
    prints are kept apart from those of the readers. *)

Inductive listing :=
| Listed (fileNum imageId palId imageW imageH : Z).
                      (* "%4d %08X %08X %3d %3d" *)

Inductive objection :=
| NoArguments         (* ERROR: Incorrect number of arguments! *)
| NoInput             (* ERROR: File ... failed to open! *)
| NoRoot              (* ERROR: End of file reached! *)
| NoPalette (id : Z)  (* ERROR: Palette ... could not be found! *)
| NoBitmap (fileNum : Z).  (* ERROR: File gr....bmp did not open! *)

Record output := mkOutput {
  fileNum : Z;
  files : list (Z * list byte);   (* the number in the name, the bytes *)
  listed : list listing
}.

(** How a round of a loop of main ends: the loop goes on, the two
    cells holding [filePos] and [len], or main returns. *)
Inductive flow :=
| Go (filePos len : Z) (out : output)
| Return (code : Z) (said : list objection) (out : output).

(** [for (i = from; ...; i++) { ... }] with a body that may return
    from main, run at most [n] times. *)
Fixpoint rounds (n : nat) (i : Z)
         (body : Z -> Z -> Z -> output -> io flow)
         (filePos len : Z) (out : output) : io flow :=
  match n with
  | O => ret (Go filePos len out)
  | S n' =>
    r <- body i filePos len out ;;
    match r with
    | Go filePos len out => rounds n' (i + 1) body filePos len out
    | Return _ _ _ => ret r
    end
  end.

Module AcbmpMain.
Section Passes.
Variable fuel : nat.
Variable inFile : archive.
Variable rootDirPtr : Z.
Variable malloc : Z -> list byte.
(** Whether the bitmap of a number opens for writing. *)
Variable can_write : Z -> bool.

(** The body of the loop over the ids of textures. *)
Definition texture_round (i filePos len : Z) (out : output) : io flow :=
  '(r, (filePos, len)) <-
    Portal.FetchFilePos Portal.SECSIZE fuel inFile rootDirPtr
                        (Z.lor 0x05000000 i) filePos len ;;
  if r =? 0 then ret (Go filePos len out)
  else
    '(r, buf) <- FetchFile Portal.SECSIZE fuel inFile filePos len (malloc len) ;;
    if r =? 0 then ret (Return (-1) [] out)
    else
      let imageId := Acbmp.imageId buf in
      let imageType := Acbmp.imageType buf in
      let imageW := Acbmp.imageW buf in
      let imageH := Acbmp.imageH buf in
      let palId := Acbmp.palette_key buf in
      if imageType =? 2 then
        '(r, (filePos, len)) <-
          Portal.FetchFilePos Portal.SECSIZE fuel inFile rootDirPtr
                              palId filePos len ;;
        if r =? 0 then ret (Return (-1) [NoPalette palId] out)
        else
          '(r, pal) <-
            FetchFile Portal.SECSIZE fuel inFile filePos len (malloc len) ;;
          if r =? 0 then ret (Return (-1) [] out)
          else if negb (can_write (fileNum out)) then
            ret (Return (-1) [NoBitmap (fileNum out)] out)
          else
            ret (Go filePos len
                    (mkOutput
                       (u32 (fileNum out + 1))
                       (files out ++ [(fileNum out, Bmp.texture buf pal)])
                       (listed out
                        ++ [Listed (fileNum out) imageId palId imageW imageH])))
      else ret (Go filePos len out).

(** The body of the loop over the ids of UI graphics.  [palPtrs] has
    not moved from the start of the record, so the line lists the id
    of the graphic twice. *)
Definition ui_round (i filePos len : Z) (out : output) : io flow :=
  '(r, (filePos, len)) <-
    Portal.FetchFilePos Portal.SECSIZE fuel inFile rootDirPtr
                        (Z.lor 0x06000000 i) filePos len ;;
  if r =? 0 then ret (Go filePos len out)
  else
    '(r, buf) <- FetchFile Portal.SECSIZE fuel inFile filePos len (malloc len) ;;
    if r =? 0 then ret (Return (-1) [] out)
    else
      let imageId := word_at buf 0 in
      let imageW := word_at buf 1 in
      let imageH := word_at buf 2 in
      if negb (can_write (fileNum out)) then
        ret (Return (-1) [NoBitmap (fileNum out)] out)
      else
        ret (Go filePos len
                (mkOutput
                   (u32 (fileNum out + 1))
                   (files out ++ [(fileNum out, Bmp.ui_graphic buf)])
                   (listed out
                    ++ [Listed (fileNum out) imageId (word_at buf 0)
                               imageW imageH]))).
End Passes.

(** main: the exit status, the line main ends on if any, and the
    bitmaps and their list. *)
Definition main (fuel : nat) (argc : Z) (inFile : option archive)
           (filePos len : Z) (malloc : Z -> list byte)
           (can_write : Z -> bool) : io (Z * list objection * output) :=
  let nothing := mkOutput 0 [] [] in
  if negb (argc =? 2) then ret (-1, [NoArguments], nothing)
  else
    match inFile with
    | None => ret (-1, [NoInput], nothing)
    | Some inFile =>
      read <- fseek inFile ROOTDIRPTRLOC ;;
      if negb (read =? 0) then
        printf MsgSeekBeyond ;; ret (-1, [], nothing)
      else
        '(read, w) <- fread inFile 4 1 ;;
        if negb (read =? 1) then ret (0, [NoRoot], nothing)
        else
          let rootDirPtr := word_at w 0 in
          r <- rounds (Z.to_nat 65536) 0
                      (texture_round fuel inFile rootDirPtr malloc can_write)
                      filePos len nothing ;;
          match r with
          | Return code said out => ret (code, said, out)
          | Go filePos len out =>
            r <- rounds (Z.to_nat 65536) 0
                        (ui_round fuel inFile rootDirPtr malloc can_write)
                        filePos len out ;;
            match r with
            | Return code said out => ret (code, said, out)
            | Go _ _ out => ret (0, [], out)
            end
          end
    end.
End AcbmpMain.

(** The bitmaps written so far are numbered from 0 in the order in
    which they were written, the counter is their number, there are
    at most [bound] of them, and the list names each of them once, in
    the same order. *)
Definition listed_number (l : listing) : Z :=
  match l with Listed n _ _ _ _ => n end.

Definition numbered (bound : Z) (out : output) : Prop :=
  Z.of_nat (length (files out)) <= bound /\
  fileNum out = Z.of_nat (length (files out)) /\
  map fst (files out) = map Z.of_nat (seq 0 (length (files out))) /\
  map listed_number (listed out) = map fst (files out).

(** Archives with the directory of [portal_example] and records
    for its entries, each sector of 256 words: a texture of another
    type at 4096, a palette in the two sectors at 5120 and 9216, a
    texture at 6144, a record at 7168 and a UI graphic at 8192. *)
Definition record_sector (next : Z) (data : list byte) : list byte :=
  word_bytes next ++ data ++ repeat x00 (1020 - length data).

Definition square_texture : list byte :=
  bytes_of_words [0x05000001; 2; 2; 2]
  ++ [x00; x01; x02; x03]
  ++ bytes_of_words [0x04000001].

Definition bump_map : list byte :=
  bytes_of_words [0x05000002; 4; 1; 1; 0].

Definition palette : list byte :=
  repeat x00 8
  ++ flat_map (fun k => [byte_of (Z.of_nat k); byte_of (Z.of_nat k + 100);
                         byte_of (Z.of_nat k + 200); x00])
              (seq 0 256).

Definition graphics_records (texture : list byte) : list byte :=
  record_sector 0 bump_map
  ++ record_sector 9216 (firstn 1020 palette)
  ++ record_sector 0 texture
  ++ record_sector 0 []
  ++ record_sector 0 two_by_two
  ++ record_sector 0 (skipn 1020 palette).

Definition graphics_with (texture : list byte) : archive :=
  mkArchive (contents portal_example ++ graphics_records texture) long_seek.

Definition graphics_archive : archive := graphics_with square_texture.

(** The same with the texture of one point at 6144, after whose
    index byte the pass does not find the id of the palette. *)
Definition graphics_without_palette : archive :=
  graphics_with one_pixel_texture.

(** Every bitmap opens. *)
Definition writable (fileNum : Z) : bool := true.

(** A record read into a block of its own length holds what the
    passes read from it: a texture its header, an index for each
    point and, after the indices, the word taken for the id of the
    palette; a palette its eight bytes of header and 256 entries of
    four bytes; a UI graphic its three words of header and three
    bytes for each point. *)
Definition texture_whole (buf : list byte) : Prop :=
  Acbmp.imageW buf * Acbmp.imageH buf < 0x100000000 /\
  4 * Acbmp.palPtrs_index (Acbmp.imageW buf) (Acbmp.imageH buf) + 4
  <= Z.of_nat (length buf).

Definition palette_whole (pal : list byte) : Prop :=
  8 + 4 * 256 <= Z.of_nat (length pal).

Definition ui_whole (buf : list byte) : Prop :=
  12 + 3 * (word_at buf 1 * word_at buf 2) <= Z.of_nat (length buf).

(** At [o] is stored a record of [L] bytes: a closed chain of
    sectors that hold at least [L] bytes. *)
Definition record_at (SECSIZE : Z) (inFile : archive) (o L : Z)
           (secs : list (list byte)) : Prop :=
  0 <= L /\ secs <> [] /\
  chain_at SECSIZE inFile o secs /\
  L <= Z.of_nat (length secs) * payload_size SECSIZE.

(** The bytes of the record. *)
Definition record_bytes (L : Z) (secs : list (list byte)) : list byte :=
  firstn (Z.to_nat L) (concat (map payload secs)).

(** What a round of a pass leaves of the numbering when it started
    with at most [bound] bitmaps: at most one more, and if main
    returns from the round, it returns -1. *)
Definition round_keeps (bound : Z) (o : outcome flow) : Prop :=
  match o with
  | Done _ (Go _ _ out) => numbered (bound + 1) out
  | Done _ (Return code _ out) => numbered (bound + 1) out /\ code = -1
  | Aborted _ => False
  | OutOfFuel _ => True
  end.

(** ** mapac.c: what a landblock changes on the map *)

(** The cells of the map that landblock [(X, Y)] covers. *)
Definition in_window (X Y r c : Z) : Prop :=
  2041 - 8 * Y - 9 <= r <= 2041 - 8 * Y - 1 /\
  8 * X <= c <= 8 * X + 8.

(** What the sector [sec] holds for the point in column [x] and row
    [y] of its landblock. *)
Definition landblock_sample (sec : list byte) (x y : Z) : Mapac.landData :=
  Mapac.mkLand (Mapac.typeData sec (x * 9 + y)) (Mapac.zData sec (x * 9 + y)) 1.

(** The line that the point [(x, y)] of landblock [(X, Y)] draws
    from writeLandData when the map is [land]: none unless the cell
    is in use and holds another type or height. *)
Definition change_line (sec : list byte) (X Y : Z) (land : Mapac.landmap)
           (x y : Z) : list message :=
  let row := 2041 - 8 * Y - 1 - y in
  let col := 8 * X + x in
  let old := land row col in
  let new := landblock_sample sec x y in
  if negb (Mapac.used old =? 0)
     && (negb (Mapac.type old =? Mapac.type new)
         || negb (Mapac.z old =? Mapac.z new))
  then [MsgChanged col row (Mapac.type old) (Mapac.z old)
                   (Mapac.type new) (Mapac.z new)]
  else [].

(** The lines of a landblock: column after column, each from row 0
    to row 8 of the landblock. *)
Definition column_lines (sec : list byte) (X Y : Z) (land : Mapac.landmap)
           (x : Z) (rows : nat) : list message :=
  flat_map (fun y => change_line sec X Y land x (Z.of_nat y)) (seq 0 rows).

Definition change_lines (sec : list byte) (X Y : Z) (land : Mapac.landmap)
           (columns : nat) : list message :=
  flat_map (fun x => column_lines sec X Y land (Z.of_nat x) 9) (seq 0 columns).

(** A map every cell of which is in use with type 7 and height 9. *)
Definition settled_map : Mapac.landmap := fun _ _ => Mapac.mkLand 7 9 1.

(** ** mapac.c: the landblocks of a directory *)

(** An entry whose id ends in FFFF names a landblock; ReadDir asks
    that its length is 252 and that neither of the two upper bytes
    of its id is FF, and reads one sector at its offset.  The block
    indices it hands to writeLandData are the two upper bytes of that
    sector's own second word, which no assert looks at: the samples
    stay inside the map of 2041 by 2041 points when both are below
    255. *)
Definition is_landblock (e : entry) : bool :=
  Z.land (key e) 0x0000FFFF =? 0x0000FFFF.

Definition landblock_ok (inFile : archive) (e : entry) : Prop :=
  snd e = 252 /\
  Z.land (key e) 0xFF000000 <> 0xFF000000 /\
  Z.land (key e) 0x00FF0000 <> 0x00FF0000 /\
  exists sec,
    sector_at Mapac.CELLSECSIZE inFile (snd (fst e)) sec /\
    Mapac.blockX_of (word_at sec 1) < 255 /\
    Mapac.blockY_of (word_at sec 1) < 255.

(** [for (i = from; ...; i++) st = f i st], run [n] times, for a
    body that prints at most. *)
Fixpoint upto {St : Type} (n : nat) (i : Z) (f : Z -> St -> St) (st : St)
  : St :=
  match n with
  | O => st
  | S n' => upto n' (i + 1) f (f i st)
  end.

(** The map that write_point and writeLandData leave, the lines they
    print aside. *)
Definition plot_point (sec : list byte) (startX startY x y : Z)
           (land : Mapac.landmap) : Mapac.landmap :=
  Mapac.land_set land (u32 (startY - y)) (u32 (startX + x))
                 (Mapac.mkLand (Mapac.typeData sec (x * 9 + y))
                               (Mapac.zData sec (x * 9 + y)) 1).

Definition plotted (sec : list byte) (blockX blockY : Z)
           (land : Mapac.landmap) : Mapac.landmap :=
  let startX := u32 (blockX * 8) in
  let startY := u32 (Mapac.LANDSIZE - blockY * 8 - 1) in
  upto 9 0 (fun x land => upto 9 0 (plot_point sec startX startY x) land) land.

(** The map after ReadDir has dealt with the landblock entry [e]. *)
Definition stamp (inFile : archive) (land : Mapac.landmap) (e : entry)
  : Mapac.landmap :=
  let sec := sector_bytes Mapac.CELLSECSIZE inFile (snd (fst e)) in
  plotted sec (Mapac.blockX_of (word_at sec 1))
          (Mapac.blockY_of (word_at sec 1)) land.

(** The points of [landData land[LANDSIZE][LANDSIZE]]. *)
Definition on_map (r c : Z) : Prop :=
  0 <= r < Mapac.LANDSIZE /\ 0 <= c < Mapac.LANDSIZE.

(** ** mapac.c: the map file and main *)

Module MapFile.
(** The four bytes of a [landData]: the type, low byte first, the
    height and the flag. *)
Definition cell_bytes (d : Mapac.landData) : list byte :=
  [byte_of (Mapac.type d); byte_of (Mapac.type d / 256);
   byte_of (Mapac.z d); byte_of (Mapac.used d)].

(** [fwrite(land, sizeof(landData), side * side, mapFile)] for the
    array [land[side][side]]. *)
Definition map_bytes (side : Z) (land : Mapac.landmap) : list byte :=
  flat_map (fun k => cell_bytes (land (Z.of_nat k / side) (Z.of_nat k mod side)))
           (seq 0 (Z.to_nat (side * side))).

(** [fread(land, sizeof(landData), side * side, mapFile)] into the
    array, which the start of the program has filled with zeros:
    what the file does not reach stays zero. *)
Definition map_of_bytes (side : Z) (bs : list byte) : Mapac.landmap :=
  fun r c =>
    let k := Z.to_nat (4 * (r * side + c)) in
    Mapac.mkLand (le16 (nth k bs x00) (nth (k + 1) bs x00))
                 (byte_val (nth (k + 2) bs x00))
                 (byte_val (nth (k + 3) bs x00)).
End MapFile.

(** What a run of mapac leaves: the exit status, the total it
    prints if it gets that far, and the bytes of the map file if it
    writes it. *)
Record map_run := mkMapRun {
  map_status : Z;
  map_total : option Z;
  map_written : option (list byte)
}.

(** main of mapac.c.  [newmap] says whether [argv[1]] is NEWMAP,
    [mapFile] is the map file if it opens for reading, [cellFile] the
    archive if it opens, [can_write] whether the map file opens for
    writing, [junk] what the stack holds under the local array of
    ReadDir.  The array [land] is static: it holds zeros when main
    starts.  The loops that count the land types change nothing
    that main writes or prints. *)
Module MapacMain.
(** The two loops of the NEWMAP branch, over the rows [y] and the
    columns [x] of the array. *)
Definition zero_fill (land : Mapac.landmap) : Mapac.landmap :=
  upto (Z.to_nat Mapac.LANDSIZE) 0
       (fun y land =>
          upto (Z.to_nat Mapac.LANDSIZE) 0
               (fun x land => Mapac.land_set land y x (Mapac.mkLand 0 0 0))
               land)
       land.

Definition main (fuel : nat) (argc : Z) (newmap : bool)
           (mapFile : option (list byte)) (cellFile : option archive)
           (junk : list byte) (can_write : bool) : io map_run :=
  if negb (argc =? 3) then ret (mkMapRun (-1) None None)
  else if newmap then
    if negb can_write then ret (mkMapRun (-1) None None)
    else
      ret (mkMapRun 0 None
             (Some (MapFile.map_bytes Mapac.LANDSIZE
                      (zero_fill Mapac.blank))))
  else
    match mapFile with
    | None => ret (mkMapRun (-1) None None)
    | Some bytes =>
      let land := MapFile.map_of_bytes Mapac.LANDSIZE bytes in
      match cellFile with
      | None => ret (mkMapRun (-1) None None)
      | Some cellFile =>
        r <- fseek cellFile ROOTDIRPTRLOC ;;
        assert (r =? 0) ;;
        '(n, w) <- fread cellFile 4 1 ;;
        assert (n =? 1) ;;
        let cellDirPtr := word_at w 0 in
        '(found, land) <- Mapac.ReadDir fuel cellFile junk cellDirPtr land ;;
        if negb can_write then ret (mkMapRun (-1) (Some found) None)
        else
          ret (mkMapRun 0 (Some found)
                 (Some (MapFile.map_bytes Mapac.LANDSIZE land)))
      end
    end.
End MapacMain.

(** The fields of a cell fit their types. *)
Definition cell_fits (d : Mapac.landData) : Prop :=
  0 <= Mapac.type d < 0x10000 /\
  0 <= Mapac.z d < 0x100 /\
  0 <= Mapac.used d < 0x100.

(** A CELL-class directory of one node, in the two sectors at 1024
    and 2304, whose one entry names no landblock. *)
Definition lone_directory : archive :=
  mkArchive (header 1024
             ++ cell_head 2304 [] 1
             ++ repeat x00 1024
             ++ cell_tail 0 [(0x8000FFFE, 3072, 8)])
            long_seek.

(** A map file of the full size. *)
Definition zero_map_file : list byte :=
  repeat x00 (Z.to_nat (4 * (Mapac.LANDSIZE * Mapac.LANDSIZE))).

(** * Proofs *)

Ltac by_computation :=
  vm_compute; repeat split; try congruence; auto.

(** ** The monad *)

Lemma bind_done {A B} (m : io A) (k : A -> io B) s s' a :
  m s = Done s' a -> bind m k s = k a s'.
Proof. unfold bind; intros ->; reflexivity. Qed.

Lemma done_eq {A} (s : stream) (r : Z) (x y : A) :
  x = y -> Done s (r, x) = Done s (r, y).
Proof. now intros ->. Qed.

(** ** Lists *)

Lemma splice_nil {A} (dst : list A) off : splice dst off [] = dst.
Proof.
  unfold splice; simpl. rewrite Nat.add_0_r. apply firstn_skipn.
Qed.

Lemma splice_length {A} (dst data : list A) off :
  (off <= length dst)%nat ->
  (off + length data <= length (splice dst off data))%nat.
Proof.
  intros H. unfold splice. rewrite !length_app, firstn_length_le by lia. lia.
Qed.

Lemma splice_splice {A} (dst a b : list A) off :
  (off <= length dst)%nat ->
  splice (splice dst off a) (off + length a) b = splice dst off (a ++ b).
Proof.
  intros H. unfold splice at 1 3.
  assert (E : splice dst off a = (firstn off dst ++ a) ++ skipn (off + length a) dst)
    by (unfold splice; now rewrite app_assoc).
  assert (L : length (firstn off dst ++ a) = (off + length a)%nat)
    by (rewrite length_app, firstn_length_le by lia; lia).
  rewrite E.
  rewrite firstn_app, L, Nat.sub_diag. simpl. rewrite app_nil_r.
  rewrite firstn_all2 by lia.
  rewrite skipn_app, L.
  rewrite (skipn_all2 (firstn off dst ++ a)) by lia. simpl.
  replace (off + length a + length b - (off + length a))%nat with (length b) by lia.
  rewrite skipn_skipn, length_app.
  replace (length b + (off + length a))%nat with (off + (length a + length b))%nat by lia.
  now rewrite <- !app_assoc.
Qed.

(** ** Reading a sector *)

Section Sectors.
Variable SECSIZE : Z.
Variable inFile : archive.
Hypothesis SECSIZE_pos : 1 <= SECSIZE.

Lemma sector_at_fits pos sec :
  sector_at SECSIZE inFile pos sec ->
  4 * SECSIZE <= Z.of_nat (length (contents inFile)) - pos.
Proof.
  intros (_ & Hpos & Hlen & Hsec).
  rewrite <- Hsec in Hlen.
  rewrite length_firstn, length_skipn in Hlen. lia.
Qed.

Lemma fseek_sector pos sec s :
  sector_at SECSIZE inFile pos sec ->
  fseek inFile pos s = Done (mkStream pos (seeks s ++ [pos]) (console s)) 0.
Proof. intros (Hseek & _). unfold fseek. now rewrite Hseek. Qed.

Lemma fread_sector pos sec sk co :
  sector_at SECSIZE inFile pos sec ->
  fread inFile 4 SECSIZE (mkStream pos sk co)
  = Done (mkStream (pos + SECSIZE * 4) sk co) (SECSIZE, sec).
Proof.
  intros H. pose proof (sector_at_fits _ _ H) as Hfit.
  destruct H as (_ & Hpos & Hlen & Hsec).
  unfold fread; simpl.
  assert (Hcnt : Z.min SECSIZE
                   (Z.max 0 (Z.of_nat (length (contents inFile)) - pos) / 4)
                 = SECSIZE).
  { apply Z.min_l. apply Z.div_le_lower_bound; lia. }
  rewrite Hcnt. replace (SECSIZE * 4) with (4 * SECSIZE) by lia.
  rewrite Hsec, Z.min_l by lia. reflexivity.
Qed.

Lemma payload_length pos sec :
  sector_at SECSIZE inFile pos sec ->
  length (payload sec) = Z.to_nat (payload_size SECSIZE).
Proof.
  intros (_ & _ & Hlen & _). unfold payload, payload_size.
  rewrite length_skipn, Hlen. lia.
Qed.

Lemma chain_at_payloads pos secs :
  chain_at SECSIZE inFile pos secs ->
  length (concat (map payload secs))
  = (length secs * Z.to_nat (payload_size SECSIZE))%nat.
Proof.
  revert pos; induction secs as [|sec rest IH]; intros pos H; simpl in *.
  - reflexivity.
  - destruct H as (_ & Hsec & Hrest).
    rewrite length_app, (payload_length _ _ Hsec), (IH _ Hrest). lia.
Qed.

(** *** FetchFile along a chain *)

Lemma FetchFile_loop_chain secs :
  forall fuel pos len buf off s,
    secs <> [] ->
    chain_at SECSIZE inFile pos secs ->
    (length secs <= fuel)%nat ->
    0 <= len -> 0 <= off ->
    (Z.to_nat off <= length buf)%nat ->
    exists p,
      FetchFile_loop SECSIZE fuel inFile pos len buf off s
      = Done (mkStream p (seeks s ++ chain_offsets pos secs) (console s))
             (1, splice buf (Z.to_nat off)
                        (firstn (Z.to_nat len) (concat (map payload secs)))).
Proof.
  induction secs as [|sec rest IH]; intros fuel pos len buf off s Hne Hch Hfuel Hlen Hoff Hbuf.
  - congruence.
  - destruct Hch as (Hpos & Hsec & Hrest).
    destruct fuel as [|fuel]; [simpl in Hfuel; lia|].
    pose proof (payload_length _ _ Hsec) as Hpl.
    assert (HP : 0 <= payload_size SECSIZE) by (unfold payload_size; lia).
    cbn [FetchFile_loop].
    rewrite (bind_done _ _ _ _ _ (fseek_sector _ _ s Hsec)).
    cbn [Z.eqb negb].
    rewrite (bind_done _ _ _ _ _ (fread_sector _ _ _ _ Hsec)).
    rewrite Z.eqb_refl. cbn [negb].
    fold (low31 (word_at sec 0)). fold (payload sec). fold (payload_size SECSIZE).
    cbn [map concat chain_offsets].
    destruct rest as [|sec2 rest'].
    + simpl in Hrest. rewrite Hrest. cbn [Z.eqb].
      cbn [map concat]. rewrite app_nil_r.
      destruct (len >? payload_size SECSIZE) eqn:Hgt; unfold ret, memcpy.
      * rewrite Z.gtb_lt in Hgt.
        rewrite (firstn_all2 (n := Z.to_nat (payload_size SECSIZE)))
          by (rewrite Hpl; lia).
        rewrite (firstn_all2 (n := Z.to_nat len)) by (rewrite Hpl; lia).
        eexists; reflexivity.
      * eexists; reflexivity.
    + assert (Hnz : low31 (word_at sec 0) <> 0) by (simpl in Hrest; tauto).
      apply Z.eqb_neq in Hnz. rewrite Hnz.
      assert (Hfuel' : (length (sec2 :: rest') <= fuel)%nat) by (simpl in *; lia).
      destruct (len >? payload_size SECSIZE) eqn:Hgt.
      * rewrite Z.gtb_lt in Hgt.
        edestruct (IH fuel (low31 (word_at sec 0)) (len - payload_size SECSIZE)
                      (memcpy buf off (payload sec) (payload_size SECSIZE))
                      (off + payload_size SECSIZE)
                      (mkStream (pos + SECSIZE * 4) (seeks s ++ [pos]) (console s)))
          as (p & Hp); try discriminate; auto; try lia.
        { unfold memcpy. rewrite firstn_all2 by (rewrite Hpl; lia).
          pose proof (splice_length buf (payload sec) (Z.to_nat off) Hbuf).
          rewrite Hpl in H. lia. }
        rewrite Hp. exists p. cbn [seeks console].
        rewrite <- app_assoc. cbn [app]. apply done_eq.
        unfold memcpy. rewrite (firstn_all2 (n := Z.to_nat (payload_size SECSIZE))) by (rewrite Hpl; lia).
        replace (Z.to_nat (off + payload_size SECSIZE))
          with (Z.to_nat off + length (payload sec))%nat
          by (rewrite Hpl; lia).
        rewrite splice_splice by assumption. f_equal.
        rewrite firstn_app, Hpl.
        rewrite (firstn_all2 (n := Z.to_nat len)) by (rewrite Hpl; lia).
        do 2 f_equal. lia.
      * assert (Hle : len <= payload_size SECSIZE)
          by (destruct (Z.gtb_spec len (payload_size SECSIZE)); [discriminate | lia]).
        edestruct (IH fuel (low31 (word_at sec 0)) 0
                      (memcpy buf off (payload sec) len) off
                      (mkStream (pos + SECSIZE * 4) (seeks s ++ [pos]) (console s)))
          as (p & Hp); try discriminate; auto; try lia.
        { unfold memcpy.
          pose proof (splice_length buf (firstn (Z.to_nat len) (payload sec)) (Z.to_nat off) Hbuf).
          lia. }
        rewrite Hp. exists p. cbn [seeks console].
        rewrite <- app_assoc. cbn [app]. apply done_eq.
        change (Z.to_nat 0) with 0%nat. cbn [firstn]. rewrite splice_nil.
        unfold memcpy. f_equal.
        rewrite firstn_app.
        replace (Z.to_nat len - length (payload sec))%nat with 0%nat by (rewrite Hpl; lia).
        cbn [firstn]. now rewrite app_nil_r.
Qed.
End Sectors.

(** ** Records *)

Lemma sectors_cover SECSIZE L k :
  2 <= SECSIZE -> 0 <= L ->
  sectors_needed SECSIZE L <= k ->
  L <= k * payload_size SECSIZE.
Proof.
  unfold sectors_needed. intros HS HL Hk.
  assert (HP : 0 < payload_size SECSIZE) by (unfold payload_size; lia).
  pose proof (Z.div_mod (L + payload_size SECSIZE - 1) (payload_size SECSIZE)).
  pose proof (Z.mod_pos_bound (L + payload_size SECSIZE - 1) (payload_size SECSIZE) HP).
  nia.
Qed.

(** C2, as the code has it.  For a record of [L >= 0] bytes stored in
    a chain of [max 1 (ceil (L / (sector_size - 4)))] sectors closed
    by a null next offset, FetchFile returns 1 and leaves in the
    caller's block of [L] bytes exactly the payloads of the sectors,
    in order, cut to [L] bytes; it prints nothing and seeks to the
    sectors of the chain, one after the other.  A record of no bytes
    still takes one sector: its block comes back empty. *)
Theorem FetchFile_chain_fidelity :
  forall SECSIZE inFile fuel pos L secs buf s,
    2 <= SECSIZE -> 0 <= L ->
    Z.of_nat (length secs) = Z.max 1 (sectors_needed SECSIZE L) ->
    chain_at SECSIZE inFile pos secs ->
    length buf = Z.to_nat L ->
    (length secs <= fuel)%nat ->
    exists p,
      FetchFile SECSIZE fuel inFile pos L buf s
      = Done (mkStream p (seeks s ++ chain_offsets pos secs) (console s))
             (1, firstn (Z.to_nat L) (concat (map payload secs))).
Proof.
  intros SECSIZE inFile fuel pos L secs buf s HS HL Hk Hch Hbuf Hfuel.
  assert (Hne : secs <> []) by (destruct secs; [simpl in Hk; lia | discriminate]).
  assert (Hpos : pos <> 0) by (destruct secs; [congruence | simpl in Hch; tauto]).
  unfold FetchFile. apply Z.eqb_neq in Hpos. rewrite Hpos.
  destruct (FetchFile_loop_chain SECSIZE inFile ltac:(lia) secs fuel pos L buf 0 s)
    as (p & Hp); auto; try lia.
  exists p. rewrite Hp. apply done_eq.
  pose proof (chain_at_payloads SECSIZE inFile ltac:(lia) pos secs Hch) as Hlen.
  pose proof (sectors_cover SECSIZE L (Z.of_nat (length secs)) HS HL ltac:(lia)) as Hcov.
  assert (HP : 0 <= payload_size SECSIZE) by (unfold payload_size; lia).
  unfold splice. change (Z.to_nat 0) with 0%nat. cbn [firstn app Nat.add].
  rewrite skipn_all2, app_nil_r; [reflexivity|].
  rewrite length_firstn, Hlen, Hbuf. nia.
Qed.

Lemma FetchFile_chain_fidelity_witness :
  exists p,
    FetchFile 64 2 two_sector_archive 1024 300 (repeat x00 300) fresh
    = Done (mkStream p [1024; 1280] [])
           (1, repeat x11 252 ++ repeat x22 48).
Proof.
  destruct (FetchFile_chain_fidelity 64 two_sector_archive 2 1024 300
              [filled_sector 64 0x80000500 x11; filled_sector 64 0 x22]
              (repeat x00 300) fresh) as (p & Hp).
  - lia.
  - lia.
  - reflexivity.
  - vm_compute. repeat split; congruence.
  - reflexivity.
  - simpl; lia.
  - exists p. rewrite Hp. reflexivity.
Defined.

(** C2 as written fails for the record of no bytes: its chain of
    [ceil (0 / (sector_size - 4)) = 0] sectors is the null offset, and
    FetchFile refuses a null start offset.  Started instead at the
    end of the sectors, where there is none, it fails on the read. *)
Lemma FetchFile_empty_chain_counterexample :
  Z.of_nat (length (@nil (list byte))) = sectors_needed 64 0 /\
  chain_at 64 one_sector_archive 0 [] /\
  FetchFile 64 1 one_sector_archive 0 0 [] fresh
  = Done (mkStream 0 [] [MsgNullFile]) (0, []) /\
  FetchFile 64 1 one_sector_archive 1280 0 [] fresh
  = Done (mkStream 1280 [1280] [MsgShortSector]) (0, []).
Proof. by_computation. Qed.

(** C4, as the code has it.  When the chain closes (next offset 0)
    after [k >= 1] sectors that hold fewer than [L] bytes, FetchFile
    still returns 1 and prints nothing: the block starts with the
    payloads of the [k] sectors and keeps what it held from there
    on. *)
Theorem FetchFile_short_chain :
  forall SECSIZE inFile fuel pos L secs buf s,
    2 <= SECSIZE ->
    secs <> [] ->
    chain_at SECSIZE inFile pos secs ->
    Z.of_nat (length secs) * payload_size SECSIZE < L ->
    length buf = Z.to_nat L ->
    (length secs <= fuel)%nat ->
    exists p,
      FetchFile SECSIZE fuel inFile pos L buf s
      = Done (mkStream p (seeks s ++ chain_offsets pos secs) (console s))
             (1, concat (map payload secs)
                 ++ skipn (length secs * Z.to_nat (payload_size SECSIZE)) buf).
Proof.
  intros SECSIZE inFile fuel pos L secs buf s HS Hne Hch Hk Hbuf Hfuel.
  assert (Hpos : pos <> 0) by (destruct secs; [congruence | simpl in Hch; tauto]).
  assert (HP : 0 <= payload_size SECSIZE) by (unfold payload_size; lia).
  unfold FetchFile. apply Z.eqb_neq in Hpos. rewrite Hpos.
  destruct (FetchFile_loop_chain SECSIZE inFile ltac:(lia) secs fuel pos L buf 0 s)
    as (p & Hp); auto; try nia.
  exists p. rewrite Hp. apply done_eq.
  pose proof (chain_at_payloads SECSIZE inFile ltac:(lia) pos secs Hch) as Hlen.
  unfold splice. change (Z.to_nat 0) with 0%nat. cbn [firstn app Nat.add].
  rewrite firstn_all2 by (rewrite Hlen; nia).
  now rewrite Hlen.
Qed.

Lemma FetchFile_short_chain_witness :
  exists p,
    FetchFile 64 1 one_sector_archive 1024 300 (repeat xff 300) fresh
    = Done (mkStream p [1024] [])
           (1, repeat x11 252 ++ repeat xff 48).
Proof.
  destruct (FetchFile_short_chain 64 one_sector_archive 1 1024 300
              [filled_sector 64 0 x11] (repeat xff 300) fresh) as (p & Hp).
  - lia.
  - discriminate.
  - vm_compute. repeat split; congruence.
  - vm_compute. reflexivity.
  - reflexivity.
  - simpl; lia.
  - exists p. rewrite Hp. reflexivity.
Defined.

(** C4 as written fails: one sector of 252 payload bytes closes the
    chain of a record declared 300 bytes long, and FetchFile returns
    1, having printed nothing, with the last 48 bytes of the block
    untouched. *)
Lemma FetchFile_early_null_counterexample :
  chain_at 64 one_sector_archive 1024 [filled_sector 64 0 x11] /\
  low31 (word_at (filled_sector 64 0 x11) 0) = 0 /\
  payload_size 64 < 300 /\
  FetchFile 64 1 one_sector_archive 1024 300 (repeat xff 300) fresh
  = Done (mkStream 1280 [1024] [])
         (1, repeat x11 252 ++ repeat xff 48).
Proof.
  split; [vm_compute; repeat split; congruence|].
  repeat split.
Qed.

(** ** The offsets FetchFile seeks to *)

Lemma low31_clear w : high_bit_clear (low31 w).
Proof.
  unfold high_bit_clear, low31.
  change 0x7FFFFFFF with (Z.ones 31).
  rewrite Z.land_ones by lia.
  change 0x80000000 with (2 ^ 31).
  apply Z.mod_pos_bound. lia.
Qed.

Lemma FetchFile_loop_seeks SECSIZE inFile fuel :
  forall pos len buf off s,
    let o := FetchFile_loop SECSIZE fuel inFile pos len buf off s in
    seeks (final o) = seeks s \/
    exists l, seeks (final o) = seeks s ++ pos :: l
              /\ Forall high_bit_clear l
              /\ masked_links SECSIZE inFile pos l.
Proof.
  induction fuel as [|fuel IH]; intros pos len buf off s o; subst o.
  - left; reflexivity.
  - right. cbn [FetchFile_loop]. unfold bind at 1. unfold fseek.
    destruct (seekable inFile pos);
      [|exists []; split; [reflexivity | split; constructor]].
    cbn [Z.eqb negb]. unfold bind at 1. unfold fread. cbn [fpos seeks console].
    set (cnt := Z.min SECSIZE
                  (Z.max 0 (Z.of_nat (length (contents inFile)) - pos) / 4)).
    destruct (Z.eqb_spec cnt SECSIZE) as [E | E]; cbn [negb];
      [|exists []; split; [reflexivity | split; constructor]].
    clearbody cnt. subst cnt.
    fold (sector_bytes SECSIZE inFile pos).
    set (sec := sector_bytes SECSIZE inFile pos).
    fold (low31 (word_at sec 0)).
    assert (Hnext : forall p len' buf' off',
               exists l,
                 seeks (final ((if low31 (word_at sec 0) =? 0
                                then ret (1, buf')
                                else FetchFile_loop SECSIZE fuel inFile
                                       (low31 (word_at sec 0)) len' buf' off')
                          (mkStream p (seeks s ++ [pos]) (console s))))
                 = seeks s ++ pos :: l
                 /\ Forall high_bit_clear l
                 /\ masked_links SECSIZE inFile pos l).
    { intros p len' buf' off'.
      destruct (low31 (word_at sec 0) =? 0).
      - exists []. split; [reflexivity | split; constructor].
      - destruct (IH (low31 (word_at sec 0)) len' buf' off'
                     (mkStream p (seeks s ++ [pos]) (console s)))
          as [H | (l & H & Hl & Hm)]; cbn [seeks] in H; rewrite H.
        + exists []. split; [reflexivity | split; constructor].
        + exists (low31 (word_at sec 0) :: l).
          rewrite <- app_assoc. split; [reflexivity|]. split.
          * constructor; [apply low31_clear | assumption].
          * split; [reflexivity | exact Hm]. }
    destruct (len >? (SECSIZE - 1) * 4); apply Hnext.
Qed.

(** C6, as the code has it.  Of the offsets FetchFile seeks to, the
    first is the caller's start offset and every later one is the
    first word of the sector read just before, masked to its low 31
    bits, so that it is free of bit 31, whatever the archive holds and
    however the run ends. *)
Theorem FetchFile_seeks_masked :
  forall SECSIZE inFile fuel filePos len buf s,
    let o := FetchFile SECSIZE fuel inFile filePos len buf s in
    seeks (final o) = seeks s \/
    exists l, seeks (final o) = seeks s ++ filePos :: l
              /\ Forall high_bit_clear l
              /\ masked_links SECSIZE inFile filePos l.
Proof.
  intros SECSIZE inFile fuel filePos len buf s o; subst o.
  unfold FetchFile. destruct (filePos =? 0).
  - left; reflexivity.
  - apply FetchFile_loop_seeks.
Qed.

(** ** Searching a node *)

Lemma byte_val_nonneg b : 0 <= byte_val b.
Proof. unfold byte_val. apply N2Z.is_nonneg. Qed.

Lemma word_at_nonneg mem i : 0 <= word_at mem i.
Proof.
  unfold word_at, le32.
  repeat match goal with
         | |- context [byte_val ?b] =>
           lazymatch goal with
           | _ : 0 <= byte_val b |- _ => fail
           | _ => pose proof (byte_val_nonneg b)
           end
         end.
  lia.
Qed.

Lemma scan_spec dir id N :
  forall n i,
    0 <= i -> i + Z.of_nat n = N ->
    let r := scan n dir id N i in
    i <= r <= N /\
    (forall j, i <= j < r -> key (dir_entry dir j) < id) /\
    (r = N \/ id <= key (dir_entry dir r)).
Proof.
  induction n as [|n IH]; intros i Hi HN; cbn [scan].
  - cbv zeta. repeat split; lia.
  - destruct (i <? N) eqn:Hlt; cbn [andb].
    + apply Z.ltb_lt in Hlt.
      destruct (id >? word_at dir (i * 3 + NUMFILELOC + 1)) eqn:Hgt.
      * apply Z.gtb_lt in Hgt.
        destruct (IH (i + 1)) as (Hr & Hbelow & Hstop); try lia.
        cbv zeta. repeat split; try lia; auto.
        intros j Hj. destruct (Z.eq_dec j i) as [->|Hne].
        -- exact Hgt.
        -- apply Hbelow. lia.
      * cbv zeta. repeat split; try lia.
        right. unfold dir_entry, key; cbn [fst].
        destruct (Z.gtb_spec id (word_at dir (i * 3 + NUMFILELOC + 1))); [discriminate | lia].
    + apply Z.ltb_ge in Hlt. cbv zeta. repeat split; try lia.
Qed.

Lemma scan_index_spec dir id :
  let r := scan_index dir id in
  0 <= r <= numFiles_of dir /\
  (forall j, 0 <= j < r -> key (dir_entry dir j) < id) /\
  (r = numFiles_of dir \/ id <= key (dir_entry dir r)).
Proof.
  apply scan_spec; [lia|].
  pose proof (word_at_nonneg dir NUMFILELOC). unfold numFiles_of. lia.
Qed.

Lemma search_node_eq dir id :
  numFiles_of dir < NUMFILELOC ->
  search_node dir id
  = let r := scan_index dir id in
    if (r <? numFiles_of dir) && (id =? key (dir_entry dir r))
    then Hit (snd (fst (dir_entry dir r))) (snd (dir_entry dir r))
    else if dir_child dir 0 =? 0 then Miss
         else Descend (dir_child dir r).
Proof.
  intros HN. unfold search_node. fold (numFiles_of dir).
  destruct (Z.geb_spec (numFiles_of dir) NUMFILELOC); [lia|].
  reflexivity.
Qed.

(** ** Fences *)

Lemma fenced_step dir lo hi :
  fenced dir lo hi = true ->
  forall j, -1 <= j < numFiles_of dir ->
            fence dir lo hi j < fence dir lo hi (j + 1).
Proof.
  unfold fenced. intros H j Hj.
  rewrite forallb_forall in H.
  specialize (H (Z.to_nat (j + 1))).
  rewrite in_seq in H.
  replace (Z.of_nat (Z.to_nat (j + 1)) - 1) with j in H by lia.
  replace (Z.of_nat (Z.to_nat (j + 1))) with (j + 1) in H by lia.
  apply Z.ltb_lt. apply H. lia.
Qed.

Lemma fenced_lt dir lo hi :
  fenced dir lo hi = true ->
  forall j k, -1 <= j -> j < k -> k <= numFiles_of dir ->
              fence dir lo hi j < fence dir lo hi k.
Proof.
  intros H j k Hj Hjk Hk.
  replace k with (j + 1 + Z.of_nat (Z.to_nat (k - j - 1))) in * by lia.
  induction (Z.to_nat (k - j - 1)) as [|d IH].
  - rewrite Z.add_0_r. apply fenced_step; auto. lia.
  - pose proof (fenced_step dir lo hi H (j + 1 + Z.of_nat d)) as Hs.
    replace (j + 1 + Z.of_nat (S d)) with (j + 1 + Z.of_nat d + 1) in * by lia.
    specialize (IH ltac:(lia) ltac:(lia)). lia.
Qed.

Lemma fence_key dir lo hi j :
  0 <= j < numFiles_of dir -> fence dir lo hi j = key (dir_entry dir j).
Proof.
  intros Hj. unfold fence.
  destruct (Z.ltb_spec j 0); [lia|].
  destruct (Z.ltb_spec j (numFiles_of dir)); [reflexivity | lia].
Qed.

Lemma fence_lo dir lo hi : fence dir lo hi (-1) = lo.
Proof. reflexivity. Qed.

Lemma fence_hi dir lo hi : 0 <= numFiles_of dir ->
  fence dir lo hi (numFiles_of dir) = hi.
Proof.
  intros H. unfold fence.
  destruct (Z.ltb_spec (numFiles_of dir) 0); [lia|].
  now rewrite Z.ltb_irrefl.
Qed.

(** ** The entries of a node and of a tree *)

Lemma numFiles_nonneg dir : 0 <= numFiles_of dir.
Proof. apply word_at_nonneg. Qed.

Lemma dir_entries_length dir :
  length (dir_entries dir) = Z.to_nat (numFiles_of dir).
Proof. unfold dir_entries. now rewrite length_map, length_seq. Qed.

Lemma In_dir_entries dir e :
  In e (dir_entries dir) <->
  exists j, 0 <= j < numFiles_of dir /\ e = dir_entry dir j.
Proof.
  unfold dir_entries. rewrite in_map_iff. split.
  - intros (n & <- & Hn). rewrite in_seq in Hn.
    exists (Z.of_nat n). split; [lia | reflexivity].
  - intros (j & Hj & ->). exists (Z.to_nat j). rewrite in_seq.
    split; [f_equal; lia | lia].
Qed.

Lemma In_inorder (x : entry) :
  forall subs es,
    length subs = S (length es) ->
    (In x (inorder subs es) <->
     In x es \/ exists j, (j < length subs)%nat /\ In x (nth j subs [])).
Proof.
  induction subs as [|sub subs IH]; intros es Hlen; [discriminate|].
  destruct es as [|e es]; cbn [inorder].
  - destruct subs; [|discriminate]. split.
    + intros H. right. exists 0%nat. split; [simpl; lia | exact H].
    + intros [[] | (j & Hj & H)].
      destruct j; [exact H | simpl in Hj; lia].
  - rewrite in_app_iff. cbn [In]. rewrite IH by (simpl in Hlen; lia). split.
    + intros [H | [H | [H | (j & Hj & H)]]]; auto.
      * right. exists 0%nat. split; [simpl; lia | exact H].
      * right. exists (S j). split; [simpl; lia | exact H].
    + intros [[H | H] | (j & Hj & H)]; auto.
      destruct j as [|j]; [left; exact H|].
      right; right; right. exists j. split; [simpl in Hj; lia | exact H].
Qed.

(** ** Descending the tree *)

Lemma fence_between dir lo hi j :
  fenced dir lo hi = true ->
  0 <= j < numFiles_of dir ->
  lo < key (dir_entry dir j) < hi.
Proof.
  intros Hf Hj.
  pose proof (fenced_lt dir lo hi Hf (-1) j ltac:(lia) ltac:(lia) ltac:(lia)) as H1.
  pose proof (fenced_lt dir lo hi Hf j (numFiles_of dir) ltac:(lia) ltac:(lia) ltac:(lia)) as H2.
  rewrite fence_lo in H1. rewrite fence_hi in H2 by lia.
  rewrite fence_key in H1, H2 by lia. lia.
Qed.

Lemma fence_within dir lo hi j :
  fenced dir lo hi = true ->
  0 <= j <= numFiles_of dir ->
  lo <= fence dir lo hi (j - 1) /\ fence dir lo hi j <= hi.
Proof.
  intros Hf Hj. split.
  - destruct (Z.eq_dec j 0) as [->|E];
      [change (0 - 1) with (-1); rewrite fence_lo; lia|].
    pose proof (fenced_lt dir lo hi Hf (-1) (j - 1) ltac:(lia) ltac:(lia) ltac:(lia)) as H1.
    rewrite fence_lo in H1. lia.
  - destruct (Z.eq_dec j (numFiles_of dir)) as [->|E]; [rewrite fence_hi; lia|].
    pose proof (fenced_lt dir lo hi Hf j (numFiles_of dir) ltac:(lia) ltac:(lia) ltac:(lia)) as H2.
    rewrite fence_hi in H2 by lia. lia.
Qed.

Section Bounds.
Variable node_at : Z -> list byte -> Prop.

Lemma tree_at_bounds h pos lo hi all :
  tree_at node_at h pos lo hi all ->
  forall e, In e all -> lo < key e < hi.
Proof.
  induction 1 as [h pos lo hi dir Hnode HN Hf Hleaf
                 |h pos lo hi dir subs Hnode HN Hf Hbr Hlen Hsub IH];
    intros e He.
  - apply In_dir_entries in He. destruct He as (j & Hj & ->).
    now apply fence_between.
  - apply In_inorder in He; [|rewrite dir_entries_length; exact Hlen].
    destruct He as [He | (j & Hj & He)].
    + apply In_dir_entries in He. destruct He as (j & Hj & ->).
      now apply fence_between.
    + pose proof (numFiles_nonneg dir) as H0.
      specialize (IH (Z.of_nat j) ltac:(lia) e).
      rewrite Nat2Z.id in IH. specialize (IH He).
      pose proof (fence_within dir lo hi (Z.of_nat j) Hf ltac:(lia)). lia.
Qed.
End Bounds.

Section Descent.
Variable X : Type.
Variable Inv : X -> Prop.
Variable node_at : Z -> list byte -> Prop.
Variables id filePos len : Z.
Variable loop : nat -> Z -> X -> io (Z * (Z * Z)).

(** One round of the loop on a stored node. *)
Hypothesis loop_step :
  forall fuel pos dir x s,
    Inv x -> node_at pos dir -> numFiles_of dir < NUMFILELOC ->
    exists x' s',
      Inv x' /\ console s' = console s /\
      loop (S fuel) pos x s
      = match search_node dir id with
        | TooMany => Done s' (0, (filePos, len))
        | Hit p l => Done s' (1, (p, l))
        | Miss => Done s' (0, (filePos, len))
        | Descend p => loop fuel p x' s'
        end.

(** An entry with the id sought can only be the one the scan
    stopped at. *)
Lemma hit_is_entry dir lo hi j :
  fenced dir lo hi = true ->
  0 <= j < numFiles_of dir ->
  key (dir_entry dir j) = id ->
  j = scan_index dir id.
Proof.
  intros Hf Hj Hk.
  destruct (scan_index_spec dir id) as (Hr & Hbelow & Hstop).
  set (r := scan_index dir id) in *.
  destruct (Z.lt_trichotomy j r) as [Hlt | [Heq | Hgt]]; auto.
  - specialize (Hbelow j ltac:(lia)). lia.
  - destruct Hstop as [Hstop | Hstop]; [lia|].
    pose proof (fenced_lt dir lo hi Hf r j ltac:(lia) Hgt ltac:(lia)) as Hlt.
    rewrite !fence_key in Hlt by lia. lia.
Qed.

(** An id fenced into child [j] sends the scan to [j]. *)
Lemma fenced_child dir lo hi j :
  fenced dir lo hi = true ->
  0 <= j <= numFiles_of dir ->
  fence dir lo hi (j - 1) < id < fence dir lo hi j ->
  j = scan_index dir id.
Proof.
  intros Hf Hj Hid.
  destruct (scan_index_spec dir id) as (Hr & Hbelow & Hstop).
  set (r := scan_index dir id) in *.
  destruct (Z.lt_trichotomy j r) as [Hlt | [Heq | Hgt]]; auto.
  - specialize (Hbelow j ltac:(lia)).
    rewrite (fence_key dir lo hi j) in Hid by lia. lia.
  - destruct Hstop as [Hstop | Hstop]; [lia|].
    assert (Hle : fence dir lo hi r <= fence dir lo hi (j - 1)).
    { destruct (Z.eq_dec r (j - 1)) as [->|Hne]; [lia|].
      apply Z.lt_le_incl, fenced_lt; auto; lia. }
    rewrite (fence_key dir lo hi r) in Hle by lia. lia.
Qed.

Lemma descent h pos lo hi all :
  tree_at node_at h pos lo hi all ->
  forall fuel x s,
    Inv x -> (h <= fuel)%nat ->
    (forall o l, In (id, o, l) all -> found (loop fuel pos x s) s o l) /\
    (~ In id (map key all) -> not_found (loop fuel pos x s) s filePos len).
Proof.
  induction 1 as [h pos lo hi dir Hnode HN Hf Hleaf
                 |h pos lo hi dir subs Hnode HN Hf Hbr Hlen Hsub IH];
    intros fuel x s Hx Hfuel;
    (destruct fuel as [|fuel]; [lia|]);
    destruct (loop_step fuel pos dir x s Hx Hnode HN) as (x' & s' & Hx' & Hco & Hloop);
    rewrite Hloop, (search_node_eq dir id HN); cbv zeta;
    destruct (scan_index_spec dir id) as (Hr & Hbelow & Hstop);
    pose proof (numFiles_nonneg dir) as H0;
    pose proof (hit_is_entry dir lo hi) as Hhit;
    pose proof (fenced_child dir lo hi) as Hchild;
    set (r := scan_index dir id) in *.
  - (* leaf *)
    rewrite Hleaf. cbn [Z.eqb].
    destruct ((r <? numFiles_of dir) && (id =? key (dir_entry dir r))) eqn:Hc.
    + apply andb_prop in Hc. destruct Hc as (Hc1 & Hc2).
      apply Z.ltb_lt in Hc1. apply Z.eqb_eq in Hc2. split.
      * intros o l Hin. apply In_dir_entries in Hin.
        destruct Hin as (j & Hj & Hin).
        assert (j = r) by (apply Hhit; auto; rewrite <- Hin; reflexivity).
        subst j. rewrite <- Hin. cbn [fst snd]. exists s'. auto.
      * intros Hnot. exfalso. apply Hnot. apply in_map_iff.
        exists (dir_entry dir r). split; [symmetry; exact Hc2|].
        apply In_dir_entries. exists r. split; [lia | reflexivity].
    + split.
      * intros o l Hin. exfalso. apply In_dir_entries in Hin.
        destruct Hin as (j & Hj & Hin).
        assert (j = r) by (apply Hhit; auto; rewrite <- Hin; reflexivity).
        subst j. rewrite <- Hin in Hc. cbn [key fst] in Hc.
        rewrite Z.eqb_refl, andb_true_r in Hc. apply Z.ltb_ge in Hc. lia.
      * intros _. exists s'. auto.
  - (* inner node *)
    assert (Hlen' : length subs = S (length (dir_entries dir)))
      by (rewrite dir_entries_length; exact Hlen).
    destruct ((r <? numFiles_of dir) && (id =? key (dir_entry dir r))) eqn:Hc.
    + apply andb_prop in Hc. destruct Hc as (Hc1 & Hc2).
      apply Z.ltb_lt in Hc1. apply Z.eqb_eq in Hc2. split.
      * intros o l Hin. apply In_inorder in Hin; [|exact Hlen'].
        destruct Hin as [Hin | (j & Hj & Hin)].
        -- apply In_dir_entries in Hin. destruct Hin as (j & Hj & Hin).
           assert (j = r) by (apply Hhit; auto; rewrite <- Hin; reflexivity).
           subst j. rewrite <- Hin. cbn [fst snd]. exists s'. auto.
        -- exfalso.
           pose proof (tree_at_bounds _ _ _ _ _ _
                         (Hsub (Z.of_nat j) ltac:(lia))) as Hb.
           rewrite Nat2Z.id in Hb. specialize (Hb _ Hin). cbn [key fst] in Hb.
           assert (Z.of_nat j = r) by (apply Hchild; auto; lia).
           rewrite H, (fence_key dir lo hi r) in Hb by lia. lia.
      * intros Hnot. exfalso. apply Hnot. apply in_map_iff.
        exists (dir_entry dir r). split; [symmetry; exact Hc2|].
        apply In_inorder; [exact Hlen'|]. left.
        apply In_dir_entries. exists r. split; [lia | reflexivity].
    + apply Z.eqb_neq in Hbr. rewrite Hbr.
      destruct (IH r ltac:(lia) fuel x' s' Hx' ltac:(lia)) as (IHf & IHn).
      split.
      * intros o l Hin. apply In_inorder in Hin; [|exact Hlen'].
        destruct Hin as [Hin | (j & Hj & Hin)].
        -- exfalso. apply In_dir_entries in Hin.
           destruct Hin as (j & Hj & Hin).
           assert (j = r) by (apply Hhit; auto; rewrite <- Hin; reflexivity).
           subst j. rewrite <- Hin in Hc. cbn [key fst] in Hc.
           rewrite Z.eqb_refl, andb_true_r in Hc. apply Z.ltb_ge in Hc. lia.
        -- pose proof (tree_at_bounds _ _ _ _ _ _
                         (Hsub (Z.of_nat j) ltac:(lia))) as Hb.
           rewrite Nat2Z.id in Hb. specialize (Hb _ Hin). cbn [key fst] in Hb.
           assert (Z.of_nat j = r) by (apply Hchild; auto; lia).
           subst r. rewrite <- H in IHf |- *. rewrite Nat2Z.id in IHf.
           destruct (IHf o l Hin) as (s'' & Heq & Hco'').
           exists s''. split; [exact Heq | congruence].
      * intros Hnot.
        destruct IHn as (s'' & Heq & Hco'').
        { intros Hin. apply Hnot. apply in_map_iff in Hin.
          destruct Hin as (e & He & Hin). apply in_map_iff.
          exists e. split; [exact He|].
          apply In_inorder; [exact Hlen'|]. right.
          exists (Z.to_nat r). split; [lia | exact Hin]. }
        exists s''. split; [exact Heq | congruence].
Qed.
End Descent.

(** ** Lookup in a PORTAL-class archive *)

Section PortalLookup.
Variable SECSIZE : Z.
Variable inFile : archive.
Hypothesis SECSIZE_pos : 1 <= SECSIZE.
Variables id filePos len : Z.

Lemma Portal_step fuel pos dir s :
  portal_node_at SECSIZE inFile pos dir ->
  numFiles_of dir < NUMFILELOC ->
  let s' := mkStream (pos + SECSIZE * 4) (seeks s ++ [pos]) (console s) in
  Portal.FetchFilePos SECSIZE (S fuel) inFile pos id filePos len s
  = match search_node dir id with
    | TooMany => Done s' (0, (filePos, len))
    | Hit p l => Done s' (1, (p, l))
    | Miss => Done s' (0, (filePos, len))
    | Descend p => Portal.FetchFilePos SECSIZE fuel inFile p id filePos len s'
    end.
Proof.
  intros (Hpos & Hsec) HN s'.
  cbn [Portal.FetchFilePos].
  apply Z.eqb_neq in Hpos. rewrite Hpos.
  rewrite (bind_done _ _ _ _ _ (fseek_sector _ _ _ _ s Hsec)).
  cbn [Z.eqb negb].
  rewrite (bind_done _ _ _ _ _ (fread_sector _ _ SECSIZE_pos _ _ _ _ Hsec)).
  rewrite Z.eqb_refl. cbn [negb].
  fold s'. rewrite (search_node_eq dir id HN). cbv zeta.
  destruct (_ && _); [reflexivity|].
  destruct (dir_child dir 0 =? 0); reflexivity.
Qed.

Lemma Portal_lookup h root lo hi all :
  tree_at (portal_node_at SECSIZE inFile) h root lo hi all ->
  forall fuel s,
    (h <= fuel)%nat ->
    (forall o l, In (id, o, l) all ->
       found (Portal.FetchFilePos SECSIZE fuel inFile root id filePos len s)
             s o l) /\
    (~ In id (map key all) ->
       not_found (Portal.FetchFilePos SECSIZE fuel inFile root id filePos len s)
                 s filePos len).
Proof.
  intros Ht fuel s Hfuel.
  apply (descent unit (fun _ => True) (portal_node_at SECSIZE inFile)
                 id filePos len
                 (fun fuel pos _ =>
                    Portal.FetchFilePos SECSIZE fuel inFile pos id filePos len))
    with (h := h) (lo := lo) (hi := hi) (x := tt); auto.
  intros fuel' pos dir x s0 _ Hnode HN.
  exists tt. eexists. split; [exact I|]. split; [|apply Portal_step; auto].
  reflexivity.
Qed.
End PortalLookup.

(** ** Reading a node of a CELL-class archive *)

Lemma word_at_app mem rest i :
  0 <= i -> (Z.to_nat (4 * i) + 4 <= length mem)%nat ->
  word_at (mem ++ rest) i = word_at mem i.
Proof.
  intros Hi Hlen. unfold word_at. cbv zeta.
  rewrite !app_nth1 by lia. reflexivity.
Qed.

Lemma word_at_firstn mem n i :
  0 <= i -> (Z.to_nat (4 * i) + 4 <= n)%nat -> (n <= length mem)%nat ->
  word_at (firstn n mem) i = word_at mem i.
Proof.
  intros Hi Hn Hlen.
  rewrite <- (firstn_skipn n mem) at 2.
  symmetry. apply word_at_app; auto. rewrite length_firstn. lia.
Qed.

Lemma word_at_splice dir img i :
  0 <= i -> (Z.to_nat (4 * i) + 4 <= length img)%nat ->
  word_at (splice dir 0 img) i = word_at img i.
Proof.
  intros Hi Hlen. unfold splice. cbn [firstn app].
  now apply word_at_app.
Qed.

Section CellNode.
Variable SECSIZE : Z.
Variable inFile : archive.
Hypothesis SECSIZE_pos : 1 <= SECSIZE.

Lemma fread_word pos sec sk co :
  sector_at SECSIZE inFile pos sec ->
  fread inFile 4 1 (mkStream pos sk co)
  = Done (mkStream (pos + 4) sk co) (1, firstn 4 sec).
Proof.
  intros H. pose proof (sector_at_fits _ _ SECSIZE_pos _ _ H) as Hfit.
  destruct H as (_ & Hpos & Hlen & Hsec).
  unfold fread; cbn [fpos seeks console].
  assert (Hcnt : Z.min 1 (Z.max 0 (Z.of_nat (length (contents inFile)) - pos) / 4) = 1).
  { apply Z.min_l. apply Z.div_le_lower_bound; lia. }
  rewrite Hcnt. change (Z.to_nat (1 * 4)) with 4%nat. change (1 * 4) with 4.
  rewrite (Z.min_l 4) by lia.
  rewrite <- Hsec, firstn_firstn.
  replace (Init.Nat.min 4 (Z.to_nat (4 * SECSIZE))) with 4%nat by lia.
  reflexivity.
Qed.

Lemma fread_tail pos sec sk co :
  sector_at SECSIZE inFile pos sec ->
  fread inFile 4 (SECSIZE - 1) (mkStream (pos + 4) sk co)
  = Done (mkStream (pos + SECSIZE * 4) sk co) (SECSIZE - 1, payload sec).
Proof.
  intros H. pose proof (sector_at_fits _ _ SECSIZE_pos _ _ H) as Hfit.
  destruct H as (_ & Hpos & Hlen & Hsec).
  unfold fread; cbn [fpos seeks console].
  assert (Hcnt : Z.min (SECSIZE - 1)
                   (Z.max 0 (Z.of_nat (length (contents inFile)) - (pos + 4)) / 4)
                 = SECSIZE - 1).
  { apply Z.min_l. apply Z.div_le_lower_bound; lia. }
  rewrite Hcnt, (Z.min_l ((SECSIZE - 1) * 4)) by lia.
  replace (pos + 4 + (SECSIZE - 1) * 4) with (pos + SECSIZE * 4) by lia.
  unfold payload. rewrite <- Hsec, skipn_firstn_comm, skipn_skipn.
  replace (4 + Z.to_nat pos)%nat with (Z.to_nat (pos + 4)) by lia.
  replace (Z.to_nat (4 * SECSIZE) - 4)%nat with (Z.to_nat ((SECSIZE - 1) * 4)) by lia.
  reflexivity.
Qed.

(** A block that is entered, on an array that so far holds the
    image [img] over what it held before. *)
Lemma follow_link pos sec dir0 img dst s :
  pos <> 0 ->
  sector_at SECSIZE inFile pos sec ->
  Z.of_nat (length img) = 4 * dst ->
  Cell.follow SECSIZE inFile pos (splice dir0 0 img) dst s
  = Done (mkStream (pos + SECSIZE * 4) (seeks s ++ [pos]) (console s))
         (Some (word_at sec 0, splice dir0 0 (img ++ payload sec))).
Proof.
  intros Hpos Hsec Hdst. unfold Cell.follow.
  apply Z.eqb_neq in Hpos. rewrite Hpos. cbn [negb].
  rewrite (bind_done _ _ _ _ _ (fseek_sector _ _ _ _ s Hsec)).
  cbn [Z.eqb negb].
  rewrite (bind_done _ _ _ _ _ (fread_word _ _ _ _ Hsec)).
  cbn [Z.eqb Pos.eqb negb].
  rewrite (bind_done _ _ _ _ _ (fread_tail _ _ _ _ Hsec)).
  rewrite Z.eqb_refl. cbn [negb]. unfold ret.
  pose proof (payload_length _ _ SECSIZE_pos _ _ Hsec) as Hpl.
  destruct Hsec as (_ & _ & Hlen & _).
  rewrite word_at_firstn by lia.
  unfold memcpy. rewrite firstn_all2 by (rewrite Hpl; unfold payload_size; lia).
  replace (Z.to_nat (4 * dst)) with (0 + length img)%nat by lia.
  rewrite splice_splice by lia. reflexivity.
Qed.

Lemma follow_null dir dst s :
  Cell.follow SECSIZE inFile 0 dir dst s = Done s (Some (0, dir)).
Proof. reflexivity. Qed.

Lemma cell_first_sector pos sec dir0 :
  sector_at SECSIZE inFile pos sec ->
  memcpy dir0 0 sec (4 * SECSIZE) = splice dir0 0 sec /\
  word_at (splice dir0 0 sec) 0 = word_at sec 0 /\
  Z.of_nat (length sec) = 4 * SECSIZE.
Proof.
  intros (_ & _ & Hlen & _). unfold memcpy. change (Z.to_nat 0) with 0%nat.
  rewrite firstn_all2 by lia. repeat split; [|lia].
  apply word_at_splice; lia.
Qed.
End CellNode.

Section CellImage.
Variable SECSIZE : Z.
Variable inFile : archive.
Hypothesis SECSIZE_pos : 1 <= SECSIZE.

Ltac first_sector Hsec dir0 :=
  unfold Cell.read_node;
  rewrite (bind_done _ _ _ _ _ (fseek_sector _ _ _ _ _ Hsec));
  cbn [Z.eqb negb];
  rewrite (bind_done _ _ _ _ _ (fread_sector _ _ SECSIZE_pos _ _ _ _ Hsec));
  rewrite Z.eqb_refl; cbn [negb]; cbv zeta;
  destruct (cell_first_sector _ _ SECSIZE_pos _ _ dir0 Hsec) as (-> & -> & ?).

Ltac next_sector Hpos Hsec :=
  erewrite (bind_done _ _ _ _ _ (follow_link _ _ SECSIZE_pos _ _ _ _ _ _ Hpos Hsec _));
  cbv beta iota.

Ltac no_sector :=
  rewrite (bind_done _ _ _ _ _ (follow_null _ _ _ _ _)); cbv beta iota.

Lemma read_node_image pos secs dir0 s :
  secs <> [] ->
  linked SECSIZE inFile 4 pos secs ->
  exists s',
    Cell.read_node SECSIZE inFile pos dir0 s
    = Done s' (Some (splice dir0 0 (cell_image secs)))
    /\ console s' = console s.
Proof.
  intros Hne Hl.
  destruct secs as [|s1 secs]; [congruence|].
  destruct Hl as (Hp1 & Hs1 & Hl).
  pose proof (payload_length SECSIZE inFile SECSIZE_pos) as Hpl.
  destruct secs as [|s2 secs]; cbn [linked] in Hl.
  { destruct Hl as [Hl | Hl]; [discriminate|].
    first_sector Hs1 dir0. rewrite Hl.
    do 3 no_sector. cbn [cell_image map concat]. rewrite app_nil_r.
    eexists; split; reflexivity. }
  destruct Hl as (Hp2 & Hs2 & Hl).
  destruct secs as [|s3 secs]; cbn [linked] in Hl.
  { destruct Hl as [Hl | Hl]; [discriminate|].
    first_sector Hs1 dir0.
    next_sector Hp2 Hs2. rewrite Hl.
    do 2 no_sector. cbn [cell_image map concat]. rewrite app_nil_r.
    eexists; split; reflexivity. }
  destruct Hl as (Hp3 & Hs3 & Hl).
  destruct secs as [|s4 secs]; cbn [linked] in Hl.
  { destruct Hl as [Hl | Hl]; [discriminate|].
    first_sector Hs1 dir0.
    next_sector Hp2 Hs2. next_sector Hp3 Hs3. rewrite Hl.
    no_sector. cbn [cell_image map concat]. rewrite app_nil_r, <- app_assoc.
    eexists; split; reflexivity. }
  destruct Hl as (Hp4 & Hs4 & Hl).
  destruct secs as [|s5 secs]; cbn [linked] in Hl; [|tauto].
  first_sector Hs1 dir0.
  next_sector Hp2 Hs2. next_sector Hp3 Hs3. next_sector Hp4 Hs4.
  cbn [cell_image map concat]. rewrite app_nil_r, <- !app_assoc.
  eexists; split; reflexivity.
  Unshelve.
  all: rewrite ?length_app, ?(Hpl _ _ Hs2), ?(Hpl _ _ Hs3); unfold payload_size; lia.
Qed.
End CellImage.

(** ** Lookup in a CELL-class archive *)

(** [search_node] reads the words of the node and no others. *)
Lemma scan_agree d1 d2 id N :
  forall n i,
    0 <= i ->
    (forall k, 0 <= k < NUMFILELOC + 1 + 3 * N -> word_at d1 k = word_at d2 k) ->
    scan n d1 id N i = scan n d2 id N i.
Proof.
  induction n as [|n IH]; intros i Hi Hw; cbn [scan]; [reflexivity|].
  destruct (Z.ltb_spec i N); cbn [andb]; [|reflexivity].
  rewrite Hw by (unfold NUMFILELOC; lia).
  rewrite IH by (auto; lia). reflexivity.
Qed.

Lemma search_node_agree d1 d2 id :
  numFiles_of d2 < NUMFILELOC ->
  (forall k, 0 <= k < NUMFILELOC + 1 + 3 * numFiles_of d2 ->
             word_at d1 k = word_at d2 k) ->
  search_node d1 id = search_node d2 id.
Proof.
  intros HN Hw. pose proof (numFiles_nonneg d2) as H0.
  assert (HNeq : numFiles_of d1 = numFiles_of d2)
    by (apply Hw; unfold NUMFILELOC; lia).
  rewrite !search_node_eq by lia. cbv zeta. unfold scan_index.
  rewrite HNeq, (scan_agree d1 d2 id (numFiles_of d2)) by (auto; lia).
  destruct (scan_index_spec d2 id) as (Hr & _). unfold scan_index in Hr.
  set (r := scan _ d2 id _ 0) in *.
  unfold dir_entry, dir_child, key. cbn [fst snd].
  unfold NUMFILELOC in *.
  rewrite (Hw (0 + 1)), (Hw (r + 1)) by lia.
  destruct (Z.ltb_spec r (numFiles_of d2)); cbn [andb]; [|reflexivity].
  rewrite (Hw (r * 3 + 63 + 1)), (Hw (r * 3 + 63 + 2)), (Hw (r * 3 + 63 + 3)) by lia.
  reflexivity.
Qed.

Section CellLookup.
Variable SECSIZE : Z.
Variable inFile : archive.
Hypothesis SECSIZE_pos : 1 <= SECSIZE.
Variables id filePos len : Z.

Lemma Cell_step fuel pos img dir0 s :
  cell_node_at SECSIZE inFile pos img ->
  numFiles_of img < NUMFILELOC ->
  exists s',
    console s' = console s /\
    Cell.FetchFilePos SECSIZE (S fuel) inFile pos id filePos len dir0 s
    = match search_node img id with
      | TooMany => Done s' (0, (filePos, len))
      | Hit p l => Done s' (1, (p, l))
      | Miss => Done s' (0, (filePos, len))
      | Descend p =>
        Cell.FetchFilePos SECSIZE fuel inFile p id filePos len
                          (splice dir0 0 img) s'
      end.
Proof.
  intros (secs & Hne & Hl & -> & Hcov) HN.
  assert (Hpos : pos <> 0) by (destruct secs; [congruence | simpl in Hl; tauto]).
  destruct (read_node_image SECSIZE inFile SECSIZE_pos pos secs dir0 s Hne Hl)
    as (s' & Hread & Hco).
  exists s'. split; [exact Hco|].
  cbn [Cell.FetchFilePos].
  apply Z.eqb_neq in Hpos. rewrite Hpos.
  rewrite (bind_done _ _ _ _ _ Hread).
  assert (Hs : search_node (splice dir0 0 (cell_image secs)) id
               = search_node (cell_image secs) id).
  { apply search_node_agree; auto.
    intros k Hk. apply word_at_splice; lia. }
  rewrite Hs, (search_node_eq _ id HN). cbv zeta.
  destruct (_ && _); [reflexivity|].
  destruct (dir_child (cell_image secs) 0 =? 0); reflexivity.
Qed.

Lemma Cell_lookup h root lo hi all :
  tree_at (cell_node_at SECSIZE inFile) h root lo hi all ->
  forall fuel dir0 s,
    (h <= fuel)%nat ->
    (forall o l, In (id, o, l) all ->
       found (Cell.FetchFilePos SECSIZE fuel inFile root id filePos len dir0 s)
             s o l) /\
    (~ In id (map key all) ->
       not_found (Cell.FetchFilePos SECSIZE fuel inFile root id filePos len dir0 s)
                 s filePos len).
Proof.
  intros Ht fuel dir0 s Hfuel.
  apply (descent (list byte) (fun _ => True) (cell_node_at SECSIZE inFile)
                 id filePos len
                 (fun fuel pos dir =>
                    Cell.FetchFilePos SECSIZE fuel inFile pos id filePos len dir))
    with (h := h) (lo := lo) (hi := hi) (x := dir0); auto.
  intros fuel' pos img x s0 _ Hnode HN.
  destruct (Cell_step fuel' pos img x s0 Hnode HN) as (s' & Hco & Hstep).
  exists (splice x 0 img), s'. auto.
Qed.
End CellLookup.

(** C1, for the layout the code reads.  On a directory tree laid out
    as FetchFilePos reads it -- the count of entries in word 3F, the
    entries from word 40, child [i] in word [i + 1], a leaf where
    word 1 is null -- whose ids lie in order between [lo] and [hi],
    the lookup of an id that an entry carries returns 1 with that
    entry's offset and length in the caller's cells, and the lookup
    of an id that no entry carries returns 0, silently, with the
    cells as they were.  Ids are compared as the unsigned words they
    are read as, and only an equal id is a hit.  This holds for the
    one-sector nodes of exp.c and acbmp.c and for the chained nodes
    of exc.c, whatever the local array held before. *)
Theorem FetchFilePos_lookup_total :
  forall SECSIZE inFile h root lo hi all id filePos len fuel s,
    1 <= SECSIZE ->
    (h <= fuel)%nat ->
    (tree_at (portal_node_at SECSIZE inFile) h root lo hi all ->
     (forall o l, In (id, o, l) all ->
        found (Portal.FetchFilePos SECSIZE fuel inFile root id filePos len s)
              s o l) /\
     (~ In id (map key all) ->
        not_found (Portal.FetchFilePos SECSIZE fuel inFile root id filePos len s)
                  s filePos len)) /\
    (tree_at (cell_node_at SECSIZE inFile) h root lo hi all ->
     forall dir0,
     (forall o l, In (id, o, l) all ->
        found (Cell.FetchFilePos SECSIZE fuel inFile root id filePos len dir0 s)
              s o l) /\
     (~ In id (map key all) ->
        not_found (Cell.FetchFilePos SECSIZE fuel inFile root id filePos len dir0 s)
                  s filePos len)).
Proof.
  intros SECSIZE inFile h root lo hi all id filePos len fuel s HS Hfuel. split.
  - intros Ht. apply (Portal_lookup SECSIZE inFile HS id filePos len h root lo hi all Ht); auto.
  - intros Ht dir0. apply (Cell_lookup SECSIZE inFile HS id filePos len h root lo hi all Ht); auto.
Qed.

(** ** The caller's cells *)

Lemma Portal_cells_framed SECSIZE inFile id filePos len fuel :
  forall dirPos s,
    cells_framed id filePos len
      (Portal.FetchFilePos SECSIZE fuel inFile dirPos id filePos len s).
Proof.
  induction fuel as [|fuel IH]; intros dirPos s; [exact I|].
  cbn [Portal.FetchFilePos].
  destruct (dirPos =? 0); [left; auto|].
  unfold bind at 1, fseek.
  destruct (seekable inFile dirPos); cbn [Z.eqb negb]; [|left; auto].
  unfold bind at 1, fread. cbn [fpos seeks console].
  match goal with |- context [negb ?c] => destruct (negb c) end; [left; auto|].
  match goal with |- context [search_node ?d id] =>
    destruct (search_node d id) eqn:Hs
  end.
  - left; auto.
  - right. split; [reflexivity|]. eexists; exact Hs.
  - left; auto.
  - apply IH.
Qed.

Lemma follow_done SECSIZE inFile dirPos dir dst s :
  exists s' r, Cell.follow SECSIZE inFile dirPos dir dst s = Done s' r.
Proof.
  unfold Cell.follow.
  destruct (negb (dirPos =? 0)); [|eexists; eexists; reflexivity].
  unfold bind at 1, fseek.
  destruct (seekable inFile dirPos); cbn [Z.eqb negb];
    [|eexists; eexists; reflexivity].
  unfold bind at 1, fread. cbn [fpos seeks console].
  match goal with |- context [negb ?c] => destruct (negb c) end;
    [eexists; eexists; reflexivity|].
  unfold bind at 1. cbn [fpos seeks console].
  match goal with |- context [negb ?c] => destruct (negb c) end;
    eexists; eexists; reflexivity.
Qed.

Lemma read_node_done SECSIZE inFile dirPos dir s :
  exists s' r, Cell.read_node SECSIZE inFile dirPos dir s = Done s' r.
Proof.
  unfold Cell.read_node.
  unfold bind at 1, fseek.
  destruct (seekable inFile dirPos); cbn [Z.eqb negb];
    [|eexists; eexists; reflexivity].
  unfold bind at 1, fread. cbn [fpos seeks console].
  match goal with |- context [negb ?c] => destruct (negb c) end;
    [eexists; eexists; reflexivity|].
  cbv zeta.
  repeat match goal with
         | |- context [bind (Cell.follow ?S ?f ?p ?d ?k) _ ?st] =>
           let s' := fresh "s" in
           let r := fresh "r" in
           let H := fresh "H" in
           destruct (follow_done S f p d k st) as (s' & r & H);
           rewrite (bind_done _ _ _ _ _ H);
           destruct r as [[? ?]|]; cbv beta iota
         end;
    eexists; eexists; reflexivity.
Qed.

Lemma Cell_cells_framed SECSIZE inFile id filePos len fuel :
  forall dirPos dir s,
    cells_framed id filePos len
      (Cell.FetchFilePos SECSIZE fuel inFile dirPos id filePos len dir s).
Proof.
  induction fuel as [|fuel IH]; intros dirPos dir s; [exact I|].
  cbn [Cell.FetchFilePos].
  destruct (dirPos =? 0); [left; auto|].
  destruct (read_node_done SECSIZE inFile dirPos dir s) as (s' & r & H).
  rewrite (bind_done _ _ _ _ _ H).
  destruct r as [dir'|]; [|left; auto].
  destruct (search_node dir' id) eqn:Hs.
  - left; auto.
  - right. split; [reflexivity|]. eexists; exact Hs.
  - left; auto.
  - apply IH.
Qed.

(** C10.  Whatever the archive holds, a lookup that returns 0 -- the
    id is in no node on its path, or a node could not be read, or its
    count of entries is out of range -- leaves the caller's two cells
    with what they held, and a lookup that returns 1 has put there
    the offset and the length of an entry that carries the id.  This
    holds for the FetchFilePos of exp.c and acbmp.c and for that of
    exc.c. *)
Theorem FetchFilePos_cells_framed :
  forall SECSIZE inFile fuel dirPos id filePos len dir s,
    cells_framed id filePos len
      (Portal.FetchFilePos SECSIZE fuel inFile dirPos id filePos len s) /\
    cells_framed id filePos len
      (Cell.FetchFilePos SECSIZE fuel inFile dirPos id filePos len dir s).
Proof.
  intros. split.
  - apply Portal_cells_framed.
  - apply Cell_cells_framed.
Qed.

(** ** The node of mapac.c's ReadDir *)

Lemma fread_exact inFile size nmemb pos sk co :
  0 < size -> 0 <= nmemb -> 0 <= pos ->
  pos + size * nmemb <= Z.of_nat (length (contents inFile)) ->
  fread inFile size nmemb (mkStream pos sk co)
  = Done (mkStream (pos + nmemb * size) sk co)
         (nmemb, firstn (Z.to_nat (nmemb * size))
                        (skipn (Z.to_nat pos) (contents inFile))).
Proof.
  intros Hs Hn Hp Hfit. unfold fread. cbn [fpos seeks console].
  assert (Hcnt : Z.min nmemb
                   (Z.max 0 (Z.of_nat (length (contents inFile)) - pos) / size)
                 = nmemb).
  { apply Z.min_l. apply Z.div_le_lower_bound; nia. }
  rewrite Hcnt, Z.min_l by nia. reflexivity.
Qed.

Lemma CELLSECSIZE_pos : 1 <= Mapac.CELLSECSIZE.
Proof. unfold Mapac.CELLSECSIZE; lia. Qed.

Section MapacNode.
Variable inFile : archive.

Let sector_at := sector_at Mapac.CELLSECSIZE inFile.

Lemma Mapac_fread_sector pos sec sk co :
  sector_at pos sec ->
  fread inFile (4 * Mapac.CELLSECSIZE) 1 (mkStream pos sk co)
  = Done (mkStream (pos + 256) sk co) (1, sec).
Proof.
  intros H. pose proof (sector_at_fits _ _ CELLSECSIZE_pos _ _ H) as Hfit.
  destruct H as (_ & Hpos & Hlen & Hsec).
  rewrite fread_exact by (unfold Mapac.CELLSECSIZE in *; lia).
  unfold Mapac.CELLSECSIZE in *. change (1 * (4 * 64)) with (4 * 64).
  now rewrite Hsec.
Qed.

Lemma Mapac_fread_tail pos sec sk co :
  sector_at pos sec ->
  fread inFile (4 * (Mapac.CELLSECSIZE - 1)) 1 (mkStream (pos + 4) sk co)
  = Done (mkStream (pos + 256) sk co) (1, payload sec).
Proof.
  intros H. pose proof (sector_at_fits _ _ CELLSECSIZE_pos _ _ H) as Hfit.
  destruct H as (_ & Hpos & Hlen & Hsec).
  rewrite fread_exact by (unfold Mapac.CELLSECSIZE in *; lia).
  unfold Mapac.CELLSECSIZE in *.
  replace (pos + 4 + 1 * (4 * (64 - 1))) with (pos + 256) by lia.
  unfold payload. rewrite <- Hsec, skipn_firstn_comm, skipn_skipn.
  replace (4 + Z.to_nat pos)%nat with (Z.to_nat (pos + 4)) by lia.
  reflexivity.
Qed.

Lemma Mapac_follow_link pos sec dir0 img dst s :
  pos <> 0 ->
  sector_at pos sec ->
  Z.of_nat (length img) = 4 * dst ->
  Mapac.follow inFile pos (splice dir0 0 img) dst s
  = Done (mkStream (pos + 256) (seeks s ++ [pos]) (console s))
         (word_at sec 0, splice dir0 0 (img ++ payload sec)).
Proof.
  intros Hpos Hsec Hdst. unfold Mapac.follow.
  apply Z.eqb_neq in Hpos. rewrite Hpos. cbn [negb].
  rewrite (bind_done _ _ _ _ _ (fseek_sector _ _ _ _ s Hsec)).
  unfold assert at 1. cbn [Z.eqb]. unfold bind at 1.
  rewrite (bind_done _ _ _ _ _
             (fread_word _ _ CELLSECSIZE_pos _ _ _ _ Hsec)).
  unfold assert at 1. cbn [Z.eqb Pos.eqb]. unfold bind at 1.
  rewrite (bind_done _ _ _ _ _ (Mapac_fread_tail _ _ _ _ Hsec)).
  unfold assert at 1. cbn [Z.eqb Pos.eqb]. unfold bind at 1. unfold ret.
  pose proof (payload_length _ _ CELLSECSIZE_pos _ _ Hsec) as Hpl.
  destruct Hsec as (_ & _ & Hlen & _).
  unfold Mapac.CELLSECSIZE, payload_size in *.
  rewrite word_at_firstn by lia.
  unfold memcpy. rewrite firstn_all2 by (rewrite Hpl; lia).
  replace (Z.to_nat (4 * dst)) with (0 + length img)%nat by lia.
  rewrite splice_splice by lia. reflexivity.
Qed.

Lemma Mapac_follow_null dir dst s :
  Mapac.follow inFile 0 dir dst s = Done s (0, dir).
Proof. reflexivity. Qed.

Ltac first_sector Hp Hsec dir0 :=
  unfold Mapac.read_node;
  unfold assert at 1; rewrite (proj2 (Z.eqb_neq _ _) Hp); cbn [negb];
  unfold bind at 1;
  rewrite (bind_done _ _ _ _ _ (fseek_sector _ _ _ _ _ Hsec));
  unfold assert at 1; cbn [Z.eqb]; unfold bind at 1;
  rewrite (bind_done _ _ _ _ _ (Mapac_fread_sector _ _ _ _ Hsec));
  unfold assert at 1; cbn [Z.eqb Pos.eqb]; unfold bind at 1; cbv zeta;
  destruct (cell_first_sector _ _ CELLSECSIZE_pos _ _ dir0 Hsec)
    as (-> & -> & ?).

Ltac next_sector Hpos Hsec :=
  erewrite (bind_done _ _ _ _ _ (Mapac_follow_link _ _ _ _ _ _ Hpos Hsec _));
  cbv beta iota.

Ltac no_sector :=
  rewrite (bind_done _ _ _ _ _ (Mapac_follow_null _ _ _)); cbv beta iota.

Lemma Mapac_read_node_image pos secs dir0 s :
  secs <> [] ->
  linked Mapac.CELLSECSIZE inFile 4 pos secs ->
  exists s',
    Mapac.read_node inFile pos dir0 s
    = Done s' (splice dir0 0 (cell_image secs))
    /\ console s' = console s.
Proof.
  intros Hne Hl.
  destruct secs as [|s1 secs]; [congruence|].
  destruct Hl as (Hp1 & Hs1 & Hl).
  pose proof (payload_length Mapac.CELLSECSIZE inFile
                CELLSECSIZE_pos) as Hpl.
  destruct secs as [|s2 secs]; cbn [linked] in Hl.
  { destruct Hl as [Hl | Hl]; [discriminate|].
    first_sector Hp1 Hs1 dir0. rewrite Hl.
    do 3 no_sector. cbn [cell_image map concat]. rewrite app_nil_r.
    eexists; split; reflexivity. }
  destruct Hl as (Hp2 & Hs2 & Hl).
  destruct secs as [|s3 secs]; cbn [linked] in Hl.
  { destruct Hl as [Hl | Hl]; [discriminate|].
    first_sector Hp1 Hs1 dir0.
    next_sector Hp2 Hs2. rewrite Hl.
    do 2 no_sector. cbn [cell_image map concat]. rewrite app_nil_r.
    eexists; split; reflexivity. }
  destruct Hl as (Hp3 & Hs3 & Hl).
  destruct secs as [|s4 secs]; cbn [linked] in Hl.
  { destruct Hl as [Hl | Hl]; [discriminate|].
    first_sector Hp1 Hs1 dir0.
    next_sector Hp2 Hs2. next_sector Hp3 Hs3. rewrite Hl.
    no_sector. cbn [cell_image map concat]. rewrite app_nil_r, <- app_assoc.
    eexists; split; reflexivity. }
  destruct Hl as (Hp4 & Hs4 & Hl).
  destruct secs as [|s5 secs]; cbn [linked] in Hl; [|tauto].
  first_sector Hp1 Hs1 dir0.
  next_sector Hp2 Hs2. next_sector Hp3 Hs3. next_sector Hp4 Hs4.
  cbn [cell_image map concat]. rewrite app_nil_r, <- !app_assoc.
  eexists; split; reflexivity.
  Unshelve.
  all: rewrite ?length_app, ?(Hpl _ _ Hs2), ?(Hpl _ _ Hs3);
    unfold payload_size, Mapac.CELLSECSIZE in *; lia.
Qed.
End MapacNode.

(** ** The words of a reconstituted node *)

Lemma word_at_app_r a b m k :
  length a = (4 * m)%nat -> Z.of_nat m <= k ->
  word_at (a ++ b) k = word_at b (k - Z.of_nat m).
Proof.
  intros Hlen Hk. unfold word_at. cbv zeta.
  rewrite !app_nth2 by lia.
  replace (Z.to_nat (4 * k) - length a)%nat
    with (Z.to_nat (4 * (k - Z.of_nat m))) by lia.
  replace (Z.to_nat (4 * k) + 1 - length a)%nat
    with (Z.to_nat (4 * (k - Z.of_nat m)) + 1)%nat by lia.
  replace (Z.to_nat (4 * k) + 2 - length a)%nat
    with (Z.to_nat (4 * (k - Z.of_nat m)) + 2)%nat by lia.
  replace (Z.to_nat (4 * k) + 3 - length a)%nat
    with (Z.to_nat (4 * (k - Z.of_nat m)) + 3)%nat by lia.
  reflexivity.
Qed.

Lemma word_at_skipn mem m k :
  0 <= k ->
  word_at (skipn (4 * m) mem) k = word_at mem (k + Z.of_nat m).
Proof.
  intros Hk. unfold word_at. cbv zeta. rewrite !nth_skipn.
  replace (Z.to_nat (4 * (k + Z.of_nat m))) with (4 * m + Z.to_nat (4 * k))%nat by lia.
  rewrite !Nat.add_assoc. reflexivity.
Qed.

Lemma word_at_payload sec k :
  0 <= k -> word_at (payload sec) k = word_at sec (k + 1).
Proof. intros Hk. apply (word_at_skipn sec 1 k Hk). Qed.

(** The words of [img ++ rest] from the end of [img] on, when [img]
    is [m] words long. *)
Lemma splice_words_after dir0 img m k :
  length img = (4 * m)%nat -> Z.of_nat m <= k ->
  word_at (splice dir0 0 img) k = word_at dir0 k.
Proof.
  intros Hlen Hk. unfold splice. cbn [firstn app Nat.add].
  rewrite (word_at_app_r img _ m k Hlen Hk), Hlen, word_at_skipn by lia.
  f_equal. lia.
Qed.

Lemma splice_same_length {A} (dst data : list A) :
  (length data <= length dst)%nat ->
  length (splice dst 0 data) = length dst.
Proof.
  intros H. unfold splice. cbn [firstn app Nat.add].
  rewrite length_app, length_skipn. lia.
Qed.

Lemma cell_image_length inFile pos secs :
  secs <> [] ->
  linked 64 inFile 4 pos secs ->
  (length (cell_image secs) <= 1012)%nat.
Proof.
  intros Hne Hl.
  assert (Hlen : forall p sec, sector_at 64 inFile p sec -> length sec = 256%nat)
    by (intros p sec (_ & _ & H & _); exact H).
  assert (Hpl : forall p sec, sector_at 64 inFile p sec -> length (payload sec) = 252%nat)
    by (intros p sec H; rewrite (payload_length 64 inFile ltac:(lia) p sec H); reflexivity).
  destruct secs as [|s1 secs]; [congruence|].
  destruct Hl as (_ & Hs1 & Hl). pose proof (Hlen _ _ Hs1).
  destruct secs as [|s2 secs]; cbn [linked cell_image map concat] in *;
    [rewrite length_app; simpl; lia|].
  destruct Hl as (_ & Hs2 & Hl). pose proof (Hpl _ _ Hs2).
  destruct secs as [|s3 secs]; cbn [linked cell_image map concat] in *;
    [rewrite !length_app; simpl; lia|].
  destruct Hl as (_ & Hs3 & Hl). pose proof (Hpl _ _ Hs3).
  destruct secs as [|s4 secs]; cbn [linked cell_image map concat] in *;
    [rewrite !length_app; simpl; lia|].
  destruct Hl as (_ & Hs4 & Hl). pose proof (Hpl _ _ Hs4).
  destruct secs as [|s5 secs]; cbn [linked cell_image map concat] in *;
    [rewrite !length_app; simpl; lia | tauto].
Qed.

Lemma reconstitutes_image inFile pos secs dir0 :
  secs <> [] ->
  linked 64 inFile 4 pos secs ->
  length dir0 = 1024%nat ->
  reconstitutes secs dir0 (splice dir0 0 (cell_image secs)).
Proof.
  intros Hne Hl Hdir0. split.
  { apply splice_same_length.
    pose proof (cell_image_length inFile pos secs Hne Hl). lia. }
  intros k (Hk & _).
  assert (Hlen : forall p sec, sector_at 64 inFile p sec -> length sec = (4 * 64)%nat)
    by (intros p sec (_ & _ & H & _); exact H).
  assert (Hpl : forall p sec, sector_at 64 inFile p sec -> length (payload sec) = (4 * 63)%nat)
    by (intros p sec H; rewrite (payload_length 64 inFile ltac:(lia) p sec H); reflexivity).
  unfold contiguous_word, sector_word.
  destruct secs as [|s1 secs]; [congruence|].
  destruct Hl as (_ & Hs1 & Hl). pose proof (Hlen _ _ Hs1) as L1.
  destruct secs as [|s2 secs]; cbn [linked] in Hl.
  { cbn [cell_image map concat nth_error]. rewrite app_nil_r.
    destruct (Z.ltb_spec k 64).
    - apply word_at_splice; lia.
    - rewrite (splice_words_after dir0 s1 64 k) by (auto; lia).
      repeat (destruct (_ <? _)); reflexivity. }
  destruct Hl as (_ & Hs2 & Hl). pose proof (Hpl _ _ Hs2) as L2.
  destruct secs as [|s3 secs]; cbn [linked] in Hl.
  { cbn [cell_image map concat nth_error]. rewrite app_nil_r.
    destruct (Z.ltb_spec k 64).
    - rewrite word_at_splice by (rewrite ?length_app; lia).
      apply word_at_app; lia.
    - destruct (Z.ltb_spec k 127).
      + rewrite word_at_splice by (rewrite ?length_app; lia).
        rewrite (word_at_app_r s1 _ 64 k), word_at_payload by (auto; lia).
        f_equal; lia.
      + rewrite (splice_words_after dir0 _ 127 k) by (rewrite ?length_app; lia).
        repeat (destruct (_ <? _)); reflexivity. }
  destruct Hl as (_ & Hs3 & Hl). pose proof (Hpl _ _ Hs3) as L3.
  destruct secs as [|s4 secs]; cbn [linked] in Hl.
  { cbn [cell_image map concat nth_error]. rewrite app_nil_r.
    destruct (Z.ltb_spec k 64).
    - rewrite word_at_splice by (rewrite ?length_app; lia).
      apply word_at_app; lia.
    - destruct (Z.ltb_spec k 127).
      + rewrite word_at_splice by (rewrite ?length_app; lia).
        rewrite (word_at_app_r s1 _ 64 k), word_at_app, word_at_payload by (auto; lia).
        f_equal; lia.
      + destruct (Z.ltb_spec k 190).
        * rewrite word_at_splice by (rewrite ?length_app; lia).
          rewrite (word_at_app_r s1 _ 64 k) by (auto; lia).
          rewrite (word_at_app_r (payload s2) _ 63 (k - 64)), word_at_payload by (auto; lia).
          f_equal; lia.
        * rewrite (splice_words_after dir0 _ 190 k) by (rewrite ?length_app; lia).
          repeat (destruct (_ <? _)); reflexivity. }
  destruct Hl as (_ & Hs4 & Hl). pose proof (Hpl _ _ Hs4) as L4.
  destruct secs as [|s5 secs]; cbn [linked] in Hl; [|tauto].
  cbn [cell_image map concat nth_error]. rewrite app_nil_r.
  destruct (Z.ltb_spec k 64).
  - rewrite word_at_splice by (rewrite ?length_app; lia).
    apply word_at_app; lia.
  - destruct (Z.ltb_spec k 127).
    + rewrite word_at_splice by (rewrite ?length_app; lia).
      rewrite (word_at_app_r s1 _ 64 k), word_at_app, word_at_payload by (auto; lia).
      f_equal; lia.
    + destruct (Z.ltb_spec k 190).
      * rewrite word_at_splice by (rewrite ?length_app; lia).
        rewrite (word_at_app_r s1 _ 64 k) by (auto; lia).
        rewrite (word_at_app_r (payload s2) _ 63 (k - 64)), word_at_app, word_at_payload
          by (auto; lia).
        f_equal; lia.
      * destruct (Z.ltb_spec k 253).
        -- rewrite word_at_splice by (rewrite ?length_app; lia).
           rewrite (word_at_app_r s1 _ 64 k) by (auto; lia).
           rewrite (word_at_app_r (payload s2) _ 63 (k - 64)) by (auto; lia).
           rewrite (word_at_app_r (payload s3) _ 63 (k - 64 - 63)), word_at_payload
             by (auto; lia).
           f_equal; lia.
        -- rewrite (splice_words_after dir0 _ 253 k) by (rewrite ?length_app; lia).
           reflexivity.
Qed.


(** ** The example archives *)

Lemma tree_at_eq node_at h pos lo hi all pos' lo' hi' all' :
  tree_at node_at h pos lo hi all ->
  pos = pos' -> lo = lo' -> hi = hi' -> all = all' ->
  tree_at node_at h pos' lo' hi' all'.
Proof. now intros H -> -> -> ->. Qed.

Lemma portal_leaf_tree dir pos lo hi :
  sector_at 256 portal_example pos dir ->
  pos <> 0 ->
  numFiles_of dir < NUMFILELOC ->
  fenced dir lo hi = true ->
  dir_child dir 0 = 0 ->
  tree_at (portal_node_at 256 portal_example) 1 pos lo hi (dir_entries dir).
Proof. intros. apply tree_leaf; auto. split; auto. Qed.

Lemma portal_example_tree :
  tree_at (portal_node_at 256 portal_example) 2 1024 (-1) 0x100000000
          portal_entries.
Proof.
  apply (tree_at_eq _ 2 1024 (-1) 0x100000000
           (inorder [dir_entries portal_left; dir_entries portal_right]
                    (dir_entries portal_root)));
    try reflexivity.
  apply tree_branch.
  - split; [lia | by_computation].
  - by_computation.
  - by_computation.
  - by_computation.
  - by_computation.
  - intros i Hi.
    assert (Hi' : i = 0 \/ i = 1)
      by (change (numFiles_of portal_root) with 1 in Hi; lia).
    destruct Hi' as [-> | ->].
    + apply (tree_at_eq _ 1 2048 (-1) 0x05000002 (dir_entries portal_left));
        try reflexivity.
      apply portal_leaf_tree; try lia; by_computation.
    + apply (tree_at_eq _ 1 3072 0x05000002 0x100000000 (dir_entries portal_right));
        try reflexivity.
      apply portal_leaf_tree; try lia; by_computation.
Qed.

Lemma cell_leaf_tree secs pos lo hi :
  secs <> [] ->
  linked 64 cell_example 4 pos secs ->
  4 * (NUMFILELOC + 1 + 3 * numFiles_of (cell_image secs))
  <= Z.of_nat (length (cell_image secs)) ->
  numFiles_of (cell_image secs) < NUMFILELOC ->
  fenced (cell_image secs) lo hi = true ->
  dir_child (cell_image secs) 0 = 0 ->
  tree_at (cell_node_at 64 cell_example) 1 pos lo hi
          (dir_entries (cell_image secs)).
Proof. intros. apply tree_leaf; auto. exists secs. auto. Qed.

Lemma cell_example_tree :
  tree_at (cell_node_at 64 cell_example) 2 1024 (-1) 0x100000000
          cell_entries.
Proof.
  apply (tree_at_eq _ 2 1024 (-1) 0x100000000
           (inorder [dir_entries (cell_image cell_left);
                     dir_entries (cell_image cell_right)]
                    (dir_entries (cell_image cell_root))));
    try reflexivity.
  apply tree_branch.
  - exists cell_root. by_computation.
  - by_computation.
  - by_computation.
  - by_computation.
  - by_computation.
  - intros i Hi.
    assert (Hi' : i = 0 \/ i = 1)
      by (change (numFiles_of (cell_image cell_root)) with 1 in Hi; lia).
    destruct Hi' as [-> | ->].
    + apply (tree_at_eq _ 1 1536 (-1) 0x7F7FFFFF
               (dir_entries (cell_image cell_left)));
        try reflexivity.
      apply cell_leaf_tree; try discriminate; by_computation.
    + apply (tree_at_eq _ 1 2048 0x7F7FFFFF 0x100000000
               (dir_entries (cell_image cell_right)));
        try reflexivity.
      apply cell_leaf_tree; try discriminate; by_computation.
Qed.

Lemma FetchFilePos_lookup_total_witness :
  found (Portal.FetchFilePos 256 2 portal_example 1024 0x05010000 0 0 fresh)
        fresh 7168 80 /\
  not_found (Portal.FetchFilePos 256 2 portal_example 1024 0x05010001 7 9 fresh)
            fresh 7 9 /\
  found (Cell.FetchFilePos 64 2 cell_example 1024 0x0102FFFF 0 0 junk fresh)
        fresh 2816 252 /\
  not_found (Cell.FetchFilePos 64 2 cell_example 1024 0x8000FFFF 7 9 junk fresh)
            fresh 7 9.
Proof.
  repeat split.
  - apply (proj1 (proj1 (FetchFilePos_lookup_total 256 portal_example 2 1024
                           (-1) 0x100000000 portal_entries 0x05010000 0 0 2 fresh
                           ltac:(lia) ltac:(lia)) portal_example_tree)).
    simpl; tauto.
  - apply (proj2 (proj1 (FetchFilePos_lookup_total 256 portal_example 2 1024
                           (-1) 0x100000000 portal_entries 0x05010001 7 9 2 fresh
                           ltac:(lia) ltac:(lia)) portal_example_tree)).
    simpl. intuition discriminate.
  - apply (proj1 (proj2 (FetchFilePos_lookup_total 64 cell_example 2 1024
                           (-1) 0x100000000 cell_entries 0x0102FFFF 0 0 2 fresh
                           ltac:(lia) ltac:(lia)) cell_example_tree junk)).
    simpl; tauto.
  - apply (proj2 (proj2 (FetchFilePos_lookup_total 64 cell_example 2 1024
                           (-1) 0x100000000 cell_entries 0x8000FFFF 7 9 2 fresh
                           ltac:(lia) ltac:(lia)) cell_example_tree junk)).
    simpl. intuition discriminate.
Defined.

Lemma word0_leaf_tree dir pos lo hi :
  sector_at 256 word0_example pos dir ->
  pos <> 0 ->
  numFiles_of dir < NUMFILELOC ->
  fenced dir lo hi = true ->
  word0_child dir 0 = 0 ->
  tree_at_word0 (portal_node_at 256 word0_example) 1 pos lo hi
                (dir_entries dir).
Proof. intros. apply word0_leaf; auto. split; auto. Qed.

Lemma word0_example_tree :
  tree_at_word0 (portal_node_at 256 word0_example) 2 1024 (-1) 0x100000000
                portal_entries.
Proof.
  change portal_entries
    with (inorder [dir_entries word0_left; dir_entries word0_right]
                  (dir_entries word0_root)).
  apply word0_branch.
  - split; [lia | by_computation].
  - by_computation.
  - by_computation.
  - by_computation.
  - by_computation.
  - intros i Hi.
    assert (Hi' : i = 0 \/ i = 1)
      by (change (numFiles_of word0_root) with 1 in Hi; lia).
    destruct Hi' as [-> | ->].
    + change (tree_at_word0 (portal_node_at 256 word0_example) 1 2048
                (-1) 0x05000002 (dir_entries word0_left)).
      apply word0_leaf_tree; try lia; by_computation.
    + change (tree_at_word0 (portal_node_at 256 word0_example) 1 3072
                0x05000002 0x100000000 (dir_entries word0_right)).
      apply word0_leaf_tree; try lia; by_computation.
Qed.

(** C1 as written fails.  The directory of the PORTAL example, laid
    out with the first child in word 0 as the format description has
    it, is a tree in that layout with the same five entries.  Of
    their ids FetchFilePos finds the one in the root only.  For
    04000001 and 05000001, which the left leaf holds, it takes word 1
    of the root, the offset of the right leaf, for child 0, and
    returns 0 there; for 05010000 and 06000000, which the right leaf
    holds, it takes word 2 of the root, which is null, for child 1,
    prints that the directory is null and returns 0. *)
Lemma lookup_word0_layout_counterexample :
  tree_at_word0 (portal_node_at 256 word0_example) 2 1024 (-1) 0x100000000
                portal_entries /\
  In (0x04000001, 5120, 1032) portal_entries /\
  In (0x05000001, 6144, 24) portal_entries /\
  In (0x05010000, 7168, 80) portal_entries /\
  In (0x06000000, 8192, 24) portal_entries /\
  word_at word0_root 0 = 2048 /\ word_at word0_root 1 = 3072 /\
  word_at word0_root 2 = 0 /\
  Portal.FetchFilePos 256 2 word0_example 1024 0x04000001 7 9 fresh
  = Done (mkStream 4096 [1024; 3072] []) (0, (7, 9)) /\
  Portal.FetchFilePos 256 2 word0_example 1024 0x05000001 7 9 fresh
  = Done (mkStream 4096 [1024; 3072] []) (0, (7, 9)) /\
  Portal.FetchFilePos 256 2 word0_example 1024 0x05010000 7 9 fresh
  = Done (mkStream 2048 [1024] [MsgNullDir]) (0, (7, 9)) /\
  Portal.FetchFilePos 256 2 word0_example 1024 0x06000000 7 9 fresh
  = Done (mkStream 2048 [1024] [MsgNullDir]) (0, (7, 9)) /\
  Portal.FetchFilePos 256 2 word0_example 1024 0x05000002 7 9 fresh
  = Done (mkStream 2048 [1024] []) (1, (4096, 20)).
Proof.
  split; [exact word0_example_tree|].
  do 4 (split; [simpl; tauto|]).
  by_computation.
Qed.


(** ** The leaf test and the choice of the child *)

(** C3, as the code has it.  In the array of a node, word 0 is the
    first word of the node's first sector and the child offsets start
    at word 1.  When the scan stops at index [i] and the entry there,
    if any, does not carry the id, FetchFilePos returns 0 if word 1
    is null and otherwise goes on at the offset in word [i + 1]. *)
Theorem FetchFilePos_leaf_test_and_child :
  forall SECSIZE inFile id filePos len fuel pos dir dir0 s,
    1 <= SECSIZE ->
    numFiles_of dir < NUMFILELOC ->
    (scan_index dir id <? numFiles_of dir)
      && (id =? key (dir_entry dir (scan_index dir id))) = false ->
    (portal_node_at SECSIZE inFile pos dir ->
     exists s',
       console s' = console s /\
       Portal.FetchFilePos SECSIZE (S fuel) inFile pos id filePos len s
       = if word_at dir 1 =? 0 then Done s' (0, (filePos, len))
         else Portal.FetchFilePos SECSIZE fuel inFile
                (word_at dir (scan_index dir id + 1)) id filePos len s') /\
    (cell_node_at SECSIZE inFile pos dir ->
     exists s',
       console s' = console s /\
       Cell.FetchFilePos SECSIZE (S fuel) inFile pos id filePos len dir0 s
       = if word_at dir 1 =? 0 then Done s' (0, (filePos, len))
         else Cell.FetchFilePos SECSIZE fuel inFile
                (word_at dir (scan_index dir id + 1)) id filePos len
                (splice dir0 0 dir) s').
Proof.
  intros SECSIZE inFile id filePos len fuel pos dir dir0 s HS HN Hmiss.
  split; intros Hnode.
  - eexists. split; [|rewrite (Portal_step SECSIZE inFile HS id filePos len fuel pos dir s Hnode HN),
                        (search_node_eq dir id HN)].
    2: { cbv zeta. rewrite Hmiss. unfold dir_child. change (0 + 1) with 1.
         destruct (word_at dir 1 =? 0); reflexivity. }
    reflexivity.
  - destruct (Cell_step SECSIZE inFile HS id filePos len fuel pos dir dir0 s Hnode HN)
      as (s' & Hco & Hstep).
    exists s'. split; [exact Hco|].
    rewrite Hstep, (search_node_eq dir id HN). cbv zeta. rewrite Hmiss.
    unfold dir_child. change (0 + 1) with 1.
    destruct (word_at dir 1 =? 0); reflexivity.
Qed.

Lemma FetchFilePos_leaf_test_and_child_witness :
  (exists s',
      Portal.FetchFilePos 256 2 portal_example 1024 0x04000001 0 0 fresh
      = Portal.FetchFilePos 256 1 portal_example 2048 0x04000001 0 0 s') /\
  (exists s',
      Cell.FetchFilePos 64 1 cell_example 1536 0x01020000 7 9 junk fresh
      = Done s' (0, (7, 9))).
Proof.
  split.
  - destruct (proj1 (FetchFilePos_leaf_test_and_child 256 portal_example
                       0x04000001 0 0 1 1024 portal_root junk fresh
                       ltac:(lia) ltac:(by_computation) ltac:(by_computation)))
      as (s' & _ & H).
    + split; [lia | by_computation].
    + exists s'. exact H.
  - destruct (proj2 (FetchFilePos_leaf_test_and_child 64 cell_example
                       0x01020000 7 9 0 1536 (cell_image cell_left) junk fresh
                       ltac:(lia) ltac:(by_computation) ltac:(by_computation)))
      as (s' & _ & H).
    + exists cell_left. by_computation.
    + exists s'. exact H.
Defined.

(** C3 as written fails: the root of the PORTAL example has a null
    word 0, which by the claim makes it a leaf, and the id 04000001
    is not among its entries; yet the lookup does not report a miss:
    it goes on at the offset in word 1 and finds the id there. *)
Lemma leaf_test_word0_counterexample :
  portal_node_at 256 portal_example 1024 portal_root /\
  word_at portal_root 0 = 0 /\
  scan_index portal_root 0x04000001 = 0 /\
  key (dir_entry portal_root 0) <> 0x04000001 /\
  word_at portal_root 1 = 2048 /\
  Portal.FetchFilePos 256 2 portal_example 1024 0x04000001 0 0 fresh
  = Done (mkStream 3072 [1024; 2048] []) (1, (5120, 1032)).
Proof.
  split; [split; [lia | by_computation]|].
  by_computation.
Qed.

(** ** Offsets taken from the first word of a directory sector *)

(** C6 as written fails for the chain of a directory node: the first
    sector of the node at 1024 holds 80000500 in its first word, and
    the FetchFilePos of exc.c and the ReadDir of mapac.c seek to that
    very offset, bit 31 included, although a sector lies at 00000500.
    On the same sectors FetchFile seeks to 00000500. *)
Lemma directory_chain_unmasked_counterexample :
  sector_at 64 two_sector_archive 1024 (filled_sector 64 0x80000500 x11) /\
  word_at (filled_sector 64 0x80000500 x11) 0 = 0x80000500 /\
  sector_at 64 two_sector_archive (low31 0x80000500) (filled_sector 64 0 x22) /\
  seeks (final (Cell.FetchFilePos 64 1 two_sector_archive 1024 0x7F7FFFFF
                                  0 0 junk fresh))
  = [1024; 0x80000500] /\
  seeks (final (Mapac.ReadDir 1 two_sector_archive junk 1024 Mapac.blank
                              fresh))
  = [1024; 0x80000500] /\
  ~ high_bit_clear 0x80000500 /\
  seeks (final (FetchFile 64 2 two_sector_archive 1024 300 (repeat x00 300)
                          fresh))
  = [1024; 0x500].
Proof.
  split; [by_computation|].
  split; [by_computation|].
  split; [by_computation|].
  split; [by_computation|].
  split; [by_computation|].
  split; [unfold high_bit_clear; lia | by_computation].
Qed.

(** ** The landblocks on the map *)

Lemma for_upto_inv {St} (P : Z -> St -> Prop) (body : Z -> St -> io St) n :
  forall i0 st s,
    P i0 st ->
    (forall i st s, i0 <= i < i0 + Z.of_nat n -> P i st ->
                    exists s' st', body i st s = Done s' st' /\ P (i + 1) st') ->
    exists s' st',
      for_upto n i0 body st s = Done s' st' /\ P (i0 + Z.of_nat n) st'.
Proof.
  induction n as [|n IH]; intros i0 st s HP Hbody; cbn [for_upto].
  - exists s, st. rewrite Z.add_0_r. split; [reflexivity | assumption].
  - destruct (Hbody i0 st s ltac:(lia) HP) as (s1 & st1 & Hb & HP1).
    rewrite (bind_done _ _ _ _ _ Hb).
    destruct (IH (i0 + 1) st1 s1 HP1) as (s' & st' & Hrun & HP').
    { intros i st2 s2 Hi. apply Hbody. lia. }
    exists s', st'. split; [exact Hrun|].
    replace (i0 + Z.of_nat (S n)) with (i0 + 1 + Z.of_nat n) by lia.
    exact HP'.
Qed.

Lemma blockX_of_id X Y low :
  0 <= Y < 256 -> 0 <= low < 0x10000 ->
  Mapac.blockX_of (X * 0x1000000 + Y * 0x10000 + low) = X.
Proof.
  intros HY Hl. unfold Mapac.blockX_of.
  rewrite Z.shiftr_div_pow2 by lia. change (2 ^ 24) with 0x1000000.
  symmetry. apply (Z.div_unique _ _ X (Y * 0x10000 + low)); lia.
Qed.

Lemma blockY_of_id X Y low :
  0 <= X -> 0 <= Y < 256 -> 0 <= low < 0x10000 ->
  Mapac.blockY_of (X * 0x1000000 + Y * 0x10000 + low) = Y.
Proof.
  intros HX HY Hl. unfold Mapac.blockY_of.
  change 0x00FF0000 with (Z.shiftl (Z.ones 8) 16).
  rewrite Z.shiftr_land, Z.shiftr_shiftl_l, Z.sub_diag, Z.shiftl_0_r by lia.
  rewrite Z.land_ones, Z.shiftr_div_pow2 by lia.
  change (2 ^ 16) with 0x10000. change (2 ^ 8) with 256.
  replace ((X * 0x1000000 + Y * 0x10000 + low) / 0x10000) with (X * 256 + Y)
    by (apply (Z.div_unique _ _ _ low); lia).
  rewrite Z.add_comm, Z.mod_add by lia. apply Z.mod_small; lia.
Qed.

Section Landblock.
Variable sec : list byte.
Variables X Y : Z.
Hypothesis HX : 0 <= X < 255.
Hypothesis HY : 0 <= Y < 255.

(** The sample of column [x] and row [y] of the landblock. *)
Let sample (x y : Z) : Mapac.landData :=
  Mapac.mkLand (Mapac.typeData sec (x * 9 + y)) (Mapac.zData sec (x * 9 + y)) 1.

Let placed (done : Z -> Z -> Prop) (land : Mapac.landmap) : Prop :=
  forall x y, 0 <= x <= 8 -> 0 <= y <= 8 -> done x y ->
              land (2041 - 8 * Y - 1 - y) (8 * X + x) = sample x y.

Lemma write_point_placed x y (done : Z -> Z -> Prop) land s :
  0 <= x <= 8 -> 0 <= y <= 8 ->
  placed done land ->
  exists s' land',
    Mapac.write_point sec (u32 (X * 8)) (u32 (Mapac.LANDSIZE - Y * 8 - 1))
                      x y land s = Done s' land'
    /\ placed (fun x' y' => done x' y' \/ (x' = x /\ y' = y)) land'.
Proof.
  intros Hx Hy Hp. unfold Mapac.write_point. cbv zeta.
  unfold Mapac.LANDSIZE, u32.
  rewrite (Z.mod_small (X * 8)) by lia.
  rewrite (Z.mod_small (2041 - Y * 8 - 1)) by lia.
  rewrite (Z.mod_small (2041 - Y * 8 - 1 - y)) by lia.
  rewrite (Z.mod_small (X * 8 + x)) by lia.
  match goal with
  | |- context [bind (if ?c then _ else _)] => destruct c
  end; unfold bind, printf, ret; eexists; eexists; (split; [reflexivity|]).
  all: intros x' y' Hx' Hy' Hd; unfold Mapac.land_set.
  all: destruct (Z.eqb_spec (2041 - 8 * Y - 1 - y') (2041 - Y * 8 - 1 - y));
    destruct (Z.eqb_spec (8 * X + x') (X * 8 + x)); cbn [andb].
  all: try (replace x' with x by lia; replace y' with y by lia; reflexivity).
  all: destruct Hd as [Hd | (-> & ->)]; try lia; apply Hp; auto.
Qed.

Lemma writeLandData_placed land s :
  exists s' land',
    Mapac.writeLandData sec X Y land s = Done s' land'
    /\ placed (fun _ _ => True) land'.
Proof.
  unfold Mapac.writeLandData. cbv zeta.
  destruct (for_upto_inv
              (fun xi land => placed (fun x' _ => x' < xi) land)
              (fun x land =>
                 for_upto 9 0
                   (Mapac.write_point sec (u32 (X * 8))
                      (u32 (Mapac.LANDSIZE - Y * 8 - 1)) x) land)
              9 0 land s) as (s' & land' & Hrun & Hp).
  - intros x y Hx Hy Hd. lia.
  - intros x land1 s1 Hx Hp1.
    destruct (for_upto_inv
                (fun yi land => placed (fun x' y' => x' < x \/ (x' = x /\ y' < yi)) land)
                (Mapac.write_point sec (u32 (X * 8))
                   (u32 (Mapac.LANDSIZE - Y * 8 - 1)) x)
                9 0 land1 s1) as (s2 & land2 & Hrun & Hp2).
    + intros x' y' Hx' Hy' Hd. apply Hp1; auto. lia.
    + intros y land3 s3 Hy Hp3.
      destruct (write_point_placed x y _ land3 s3 ltac:(lia) ltac:(lia) Hp3)
        as (s4 & land4 & Hw & Hp4).
      exists s4, land4. split; [exact Hw|].
      intros x' y' Hx' Hy' Hd. apply Hp4; auto. lia.
    + exists s2, land2. split; [exact Hrun|].
      intros x' y' Hx' Hy' Hd. apply Hp2; auto. lia.
  - exists s', land'. split; [exact Hrun|].
    intros x y Hx Hy _. apply Hp; auto. lia.
Qed.
End Landblock.

(** C8, for the indices the code decodes.  ReadDir takes the block
    indices from the second word of the sector it has read, not from
    the id of the directory entry.  For a landblock sector whose own
    id word has [X] in its high byte and [Y] in the next, both below
    255, the call that ReadDir makes of writeLandData returns with
    the map holding, for every column [x] and row [y] from 0 to 8,
    at row [2041 - 8 Y - 1 - y] and column [8 X + x], the type code
    and the height that the sector stores at index [9 x + y] of its
    two tables, and the used flag 1. *)
Theorem writeLandData_placement :
  forall sec X Y low land s,
    0 <= X < 255 -> 0 <= Y < 255 -> 0 <= low < 0x10000 ->
    word_at sec 1 = X * 0x1000000 + Y * 0x10000 + low ->
    exists s' land',
      Mapac.writeLandData sec (Mapac.blockX_of (word_at sec 1))
                          (Mapac.blockY_of (word_at sec 1)) land s
      = Done s' land' /\
      forall x y,
        0 <= x <= 8 -> 0 <= y <= 8 ->
        land' (2041 - 8 * Y - 1 - y) (8 * X + x)
        = Mapac.mkLand (Mapac.typeData sec (x * 9 + y))
                       (Mapac.zData sec (x * 9 + y)) 1.
Proof.
  intros sec X Y low land s HX HY Hlow Hid.
  rewrite Hid, blockX_of_id, blockY_of_id by lia.
  destruct (writeLandData_placed sec X Y HX HY land s) as (s' & land' & Hrun & Hp).
  exists s', land'. split; [exact Hrun|].
  intros x y Hx Hy. apply Hp; auto.
Qed.

Lemma writeLandData_placement_witness :
  exists s' land',
    Mapac.writeLandData (landblock_sector 0x0102FFFF 0x41 50) 1 2
                        Mapac.blank fresh
    = Done s' land' /\
    land' (2041 - 16 - 1) 8 = Mapac.mkLand 0x41 50 1 /\
    land' (2041 - 16 - 9) 16 = Mapac.mkLand 0x41 50 1.
Proof.
  destruct (writeLandData_placement (landblock_sector 0x0102FFFF 0x41 50)
              1 2 0xFFFF Mapac.blank fresh) as (s' & land' & Hrun & Hp);
    try lia.
  - reflexivity.
  - exists s', land'. split; [exact Hrun|]. split.
    + apply (Hp 0 0); lia.
    + apply (Hp 8 8); lia.
Defined.

Lemma misfiled_example_tree :
  tree_at (cell_node_at 64 misfiled_example) 1 1024 (-1) 0x100000000
          [(0x0102FFFF, 1536, 252)].
Proof.
  change [(0x0102FFFF, 1536, 252)]
    with (dir_entries (cell_image misfiled_root)).
  apply tree_leaf.
  - exists misfiled_root. by_computation.
  - by_computation.
  - by_computation.
  - by_computation.
Qed.

(** C8 as written fails.  ReadDir asserts on the id of the directory
    entry and then takes the block indices from the second word of
    the sector it has read; nothing compares the two.  The directory
    of this archive has one landblock entry, with the id 0102FFFF,
    which decodes to (1, 2); the sector at its offset carries
    0304FFFF.  ReadDir counts the landblock and puts each of its 81
    samples in the window of block (3, 4); the window of block
    (1, 2), where the claim has them, stays blank. *)
Lemma placement_by_key_counterexample :
  tree_at (cell_node_at 64 misfiled_example) 1 1024 (-1) 0x100000000
          [(0x0102FFFF, 1536, 252)] /\
  Mapac.blockX_of 0x0102FFFF = 1 /\ Mapac.blockY_of 0x0102FFFF = 2 /\
  sector_at Mapac.CELLSECSIZE misfiled_example 1536
            (landblock_sector 0x0304FFFF 0x41 50) /\
  word_at (landblock_sector 0x0304FFFF 0x41 50) 1 = 0x0304FFFF /\
  exists s' land',
    Mapac.ReadDir 1 misfiled_example junk 1024 Mapac.blank fresh
    = Done s' (1, land') /\
    forall x y,
      0 <= x <= 8 -> 0 <= y <= 8 ->
      land' (2041 - 8 * 2 - 1 - y) (8 * 1 + x) = Mapac.mkLand 0 0 0 /\
      land' (2041 - 8 * 4 - 1 - y) (8 * 3 + x) = Mapac.mkLand 0x41 50 1.
Proof.
  split; [exact misfiled_example_tree|].
  do 2 (split; [reflexivity|]).
  split; [by_computation|].
  split; [reflexivity|].
  eexists. eexists. split; [vm_compute; reflexivity|].
  intros x y Hx Hy.
  assert (Ex : x = 0 \/ x = 1 \/ x = 2 \/ x = 3 \/ x = 4 \/ x = 5
               \/ x = 6 \/ x = 7 \/ x = 8) by lia.
  assert (Ey : y = 0 \/ y = 1 \/ y = 2 \/ y = 3 \/ y = 4 \/ y = 5
               \/ y = 6 \/ y = 7 \/ y = 8) by lia.
  clear Hx Hy.
  repeat (destruct Ex as [-> | Ex]); try subst x;
    repeat (destruct Ey as [-> | Ey]); try subst y;
    vm_compute; split; reflexivity.
Qed.

(** ** The entries of a tree are in order *)

Lemma ascending_app l1 l2 :
  ascending l1 -> ascending l2 ->
  (forall a b, In a l1 -> In b l2 -> key a < key b) ->
  ascending (l1 ++ l2).
Proof.
  unfold ascending. induction l1 as [|x l1 IH]; intros H1 H2 H12; cbn [app map].
  - exact H2.
  - apply StronglySorted_inv in H1. destruct H1 as (H1 & Hx).
    constructor.
    + apply IH; auto. intros a b Ha Hb. apply H12; [right|]; assumption.
    + rewrite map_app. apply Forall_app. split; [exact Hx|].
      apply Forall_forall. intros k Hk. apply in_map_iff in Hk.
      destruct Hk as (b & <- & Hb). apply H12; [left; reflexivity | exact Hb].
Qed.

Lemma ascending_cons e l :
  ascending l -> (forall b, In b l -> key e < key b) -> ascending (e :: l).
Proof.
  intros Hl He. unfold ascending. cbn [map]. constructor; [exact Hl|].
  apply Forall_forall. intros k Hk. apply in_map_iff in Hk.
  destruct Hk as (b & <- & Hb). now apply He.
Qed.

Lemma interleaved_inorder :
  forall subs es lo hi,
    interleaved lo subs es hi ->
    ascending (inorder subs es) /\
    Forall (fun x => lo < key x < hi) (inorder subs es).
Proof.
  induction subs as [|sub subs IH]; intros es lo hi H; [destruct H|].
  destruct H as (Hsub & H). destruct es as [|e es]; cbn [inorder].
  - destruct H as (_ & H). auto.
  - destruct H as (Hlt & He & Hrest).
    destruct (IH es (key e) hi Hrest) as (Hasc & Hin).
    rewrite Forall_forall in Hlt, Hin. split.
    + apply ascending_app; auto.
      * apply ascending_cons; auto. intros b Hb. apply (Hin b Hb).
      * intros a b Ha [<- | Hb]; [apply (Hlt a Ha)|].
        specialize (Hlt a Ha). specialize (Hin b Hb). lia.
    + apply Forall_app. split; [|constructor].
      * apply Forall_forall. intros x Hx. specialize (Hlt x Hx). lia.
      * exact He.
      * apply Forall_forall. intros x Hx. specialize (Hin x Hx). lia.
Qed.

Lemma skipn_nth {A} (l : list A) (d : A) k :
  (k < length l)%nat -> skipn k l = nth k l d :: skipn (S k) l.
Proof.
  revert k; induction l as [|x l IH]; intros k Hk; [simpl in Hk; lia|].
  destruct k as [|k]; [reflexivity|].
  cbn [skipn nth]. apply IH. simpl in Hk. lia.
Qed.

Lemma dir_entries_nth dir k :
  (k < Z.to_nat (numFiles_of dir))%nat ->
  nth k (dir_entries dir) (0, 0, 0) = dir_entry dir (Z.of_nat k).
Proof.
  intros Hk. unfold dir_entries.
  rewrite (nth_indep _ (0, 0, 0) (dir_entry dir (Z.of_nat 0)))
    by (rewrite length_map, length_seq; exact Hk).
  rewrite (map_nth (fun i => dir_entry dir (Z.of_nat i))), seq_nth by exact Hk.
  reflexivity.
Qed.

Lemma dir_entries_ascending dir lo hi :
  fenced dir lo hi = true -> ascending (dir_entries dir).
Proof.
  intros Hf. unfold ascending, dir_entries. rewrite map_map.
  assert (H : forall n a,
             Z.of_nat (a + n) <= numFiles_of dir ->
             StronglySorted Z.lt
               (map (fun i => key (dir_entry dir (Z.of_nat i))) (seq a n))).
  { induction n as [|n IH]; intros a Ha; cbn [seq map]; constructor.
    - apply IH. lia.
    - apply Forall_forall. intros k Hk. apply in_map_iff in Hk.
      destruct Hk as (j & <- & Hj). apply in_seq in Hj.
      pose proof (fenced_lt dir lo hi Hf (Z.of_nat a) (Z.of_nat j)
                    ltac:(lia) ltac:(lia) ltac:(lia)) as Hlt.
      rewrite !fence_key in Hlt by lia. exact Hlt. }
  apply H. pose proof (numFiles_nonneg dir). lia.
Qed.

Section Order.
Variable node_at : Z -> list byte -> Prop.

Lemma node_interleaved dir subs lo hi :
  fenced dir lo hi = true ->
  length subs = S (Z.to_nat (numFiles_of dir)) ->
  (forall i, 0 <= i <= numFiles_of dir ->
     ascending (nth (Z.to_nat i) subs []) /\
     forall e, In e (nth (Z.to_nat i) subs []) ->
               fence dir lo hi (i - 1) < key e < fence dir lo hi i) ->
  forall d k,
    (k + d = Z.to_nat (numFiles_of dir))%nat ->
    interleaved (fence dir lo hi (Z.of_nat k - 1))
                (skipn k subs) (skipn k (dir_entries dir)) hi.
Proof.
  intros Hf Hlen Hsub. pose proof (numFiles_nonneg dir) as H0.
  induction d as [|d IH]; intros k Hk.
  - rewrite (skipn_nth subs [] k) by lia.
    rewrite (skipn_all2 (dir_entries dir)) by (rewrite dir_entries_length; lia).
    destruct (Hsub (Z.of_nat k) ltac:(lia)) as (Hasc & Hin).
    rewrite Nat2Z.id in Hasc, Hin.
    cbn [interleaved]. split; [exact Hasc|]. split.
    + apply skipn_all2. lia.
    + apply Forall_forall. intros e He. specialize (Hin e He).
      replace (Z.of_nat k) with (numFiles_of dir) in Hin at 2 by lia.
      rewrite fence_hi in Hin by lia. exact Hin.
  - rewrite (skipn_nth subs [] k) by lia.
    rewrite (skipn_nth (dir_entries dir) (0, 0, 0) k)
      by (rewrite dir_entries_length; lia).
    rewrite dir_entries_nth by lia.
    destruct (Hsub (Z.of_nat k) ltac:(lia)) as (Hasc & Hin).
    rewrite Nat2Z.id in Hasc, Hin.
    cbn [interleaved]. split; [exact Hasc|].
    rewrite <- (fence_key dir lo hi (Z.of_nat k)) by lia. split; [|split].
    + apply Forall_forall. exact Hin.
    + split.
      * apply fenced_lt; auto; lia.
      * pose proof (fenced_lt dir lo hi Hf (Z.of_nat k) (numFiles_of dir)
                      ltac:(lia) ltac:(lia) ltac:(lia)) as Hlt.
        rewrite fence_hi in Hlt by lia. exact Hlt.
    + specialize (IH (S k) ltac:(lia)).
      replace (Z.of_nat (S k) - 1) with (Z.of_nat k) in IH by lia.
      exact IH.
Qed.

Lemma tree_at_ascending h pos lo hi all :
  tree_at node_at h pos lo hi all -> ascending all.
Proof.
  induction 1 as [h pos lo hi dir Hnode HN Hf Hleaf
                 |h pos lo hi dir subs Hnode HN Hf Hbr Hlen Hsub IH].
  - exact (dir_entries_ascending dir lo hi Hf).
  - apply (interleaved_inorder subs (dir_entries dir) lo hi).
    apply (node_interleaved dir subs lo hi Hf Hlen) with (d := Z.to_nat (numFiles_of dir)) (k := 0%nat);
      [|reflexivity].
    intros i Hi. split; [apply IH; exact Hi|].
    apply (tree_at_bounds node_at _ _ _ _ _ (Hsub i Hi)).
Qed.
End Order.

(** ** Probing ids one after the other *)

Lemma lor_low k base i :
  0 <= k -> base mod 2 ^ k = 0 -> 0 <= i < 2 ^ k -> Z.lor base i = base + i.
Proof.
  intros Hk Hb Hi. rewrite <- Z.add_lor_land.
  assert (Hland : Z.land base i = 0); [|rewrite Hland; lia].
  apply Z.bits_inj'. intros n Hn. rewrite Z.land_spec, Z.bits_0.
  destruct (Z.lt_ge_cases n k) as [Hlt | Hge].
  - rewrite (Z.div_mod base (2 ^ k)), Hb, Z.add_0_r, Z.mul_comm by lia.
    rewrite Z.mul_pow2_bits_low by lia. reflexivity.
  - assert (Hin : Z.testbit i n = false); [|rewrite Hin; apply andb_false_r].
    apply Z.testbit_false; [lia|].
    rewrite Z.div_small; [reflexivity|].
    split; [lia|]. apply Z.lt_le_trans with (2 ^ k); [lia|].
    apply Z.pow_le_mono_r; lia.
Qed.

Lemma filter_none {A} (f : A -> bool) l :
  (forall x, In x l -> f x = false) -> filter f l = [].
Proof.
  induction l as [|x l IH]; intros H; [reflexivity|].
  cbn [filter]. rewrite (H x (or_introl eq_refl)).
  apply IH. intros y Hy. apply H. now right.
Qed.

Lemma in_range_skip a b all :
  ~ In a (map key all) ->
  filter (in_range a b) all = filter (in_range (a + 1) b) all.
Proof.
  intros Hnot. apply filter_ext_in. intros e He. unfold in_range.
  assert (key e <> a) by (intros <-; apply Hnot, in_map; exact He).
  destruct (Z.leb_spec a (key e)), (Z.leb_spec (a + 1) (key e)); try lia; reflexivity.
Qed.

Lemma in_range_hit a b all :
  ascending all -> a < b ->
  forall e, In e all -> key e = a ->
    filter (in_range a b) all = e :: filter (in_range (a + 1) b) all.
Proof.
  unfold ascending. induction all as [|x rest IH]; intros Hs Hab e He Hk; [destruct He|].
  cbn [map] in Hs. apply StronglySorted_inv in Hs. destruct Hs as (Hs & Hx).
  rewrite Forall_forall in Hx. cbn [filter].
  destruct He as [-> | He].
  - assert (E1 : in_range a b e = true)
      by (unfold in_range; rewrite Hk;
          destruct (Z.leb_spec a a), (Z.ltb_spec a b); try lia; reflexivity).
    assert (E2 : in_range (a + 1) b e = false)
      by (unfold in_range; rewrite Hk;
          destruct (Z.leb_spec (a + 1) a); try lia; reflexivity).
    rewrite E1, E2. f_equal.
    apply filter_ext_in. intros y Hy. unfold in_range.
    specialize (Hx (key y) (in_map key _ _ Hy)).
    destruct (Z.leb_spec a (key y)), (Z.leb_spec (a + 1) (key y)); try lia; reflexivity.
  - specialize (Hx (key e) (in_map key _ _ He)).
    assert (E1 : in_range a b x = false)
      by (unfold in_range; destruct (Z.leb_spec a (key x)); try lia; reflexivity).
    assert (E2 : in_range (a + 1) b x = false)
      by (unfold in_range; destruct (Z.leb_spec (a + 1) (key x)); try lia; reflexivity).
    rewrite E1, E2. apply IH; auto.
Qed.

Lemma same_prefix16_range base all :
  base mod 0x10000 = 0 ->
  filter (in_range base (base + 0x10000)) all = filter (same_prefix16 base) all.
Proof.
  intros Hb. apply filter_ext. intros e. unfold in_range, same_prefix16.
  pose proof (Z.div_mod base 0x10000 ltac:(lia)) as Hd. rewrite Hb in Hd.
  pose proof (Z.div_mod (key e) 0x10000 ltac:(lia)) as He.
  pose proof (Z.mod_pos_bound (key e) 0x10000 ltac:(lia)) as Hm.
  destruct (Z.leb_spec base (key e)), (Z.ltb_spec (key e) (base + 0x10000)),
    (Z.eqb_spec (key e / 0x10000) (base / 0x10000)); cbn [andb]; try reflexivity; lia.
Qed.

Lemma of_type_range t all :
  filter (in_range (t * 0x1000000) (t * 0x1000000 + 0x1000000)) all
  = filter (of_type t) all.
Proof.
  apply filter_ext. intros e. unfold in_range, of_type.
  pose proof (Z.div_mod (key e) 0x1000000 ltac:(lia)) as He.
  pose proof (Z.mod_pos_bound (key e) 0x1000000 ltac:(lia)) as Hm.
  destruct (Z.leb_spec (t * 0x1000000) (key e)),
    (Z.ltb_spec (key e) (t * 0x1000000 + 0x1000000)),
    (Z.eqb_spec (key e / 0x1000000) t); cbn [andb]; try reflexivity; lia.
Qed.

Section Probe.
Variable inFile : archive.
Variables root lo hi : Z.
Variable h : nat.
Variable all : list entry.
Hypothesis Htree : tree_at (portal_node_at 256 inFile) h root lo hi all.
Variable fuel : nat.
Hypothesis Hfuel : (h <= fuel)%nat.
Variables base width : Z.
Hypothesis Hwidth : 0 <= width.
Hypothesis Hbase : base mod 2 ^ width = 0.

(** Probing [n] ids from [base | i] on, inside the [width] low bits
    that [base] leaves clear. *)
Lemma probe_from_hits n :
  forall i filePos len s,
    0 <= i -> i + Z.of_nat n <= 2 ^ width ->
    exists s',
      Acbmp.probe_from n fuel inFile root base i filePos len s
      = Done s' (filter (in_range (base + i) (base + i + Z.of_nat n)) all)
      /\ console s' = console s.
Proof.
  pose proof (tree_at_ascending _ _ _ _ _ _ Htree) as Hasc.
  induction n as [|n IH]; intros i filePos len s Hi Hn; cbn [Acbmp.probe_from].
  - exists s. split; [|reflexivity]. unfold ret. f_equal.
    symmetry. apply filter_none. intros e _. unfold in_range.
    destruct (Z.leb_spec (base + i) (key e)), (Z.ltb_spec (key e) (base + i + Z.of_nat 0));
      try reflexivity; lia.
  - rewrite (lor_low width) by (auto; lia).
    destruct (Portal_lookup 256 inFile ltac:(lia) (base + i) filePos len
                h root lo hi all Htree fuel s Hfuel) as (Hfound & Hmiss).
    fold Portal.SECSIZE in Hfound, Hmiss.
    replace (base + i + Z.of_nat (S n)) with (base + (i + 1) + Z.of_nat n) by lia.
    destruct (in_dec Z.eq_dec (base + i) (map key all)) as [Hin | Hnot].
    + apply in_map_iff in Hin. destruct Hin as (((k & o) & l) & Hk & Hin).
      cbn [key fst] in Hk. subst k.
      destruct (Hfound o l Hin) as (s1 & Hrun & Hco1).
      rewrite (bind_done _ _ _ _ _ Hrun). cbv beta iota.
      destruct (IH (i + 1) o l s1 ltac:(lia) ltac:(lia)) as (s2 & Hrest & Hco2).
      rewrite (bind_done _ _ _ _ _ Hrest).
      exists s2. split; [|congruence].
      cbn [Z.eqb negb]. unfold ret. f_equal.
      rewrite (in_range_hit (base + i) (base + (i + 1) + Z.of_nat n) all Hasc
                 ltac:(lia) (base + i, o, l) Hin eq_refl).
      replace (base + i + 1) with (base + (i + 1)) by lia. reflexivity.
    + destruct (Hmiss Hnot) as (s1 & Hrun & Hco1).
      rewrite (bind_done _ _ _ _ _ Hrun). cbv beta iota.
      destruct (IH (i + 1) filePos len s1 ltac:(lia) ltac:(lia)) as (s2 & Hrest & Hco2).
      rewrite (bind_done _ _ _ _ _ Hrest).
      exists s2. split; [|congruence].
      cbn [Z.eqb negb]. unfold ret. f_equal.
      rewrite (in_range_skip (base + i) _ all Hnot).
      replace (base + i + 1) with (base + (i + 1)) by lia. reflexivity.
Qed.
End Probe.

(** The passes of acbmp.c: 65536 probes. *)
Lemma probe_hits inFile root lo hi h all fuel base filePos len s :
  tree_at (portal_node_at 256 inFile) h root lo hi all ->
  (h <= fuel)%nat ->
  base mod 0x10000 = 0 ->
  exists s',
    Acbmp.probe fuel inFile root base filePos len s
    = Done s' (filter (same_prefix16 base) all)
    /\ console s' = console s.
Proof.
  intros Htree Hfuel Hbase. unfold Acbmp.probe.
  destruct (probe_from_hits inFile root lo hi h all Htree fuel Hfuel base 16
              ltac:(lia) Hbase (Z.to_nat 65536) 0 filePos len s
              ltac:(lia)
              ltac:(rewrite Z2Nat.id by lia; change (2 ^ 16) with 65536; lia))
    as (s' & Hrun & Hco).
  exists s'. split; [|exact Hco].
  rewrite Hrun, Z2Nat.id, !Z.add_0_r by lia.
  now rewrite same_prefix16_range.
Qed.

(** A pass over all the ids of a type, if there were one: the loop
    of acbmp.c with 2^24 rounds from [t << 24]. *)
Lemma probe_whole_type inFile root lo hi h all fuel t filePos len s :
  tree_at (portal_node_at 256 inFile) h root lo hi all ->
  (h <= fuel)%nat ->
  exists s',
    Acbmp.probe_from (Z.to_nat 0x1000000) fuel inFile root (t * 0x1000000) 0
                     filePos len s
    = Done s' (filter (of_type t) all)
    /\ console s' = console s.
Proof.
  intros Htree Hfuel.
  destruct (probe_from_hits inFile root lo hi h all Htree fuel Hfuel
              (t * 0x1000000) 24 ltac:(lia)
              ltac:(change (2 ^ 24) with 0x1000000; apply Z.mod_mul; lia)
              (Z.to_nat 0x1000000) 0 filePos len s
              ltac:(lia)
              ltac:(rewrite Z2Nat.id by lia; change (2 ^ 24) with 0x1000000; lia))
    as (s' & Hrun & Hco).
  exists s'. split; [|exact Hco].
  rewrite Hrun, Z2Nat.id, !Z.add_0_r by lia.
  now rewrite of_type_range.
Qed.

Lemma ascending_filter (f : entry -> bool) l :
  ascending l -> ascending (filter f l).
Proof.
  unfold ascending. induction l as [|e l IH]; intros H; cbn [filter map].
  - constructor.
  - cbn [map] in H. apply StronglySorted_inv in H. destruct H as (Hs & Hall).
    destruct (f e); cbn [map]; [|now apply IH].
    constructor; [now apply IH|].
    rewrite Forall_forall in *. intros k Hk.
    apply in_map_iff in Hk. destruct Hk as (x & <- & Hx).
    apply filter_In in Hx. apply Hall, in_map, Hx.
Qed.

(** C7.  For any type [t], the lookups of the ids [t * 2^24 | i]
    through FetchFilePos, for every value [i] of the low 24 bits
    from 0 up, hit on a well-formed directory exactly the entries
    that the in-order traversal of the tree meets whose id has the
    type [t]: the same ids with the same offsets and lengths, as many
    times, and in the same order, which is ascending in the id.  The
    probing prints nothing. *)
Theorem probe_every_id_is_filtered_traversal :
  forall inFile h root lo hi all fuel t filePos len s,
    tree_at (portal_node_at 256 inFile) h root lo hi all ->
    (h <= fuel)%nat ->
    exists s',
      Acbmp.probe_from (Z.to_nat 0x1000000) fuel inFile root
                       (t * 0x1000000) 0 filePos len s
      = Done s' (filter (of_type t) all)
      /\ ascending all
      /\ ascending (filter (of_type t) all)
      /\ console s' = console s.
Proof.
  intros inFile h root lo hi all fuel t filePos len s Htree Hfuel.
  destruct (probe_whole_type inFile root lo hi h all fuel t filePos len s
              Htree Hfuel) as (s' & Hrun & Hco).
  pose proof (tree_at_ascending _ _ _ _ _ _ Htree) as Hasc.
  exists s'. split; [exact Hrun|]. split; [exact Hasc|].
  split; [|exact Hco].
  apply ascending_filter, Hasc.
Qed.

Lemma probe_every_id_is_filtered_traversal_witness :
  exists s',
    Acbmp.probe_from (Z.to_nat 0x1000000) 2 portal_example 1024
                     (0x05 * 0x1000000) 0 0 0 fresh
    = Done s' [(0x05000001, 6144, 24); (0x05000002, 4096, 20);
               (0x05010000, 7168, 80)].
Proof.
  destruct (probe_every_id_is_filtered_traversal portal_example 2 1024 (-1)
              0x100000000 portal_entries 2 0x05 0 0 fresh portal_example_tree
              (Nat.le_refl 2)) as (s' & H & _).
  exists s'. exact H.
Defined.

(** The passes of acbmp.c themselves run 65536 rounds each: a pass
    probes the ids [base | i], [i] from 0 up, where [base]
    (05000000, then 06000000) has its low 16 bits clear.  On a
    well-formed directory the ids at which FetchFilePos returns 1,
    with the offset and length it leaves in the cells, are exactly
    the entries that the in-order traversal of the tree meets whose
    id has the upper 16 bits of [base], in the same order; the
    probing prints nothing. *)
Lemma pass_is_filtered_traversal :
  forall inFile h root lo hi all fuel base filePos len s,
    tree_at (portal_node_at 256 inFile) h root lo hi all ->
    (h <= fuel)%nat ->
    base mod 0x10000 = 0 ->
    ascending all /\
    exists s',
      Acbmp.probe fuel inFile root base filePos len s
      = Done s' (filter (same_prefix16 base) all)
      /\ console s' = console s.
Proof.
  intros inFile h root lo hi all fuel base filePos len s Htree Hfuel Hbase.
  split.
  - exact (tree_at_ascending _ _ _ _ _ _ Htree).
  - exact (probe_hits inFile root lo hi h all fuel base filePos len s Htree Hfuel Hbase).
Qed.

(** The first pass on the PORTAL example: of the three entries of
    type 05 it reaches the two whose ids begin with 0500; the id
    05010000 is outside the 65536 ids it probes. *)
Example first_pass_on_portal_example :
  filter (of_type 0x05) portal_entries
  = [(0x05000001, 6144, 24); (0x05000002, 4096, 20); (0x05010000, 7168, 80)] /\
  exists s',
    Acbmp.probe 2 portal_example 1024 0x05000000 0 0 fresh
    = Done s' [(0x05000001, 6144, 24); (0x05000002, 4096, 20)].
Proof.
  split; [reflexivity|].
  destruct (pass_is_filtered_traversal portal_example 2 1024 (-1) 0x100000000
              portal_entries 2 0x05000000 0 0 fresh portal_example_tree
              ltac:(lia) ltac:(reflexivity)) as (_ & s' & H & _).
  exists s'. rewrite H. reflexivity.
Qed.

(** ** The palette of a texture *)

Lemma palPtrs_index_floor W H :
  0 <= W * H < 0x100000000 ->
  Acbmp.palPtrs_index W H = 4 + W * H / 4 /\
  (Acbmp.palPtrs_index W H = 4 + (W * H + 3) / 4 <-> (W * H) mod 4 = 0).
Proof.
  intros Hr. unfold Acbmp.palPtrs_index, u32.
  rewrite (Z.mul_comm H W), Z.mod_small by lia.
  split; [lia|].
  pose proof (Z.div_mod (W * H) 4 ltac:(lia)).
  pose proof (Z.mod_pos_bound (W * H) 4 ltac:(lia)).
  pose proof (Z.div_mod (W * H + 3) 4 ltac:(lia)).
  pose proof (Z.mod_pos_bound (W * H + 3) 4 ltac:(lia)).
  lia.
Qed.

(** C9 at the texture of one pixel.  The record holds its header in
    words 0..3, its single index byte, padded, in word 4 and the id of
    its palette in word 5, which is where skipping the index bytes
    rounded up to whole words leads.  acbmp.c divides the byte count
    by 4, rounding down: it moves [palPtrs] to word 4 and takes the
    index byte and its padding for the palette id. *)
Theorem palette_key_rounds_down :
  Acbmp.imageType one_pixel_texture = 2 /\
  Acbmp.imageW one_pixel_texture = 1 /\
  Acbmp.imageH one_pixel_texture = 1 /\
  word_at one_pixel_texture (4 + (1 * 1 + 3) / 4) = 0x04000001 /\
  Acbmp.palPtrs_index 1 1 = 4 /\
  Acbmp.palette_key one_pixel_texture = 0.
Proof. by_computation. Qed.

(** ** Runs on the example archives *)

(** The walk of mapac.c over the CELL example: two landblocks, laid
    on the blank map where their ids say, the rest untouched. *)
Example ReadDir_example :
  match Mapac.ReadDir 2 cell_example junk 1024 Mapac.blank fresh with
  | Done s (found, land) =>
    found = 2 /\ console s = [] /\
    land (2041 - 8 * 2 - 1) (8 * 1) = Mapac.mkLand 0x41 50 1 /\
    land (2041 - 8 * 2 - 1 - 8) (8 * 1 + 8) = Mapac.mkLand 0x41 50 1 /\
    land (2041 - 8 * 0x7F - 1 - 3) (8 * 0x7F + 2) = Mapac.mkLand 0x0C 30 1 /\
    land 0 0 = Mapac.mkLand 0 0 0
  | _ => False
  end.
Proof. by_computation. Qed.

(** The ways a lookup fails, each with the cells as they were: a null
    directory offset, an offset the stream cannot seek to, a sector
    cut short by the end of the file, a count of entries out of range,
    an id that is not there. *)
Example FetchFilePos_failures :
  Portal.FetchFilePos 256 2 portal_example 0 0x05000001 7 9 fresh
  = Done (mkStream 0 [] [MsgNullDir]) (0, (7, 9)) /\
  Portal.FetchFilePos 256 2 portal_example 0x80000000 0x05000001 7 9 fresh
  = Done (mkStream 0 [0x80000000] [MsgSeekBeyond]) (0, (7, 9)) /\
  Portal.FetchFilePos 256 2 portal_example 4000 0x05000001 7 9 fresh
  = Done (mkStream 4096 [4000] [MsgShortDir]) (0, (7, 9)) /\
  Cell.FetchFilePos 64 2 two_sector_archive 1280 0x05000001 7 9 junk fresh
  = Done (mkStream 1536 [1280] [MsgNumFiles]) (0, (7, 9)) /\
  Cell.FetchFilePos 64 2 cell_example 1024 0x0102FFFE 7 9 junk fresh
  = Done (mkStream 2048 [1024; 1280; 1536; 1792] []) (0, (7, 9)).
Proof. by_computation. Qed.

(** The record of S5: its length is one payload, its one sector
    closes the chain, and FetchFile reads that sector only. *)
Example FetchFile_one_payload :
  FetchFile 64 1 one_sector_archive 1024 252 (repeat x00 252) fresh
  = Done (mkStream 1280 [1024] []) (1, repeat x11 252).
Proof. by_computation. Qed.

(** * Further properties of the readers *)

(** ** FetchFile on a chain longer than its record *)

(** X1.  FetchFile does not stop when the record is complete.  On a chain
    of [k >= 1] sectors that hold at least the [L] bytes of the
    record, however many more, it seeks to every sector of the chain
    up to the null offset that closes it, returns 1 and leaves in
    the block the first [L] bytes of the payloads: the sectors after
    the end of the record add nothing. *)
Theorem FetchFile_follows_whole_chain :
  forall SECSIZE inFile fuel pos L secs buf s,
    2 <= SECSIZE -> 0 <= L ->
    secs <> [] ->
    chain_at SECSIZE inFile pos secs ->
    L <= Z.of_nat (length secs) * payload_size SECSIZE ->
    length buf = Z.to_nat L ->
    (length secs <= fuel)%nat ->
    exists p,
      FetchFile SECSIZE fuel inFile pos L buf s
      = Done (mkStream p (seeks s ++ chain_offsets pos secs) (console s))
             (1, firstn (Z.to_nat L) (concat (map payload secs))).
Proof.
  intros SECSIZE inFile fuel pos L secs buf s HS HL Hne Hch Hk Hbuf Hfuel.
  assert (Hpos : pos <> 0) by (destruct secs; [congruence | simpl in Hch; tauto]).
  unfold FetchFile. apply Z.eqb_neq in Hpos. rewrite Hpos.
  destruct (FetchFile_loop_chain SECSIZE inFile ltac:(lia) secs fuel pos L buf 0 s)
    as (p & Hp); auto; try lia.
  exists p. rewrite Hp. apply done_eq.
  pose proof (chain_at_payloads SECSIZE inFile ltac:(lia) pos secs Hch) as Hlen.
  assert (HP : 0 <= payload_size SECSIZE) by (unfold payload_size; lia).
  unfold splice. change (Z.to_nat 0) with 0%nat. cbn [firstn app Nat.add].
  rewrite skipn_all2, app_nil_r; [reflexivity|].
  rewrite length_firstn, Hlen, Hbuf. nia.
Qed.

Lemma FetchFile_follows_whole_chain_witness :
  exists p,
    FetchFile 64 2 two_sector_archive 1024 100 (repeat x00 100) fresh
    = Done (mkStream p [1024; 1280] []) (1, repeat x11 100).
Proof.
  destruct (FetchFile_follows_whole_chain 64 two_sector_archive 2 1024 100
              [filled_sector 64 0x80000500 x11; filled_sector 64 0 x22]
              (repeat x00 100) fresh) as (p & Hp).
  - lia.
  - lia.
  - discriminate.
  - vm_compute. repeat split; congruence.
  - vm_compute. discriminate.
  - reflexivity.
  - simpl; lia.
  - exists p. rewrite Hp. reflexivity.
Defined.

(** ** FetchFile and the caller's block *)

Lemma nth_error_splice_outside {A} (dst data : list A) off n k :
  (off + n <= length dst)%nat -> (length data <= n)%nat ->
  (k < off \/ off + n <= k)%nat ->
  nth_error (splice dst off data) k = nth_error dst k.
Proof.
  intros Hfit Hdata Hk. unfold splice.
  destruct Hk as [Hk | Hk].
  - rewrite nth_error_app1 by (rewrite length_firstn; lia).
    rewrite nth_error_firstn.
    destruct (Nat.ltb_spec k off); [reflexivity | lia].
  - rewrite nth_error_app2 by (rewrite length_firstn; lia).
    rewrite nth_error_app2 by (rewrite length_firstn; lia).
    rewrite nth_error_skipn, length_firstn. f_equal. lia.
Qed.

Lemma splice_keeps_length {A} (dst data : list A) off :
  (off + length data <= length dst)%nat ->
  length (splice dst off data) = length dst.
Proof.
  intros H. unfold splice.
  rewrite !length_app, length_firstn, length_skipn. lia.
Qed.

Lemma memcpy_kept buf off src n :
  0 <= off -> 0 <= n ->
  (Z.to_nat off + Z.to_nat n <= length buf)%nat ->
  length (memcpy buf off src n) = length buf /\
  forall k, (k < Z.to_nat off \/ Z.to_nat off + Z.to_nat n <= k)%nat ->
            nth_error (memcpy buf off src n) k = nth_error buf k.
Proof.
  intros Hoff Hn Hfit. unfold memcpy.
  assert (Hd : (length (firstn (Z.to_nat n) src) <= Z.to_nat n)%nat)
    by (rewrite length_firstn; lia).
  split.
  - apply splice_keeps_length. lia.
  - intros k Hk. apply (nth_error_splice_outside _ _ _ (Z.to_nat n)); auto.
Qed.

Lemma FetchFile_loop_block SECSIZE inFile fuel :
  1 <= SECSIZE ->
  forall pos len buf off s,
    0 <= len -> 0 <= off ->
    (Z.to_nat off + Z.to_nat len <= length buf)%nat ->
    block_kept buf (Z.to_nat off) (Z.to_nat len)
      (FetchFile_loop SECSIZE fuel inFile pos len buf off s).
Proof.
  intros HS.
  induction fuel as [|fuel IH]; intros pos len buf off s Hlen Hoff Hfit;
    [exact I|].
  cbn [FetchFile_loop]. unfold bind at 1, fseek.
  destruct (seekable inFile pos); cbn [Z.eqb negb];
    [|split; auto].
  unfold bind at 1, fread. cbn [fpos seeks console].
  match goal with |- context [negb ?c] => destruct (negb c) end;
    [split; auto|].
  match goal with |- context [skipn 4 ?l] => set (sec := l) end.
  set (next := Z.land (word_at sec 0) 0x7FFFFFFF).
  set (s1 := mkStream _ _ _).
  destruct (Z.gtb_spec len ((SECSIZE - 1) * 4)) as [Hgt | Hle].
  - destruct (memcpy_kept buf off (skipn 4 sec) ((SECSIZE - 1) * 4))
      as (L1 & K1); try lia.
    destruct (next =? 0); [split; [exact L1 | intros k Hk; apply K1; lia]|].
    specialize (IH next (len - (SECSIZE - 1) * 4)
                   (memcpy buf off (skipn 4 sec) ((SECSIZE - 1) * 4))
                   (off + (SECSIZE - 1) * 4) s1).
    destruct (FetchFile_loop SECSIZE fuel inFile next _ _ _ s1)
      as [s2 [r buf2] | |]; try exact I.
    destruct IH as (L2 & K2); try lia.
    split; [congruence|].
    intros k Hk. rewrite K2 by lia. apply K1. lia.
  - destruct (memcpy_kept buf off (skipn 4 sec) len) as (L1 & K1); try lia.
    destruct (next =? 0); [split; [exact L1 | exact K1]|].
    specialize (IH next 0 (memcpy buf off (skipn 4 sec) len) off s1).
    destruct (FetchFile_loop SECSIZE fuel inFile next _ _ _ s1)
      as [s2 [r buf2] | |]; try exact I.
    destruct IH as (L2 & K2); try lia.
    split; [congruence|].
    intros k Hk. rewrite K2 by lia. apply K1. lia.
Qed.

(** X2.  Whatever the archive holds -- a chain that is too long, that
    runs into the end of the file, or that leads anywhere -- and
    whatever it returns, FetchFile called for [len] bytes on a block
    of at least [len] bytes gives the block back with the length it
    had and with every byte from index [len] on as it was. *)
Theorem FetchFile_stays_in_block :
  forall SECSIZE inFile fuel filePos len buf s,
    1 <= SECSIZE -> 0 <= len ->
    (Z.to_nat len <= length buf)%nat ->
    match FetchFile SECSIZE fuel inFile filePos len buf s with
    | Done _ (_, buf') =>
      length buf' = length buf /\
      forall k, (Z.to_nat len <= k)%nat ->
                nth_error buf' k = nth_error buf k
    | _ => True
    end.
Proof.
  intros SECSIZE inFile fuel filePos len buf s HS Hlen Hfit.
  unfold FetchFile. destruct (filePos =? 0); [split; auto|].
  pose proof (FetchFile_loop_block SECSIZE inFile fuel HS filePos len buf 0 s
                Hlen ltac:(lia) ltac:(simpl; lia)) as H.
  unfold block_kept in H.
  destruct (FetchFile_loop SECSIZE fuel inFile filePos len buf 0 s)
    as [s' [r buf'] | |]; auto.
  destruct H as (L & K). split; [exact L|].
  intros k Hk. apply K. simpl. lia.
Qed.

Lemma FetchFile_stays_in_block_witness :
  match FetchFile 64 2 two_sector_archive 1024 300 (repeat xff 400) fresh with
  | Done _ (_, buf') =>
    length buf' = 400%nat /\ nth_error buf' 300 = Some xff
  | _ => True
  end.
Proof.
  pose proof (FetchFile_stays_in_block 64 two_sector_archive 2 1024 300
                (repeat xff 400) fresh ltac:(lia) ltac:(lia)
                ltac:(vm_compute; lia)) as H.
  destruct (FetchFile 64 2 two_sector_archive 1024 300 (repeat xff 400) fresh)
    as [s' [r buf'] | |]; auto.
  destruct H as (L & K). split; [exact L|].
  apply (K 300%nat). vm_compute. lia.
Defined.

(** ** What FetchFile prints *)

Lemma FetchFile_loop_aloud SECSIZE inFile fuel :
  forall pos len buf off s,
    fails_aloud s (FetchFile_loop SECSIZE fuel inFile pos len buf off s).
Proof.
  induction fuel as [|fuel IH]; intros pos len buf off s; [reflexivity|].
  cbn [FetchFile_loop]. unfold bind at 1, fseek.
  destruct (seekable inFile pos); cbn [Z.eqb negb];
    [|right; split; [reflexivity | eexists; reflexivity]].
  unfold bind at 1, fread. cbn [fpos seeks console].
  match goal with |- context [negb ?c] => destruct (negb c) end;
    [right; split; [reflexivity | eexists; reflexivity]|].
  match goal with |- context [skipn 4 ?l] => set (sec := l) end.
  set (next := Z.land (word_at sec 0) 0x7FFFFFFF).
  set (s1 := mkStream _ _ _).
  assert (Hs1 : console s1 = console s) by reflexivity.
  destruct (len >? (SECSIZE - 1) * 4);
    (destruct (next =? 0); [left; split; reflexivity|]).
  - specialize (IH next (len - (SECSIZE - 1) * 4)
                   (memcpy buf off (skipn 4 sec) ((SECSIZE - 1) * 4))
                   (off + (SECSIZE - 1) * 4) s1).
    unfold fails_aloud in *. rewrite Hs1 in IH. exact IH.
  - specialize (IH next 0 (memcpy buf off (skipn 4 sec) len) off s1).
    unfold fails_aloud in *. rewrite Hs1 in IH. exact IH.
Qed.

Lemma FetchFile_aloud SECSIZE inFile fuel filePos len buf s :
  fails_aloud s (FetchFile SECSIZE fuel inFile filePos len buf s).
Proof.
  unfold FetchFile. destruct (filePos =? 0).
  - right. split; [reflexivity | eexists; reflexivity].
  - apply FetchFile_loop_aloud.
Qed.

(** X3.  Whatever the archive holds, FetchFile returns 1 having printed
    nothing, or returns 0 having printed one line; it returns nothing
    else and has no assert to fail. *)
Theorem FetchFile_fails_aloud :
  forall SECSIZE inFile fuel filePos len buf s,
    match FetchFile SECSIZE fuel inFile filePos len buf s with
    | Done s' (r, _) =>
      (r = 1 /\ console s' = console s) \/
      (r = 0 /\ exists m, console s' = console s ++ [m])
    | Aborted _ => False
    | OutOfFuel s' => console s' = console s
    end.
Proof. intros. apply FetchFile_aloud. Qed.

(** ** FetchFile on a chain that never closes *)

Lemma FetchFile_loop_endless SECSIZE inFile at_ fuel :
  1 <= SECSIZE ->
  endless SECSIZE inFile at_ ->
  forall n len buf off s,
    exists s', FetchFile_loop SECSIZE fuel inFile (at_ n) len buf off s
               = OutOfFuel s'.
Proof.
  intros HS He.
  induction fuel as [|fuel IH]; intros n len buf off s;
    [eexists; reflexivity|].
  destruct (He n) as (_ & sec & Hsec & Hnext).
  destruct (He (S n)) as (Hnz & _).
  cbn [FetchFile_loop].
  rewrite (bind_done _ _ _ _ _ (fseek_sector _ _ _ _ s Hsec)).
  cbn [Z.eqb negb].
  rewrite (bind_done _ _ _ _ _ (fread_sector _ _ HS _ _ _ _ Hsec)).
  rewrite Z.eqb_refl. cbn [negb].
  fold (low31 (word_at sec 0)). rewrite Hnext.
  apply Z.eqb_neq in Hnz. rewrite Hnz.
  destruct (len >? (SECSIZE - 1) * 4); apply IH.
Qed.

(** X4.  FetchFile keeps no record of the sectors it has visited.  On a
    chain that never closes -- one that leads back into itself --
    it never returns: however many rounds its loop is granted, it
    uses them up. *)
Theorem FetchFile_endless_chain :
  forall SECSIZE inFile at_ fuel len buf s,
    1 <= SECSIZE ->
    endless SECSIZE inFile at_ ->
    exists s', FetchFile SECSIZE fuel inFile (at_ 0%nat) len buf s
               = OutOfFuel s'.
Proof.
  intros SECSIZE inFile at_ fuel len buf s HS He.
  destruct (He 0%nat) as (Hnz & _).
  unfold FetchFile. apply Z.eqb_neq in Hnz. rewrite Hnz.
  apply FetchFile_loop_endless; auto.
Qed.

Lemma FetchFile_endless_chain_witness :
  exists s', FetchFile 64 5 looping_archive 1024 300 (repeat x00 300) fresh
             = OutOfFuel s'.
Proof.
  apply (FetchFile_endless_chain 64 looping_archive (fun _ => 1024) 5 300
           (repeat x00 300) fresh).
  - lia.
  - intros n. split; [lia|].
    exists (filled_sector 64 1024 x11).
    vm_compute. repeat split; congruence.
Defined.

(** ** The bound on the entries of a node *)

Lemma search_node_too_many dir id :
  NUMFILELOC <= numFiles_of dir -> search_node dir id = TooMany.
Proof.
  intros H. unfold search_node. fold (numFiles_of dir).
  destruct (Z.geb_spec (numFiles_of dir) NUMFILELOC); [reflexivity | lia].
Qed.

(** X5.  The test [numFiles >= NUMFILELOC] keeps the search inside the
    local array.  What [search_node] makes of a node depends on the
    words 0 to 249 of [dir] only, whatever the count of entries the
    node announces: two arrays that agree on these words get the same
    verdict for every id.  The arrays of the sources have 256
    words. *)
Theorem search_node_in_bounds :
  forall d1 d2 id,
    (forall k, 0 <= k < node_words -> word_at d1 k = word_at d2 k) ->
    search_node d1 id = search_node d2 id.
Proof.
  intros d1 d2 id Hw. unfold node_words, NUMFILELOC in Hw.
  assert (HN : numFiles_of d1 = numFiles_of d2)
    by (apply Hw; unfold NUMFILELOC; lia).
  destruct (Z.lt_ge_cases (numFiles_of d2) NUMFILELOC) as [Hlt | Hge].
  - apply search_node_agree; auto.
    intros k Hk. apply Hw. unfold NUMFILELOC in *. lia.
  - rewrite !search_node_too_many by lia. reflexivity.
Qed.

Lemma search_node_in_bounds_witness :
  search_node (portal_root ++ [xff; xff; xff; xff]) 0x05000002
  = search_node portal_root 0x05000002.
Proof.
  apply (search_node_in_bounds (portal_root ++ [xff; xff; xff; xff])
                               portal_root 0x05000002).
  intros k Hk. apply word_at_app; [lia|].
  unfold node_words, NUMFILELOC in Hk.
  change (length portal_root) with 1024%nat. lia.
Defined.

(** X6.  A node that announces 63 entries or more is refused.  When the
    node at [dirPos] can be read and its word [NUMFILELOC] is 63 or
    more, FetchFilePos returns 0 with the caller's cells as they
    were, having printed the line on the number of files and nothing
    else; no entry of the node is looked at.  This holds for the
    one-sector nodes of exp.c and acbmp.c and for the chained nodes
    of exc.c. *)
Theorem FetchFilePos_too_many_entries :
  forall inFile fuel pos id filePos len s,
    (forall dir,
       portal_node_at 256 inFile pos dir ->
       NUMFILELOC <= numFiles_of dir ->
       exists s',
         Portal.FetchFilePos 256 (S fuel) inFile pos id filePos len s
         = Done s' (0, (filePos, len))
         /\ console s' = console s ++ [MsgNumFiles]) /\
    (forall secs dir0,
       secs <> [] ->
       linked 64 inFile 4 pos secs ->
       NUMFILELOC <= numFiles_of (cell_image secs) ->
       exists s',
         Cell.FetchFilePos 64 (S fuel) inFile pos id filePos len dir0 s
         = Done s' (0, (filePos, len))
         /\ console s' = console s ++ [MsgNumFiles]).
Proof.
  intros inFile fuel pos id filePos len s. split.
  - intros dir (Hpos & Hsec) HN.
    cbn [Portal.FetchFilePos].
    apply Z.eqb_neq in Hpos. rewrite Hpos.
    rewrite (bind_done _ _ _ _ _ (fseek_sector _ _ _ _ s Hsec)).
    cbn [Z.eqb negb].
    rewrite (bind_done _ _ _ _ _
               (fread_sector 256 inFile ltac:(lia) _ _ _ _ Hsec)).
    rewrite Z.eqb_refl. cbn [negb].
    rewrite (search_node_too_many dir id HN).
    eexists. split; reflexivity.
  - intros secs dir0 Hne Hl HN.
    assert (Hpos : pos <> 0) by (destruct secs; [congruence | simpl in Hl; tauto]).
    destruct (read_node_image 64 inFile ltac:(lia) pos secs dir0 s Hne Hl)
      as (s' & Hread & Hco).
    cbn [Cell.FetchFilePos].
    apply Z.eqb_neq in Hpos. rewrite Hpos.
    rewrite (bind_done _ _ _ _ _ Hread).
    assert (Hlen : (256 <= length (cell_image secs))%nat).
    { destruct secs as [|s1 rest]; [congruence|].
      destruct Hl as (_ & (_ & _ & Hs1 & _) & _).
      cbn [cell_image]. rewrite length_app, Hs1. lia. }
    assert (HN' : NUMFILELOC <= numFiles_of (splice dir0 0 (cell_image secs))).
    { unfold numFiles_of in *.
      rewrite word_at_splice by (unfold NUMFILELOC; lia). exact HN. }
    rewrite (search_node_too_many _ id HN').
    eexists. unfold bind, printf, ret. split; [reflexivity|].
    cbn [console]. now rewrite Hco.
Qed.

Lemma FetchFilePos_too_many_entries_witness :
  exists s',
    Portal.FetchFilePos 256 1 crowded_directory 1024 0x05000001 7 9 fresh
    = Done s' (0, (7, 9))
    /\ console s' = [MsgNumFiles].
Proof.
  destruct (FetchFilePos_too_many_entries crowded_directory 0 1024
              0x05000001 7 9 fresh) as (HP & _).
  apply (HP (bytes_of_words (pad 256 ([0] ++ pad 62 [] ++ [63])))).
  - vm_compute. repeat split; congruence.
  - vm_compute. congruence.
Defined.

(** ** The last child of a full node *)

(** X7.  A node may announce 62 entries, and then its child offsets run
    into the count: the offset of the child after the last entry is
    read from word [NUMFILELOC], which holds the count itself.  In a
    node of 62 entries that is no leaf, the lookup of an id above all
    62 ids goes on at offset 62. *)
Theorem FetchFilePos_last_child_of_full_node :
  forall inFile fuel pos dir id filePos len s,
    portal_node_at 256 inFile pos dir ->
    numFiles_of dir = NUMFILELOC - 1 ->
    dir_child dir 0 <> 0 ->
    (forall j, 0 <= j < numFiles_of dir -> key (dir_entry dir j) < id) ->
    Portal.FetchFilePos 256 (S fuel) inFile pos id filePos len s
    = Portal.FetchFilePos 256 fuel inFile (NUMFILELOC - 1) id filePos len
        (mkStream (pos + 256 * 4) (seeks s ++ [pos]) (console s)).
Proof.
  intros inFile fuel pos dir id filePos len s Hnode HN Hleaf Hkeys.
  rewrite (Portal_step 256 inFile ltac:(lia) id filePos len fuel pos dir s Hnode)
    by (rewrite HN; unfold NUMFILELOC; lia).
  rewrite search_node_eq by (rewrite HN; unfold NUMFILELOC; lia).
  cbv zeta.
  destruct (scan_index_spec dir id) as (Hr & Hbelow & Hstop).
  assert (Hidx : scan_index dir id = numFiles_of dir).
  { destruct Hstop as [E | Hle]; [exact E|].
    destruct (Z.eq_dec (scan_index dir id) (numFiles_of dir)) as [E | Hne];
      [exact E|].
    specialize (Hkeys (scan_index dir id) ltac:(lia)). lia. }
  rewrite Hidx, Z.ltb_irrefl. cbn [andb].
  apply Z.eqb_neq in Hleaf. rewrite Hleaf.
  unfold dir_child. rewrite HN.
  replace (NUMFILELOC - 1 + 1) with NUMFILELOC by lia.
  fold (numFiles_of dir). rewrite HN. reflexivity.
Qed.

Lemma FetchFilePos_last_child_of_full_node_witness :
  Portal.FetchFilePos 256 2 full_directory 1024 0xFFFFFFFF 7 9 fresh
  = Portal.FetchFilePos 256 1 full_directory 62 0xFFFFFFFF 7 9
      (mkStream 2048 [1024] []).
Proof.
  apply (FetchFilePos_last_child_of_full_node full_directory 1 1024
           (portal_node (repeat 2048 62)
                        (map (fun k => (Z.of_nat k, 0, 0)) (seq 1 62)))
           0xFFFFFFFF 7 9 fresh).
  - vm_compute. repeat split; congruence.
  - reflexivity.
  - vm_compute. congruence.
  - intros j Hj.
    change (numFiles_of _) with 62 in Hj.
    assert (Hall : forallb (fun k =>
                     key (dir_entry
                            (portal_node (repeat 2048 62)
                               (map (fun k => (Z.of_nat k, 0, 0)) (seq 1 62)))
                            (Z.of_nat k)) <? 0xFFFFFFFF)
                     (seq 0 62) = true) by (vm_compute; reflexivity).
    rewrite forallb_forall in Hall.
    specialize (Hall (Z.to_nat j)).
    rewrite Z2Nat.id in Hall by lia.
    apply Z.ltb_lt, Hall, in_seq. lia.
Defined.

(** ** What FetchFilePos prints *)

Lemma Portal_reported SECSIZE inFile id filePos len fuel :
  forall dirPos s,
    lookup_reported s
      (Portal.FetchFilePos SECSIZE fuel inFile dirPos id filePos len s).
Proof.
  induction fuel as [|fuel IH]; intros dirPos s; [reflexivity|].
  cbn [Portal.FetchFilePos].
  destruct (dirPos =? 0);
    [right; split; [reflexivity | right; eexists; reflexivity]|].
  unfold bind at 1, fseek.
  destruct (seekable inFile dirPos); cbn [Z.eqb negb];
    [|right; split; [reflexivity | right; eexists; reflexivity]].
  unfold bind at 1, fread. cbn [fpos seeks console].
  match goal with |- context [negb ?c] => destruct (negb c) end;
    [right; split; [reflexivity | right; eexists; reflexivity]|].
  set (s1 := mkStream _ _ _).
  assert (Hs1 : console s1 = console s) by reflexivity.
  match goal with |- context [search_node ?d id] =>
    destruct (search_node d id)
  end.
  - right; split; [reflexivity | right; eexists; reflexivity].
  - left; split; reflexivity.
  - right; split; [reflexivity | left; reflexivity].
  - specialize (IH dirPos0 s1). unfold lookup_reported in *.
    rewrite Hs1 in IH. exact IH.
Qed.

(** One block of the node chain of exc.c gives its result silently
    or gives up with one line. *)
Lemma follow_reported SECSIZE inFile dirPos dir dst s :
  exists s' r,
    Cell.follow SECSIZE inFile dirPos dir dst s = Done s' r /\
    match r with
    | Some _ => console s' = console s
    | None => exists m, console s' = console s ++ [m]
    end.
Proof.
  unfold Cell.follow.
  destruct (negb (dirPos =? 0));
    [|eexists; eexists; split; reflexivity].
  unfold bind at 1, fseek.
  destruct (seekable inFile dirPos); cbn [Z.eqb negb];
    [|eexists; eexists; split; [reflexivity | eexists; reflexivity]].
  unfold bind at 1, fread. cbn [fpos seeks console].
  match goal with |- context [negb ?c] => destruct (negb c) end;
    [eexists; eexists; split; [reflexivity | eexists; reflexivity]|].
  unfold bind at 1. cbn [fpos seeks console].
  match goal with |- context [negb ?c] => destruct (negb c) end;
    eexists; eexists; (split; [reflexivity|]);
    [eexists; reflexivity | reflexivity].
Qed.

Lemma read_node_reported SECSIZE inFile dirPos dir s :
  exists s' r,
    Cell.read_node SECSIZE inFile dirPos dir s = Done s' r /\
    match r with
    | Some _ => console s' = console s
    | None => exists m, console s' = console s ++ [m]
    end.
Proof.
  unfold Cell.read_node.
  unfold bind at 1, fseek.
  destruct (seekable inFile dirPos); cbn [Z.eqb negb];
    [|eexists; eexists; split; [reflexivity | eexists; reflexivity]].
  unfold bind at 1, fread. cbn [fpos seeks console].
  match goal with |- context [negb ?c] => destruct (negb c) end;
    [eexists; eexists; split; [reflexivity | eexists; reflexivity]|].
  cbv zeta.
  set (s0 := mkStream _ _ _).
  assert (H0 : console s0 = console s) by reflexivity.
  clearbody s0.
  match goal with
  | |- context [bind (Cell.follow ?S ?f ?p ?d ?k) _ s0] =>
    destruct (follow_reported S f p d k s0) as (s1 & r1 & E1 & C1)
  end.
  rewrite (bind_done _ _ _ _ _ E1).
  destruct r1 as [[p1 d1]|]; cbv beta iota;
    [|eexists; eexists; split; [reflexivity | rewrite <- H0; exact C1]].
  match goal with
  | |- context [bind (Cell.follow ?S ?f ?p ?d ?k) _ s1] =>
    destruct (follow_reported S f p d k s1) as (s2 & r2 & E2 & C2)
  end.
  rewrite (bind_done _ _ _ _ _ E2).
  destruct r2 as [[p2 d2]|]; cbv beta iota;
    [|eexists; eexists; split;
      [reflexivity | rewrite <- H0, <- C1; exact C2]].
  match goal with
  | |- context [bind (Cell.follow ?S ?f ?p ?d ?k) _ s2] =>
    destruct (follow_reported S f p d k s2) as (s3 & r3 & E3 & C3)
  end.
  rewrite (bind_done _ _ _ _ _ E3).
  destruct r3 as [[p3 d3]|]; cbv beta iota;
    eexists; eexists; (split; [reflexivity|]).
  - congruence.
  - rewrite <- H0, <- C1, <- C2. exact C3.
Qed.

Lemma Cell_reported SECSIZE inFile id filePos len fuel :
  forall dirPos dir s,
    lookup_reported s
      (Cell.FetchFilePos SECSIZE fuel inFile dirPos id filePos len dir s).
Proof.
  induction fuel as [|fuel IH]; intros dirPos dir s; [reflexivity|].
  cbn [Cell.FetchFilePos].
  destruct (dirPos =? 0);
    [right; split; [reflexivity | right; eexists; reflexivity]|].
  destruct (read_node_reported SECSIZE inFile dirPos dir s)
    as (s1 & r & H & Hco).
  rewrite (bind_done _ _ _ _ _ H).
  destruct r as [dir'|];
    [|right; split; [reflexivity | right; exact Hco]].
  destruct (search_node dir' id).
  - right; split; [reflexivity|]. right. exists MsgNumFiles.
    cbn [console]. now rewrite Hco.
  - left; split; [reflexivity | exact Hco].
  - right; split; [reflexivity | left; exact Hco].
  - specialize (IH dirPos0 dir' s1). unfold lookup_reported in *.
    rewrite Hco in IH. exact IH.
Qed.

(** X8.  Whatever the archive holds, FetchFilePos returns 1 having printed
    nothing, or returns 0 having printed nothing (the id is not in
    the directory) or one line (a node could not be reached or read,
    or announces too many entries); it returns no other value and has
    no assert to fail.  This holds for exp.c, acbmp.c and exc.c. *)
Theorem FetchFilePos_reports :
  forall SECSIZE inFile fuel dirPos id filePos len dir s,
    lookup_reported s
      (Portal.FetchFilePos SECSIZE fuel inFile dirPos id filePos len s) /\
    lookup_reported s
      (Cell.FetchFilePos SECSIZE fuel inFile dirPos id filePos len dir s).
Proof.
  intros. split.
  - apply Portal_reported.
  - apply Cell_reported.
Qed.

(** ** A directory that leads back into itself *)

(** X9.  FetchFilePos keeps no record of the nodes it has visited.  When
    the child that a node opens for an id is the node itself, the
    lookup of that id never returns, however many rounds its loop is
    granted.  This holds for the one-sector nodes of exp.c and
    acbmp.c and for the chained nodes of exc.c. *)
Theorem FetchFilePos_cyclic_directory :
  forall inFile fuel pos dir id filePos len s,
    numFiles_of dir < NUMFILELOC ->
    search_node dir id = Descend pos ->
    (portal_node_at 256 inFile pos dir ->
     exists s',
       Portal.FetchFilePos 256 fuel inFile pos id filePos len s
       = OutOfFuel s') /\
    (cell_node_at 64 inFile pos dir ->
     forall dir0,
     exists s',
       Cell.FetchFilePos 64 fuel inFile pos id filePos len dir0 s
       = OutOfFuel s').
Proof.
  intros inFile fuel pos dir id filePos len s HN Hd. split.
  - intros Hnode. revert s.
    induction fuel as [|fuel IH]; intros s; [eexists; reflexivity|].
    rewrite (Portal_step 256 inFile ltac:(lia) id filePos len fuel pos dir s
               Hnode HN).
    rewrite Hd. apply IH.
  - intros Hnode. revert s.
    induction fuel as [|fuel IH]; intros s dir0; [eexists; reflexivity|].
    destruct (Cell_step 64 inFile ltac:(lia) id filePos len fuel pos dir dir0 s
                Hnode HN) as (s1 & _ & Hstep).
    rewrite Hstep, Hd. apply IH.
Qed.

Lemma FetchFilePos_cyclic_directory_witness :
  exists s',
    Portal.FetchFilePos 256 7 cyclic_directory 1024 0x05000001 7 9 fresh
    = OutOfFuel s'.
Proof.
  destruct (FetchFilePos_cyclic_directory cyclic_directory 7 1024
              (portal_node [1024; 1024] [(0x05000002, 4096, 20)])
              0x05000001 7 9 fresh) as (HP & _).
  - vm_compute. reflexivity.
  - vm_compute. reflexivity.
  - apply HP. vm_compute. repeat split; congruence.
Defined.

(** ** The extractors *)

Lemma FetchFile_reads_record SECSIZE inFile fuel pos L secs buf s :
  2 <= SECSIZE -> 0 <= L ->
  secs <> [] ->
  chain_at SECSIZE inFile pos secs ->
  L <= Z.of_nat (length secs) * payload_size SECSIZE ->
  length buf = Z.to_nat L ->
  (length secs <= fuel)%nat ->
  exists s',
    FetchFile SECSIZE fuel inFile pos L buf s
    = Done s' (1, firstn (Z.to_nat L) (concat (map payload secs)))
    /\ console s' = console s.
Proof.
  intros HS HL Hne Hch Hk Hbuf Hfuel.
  assert (Hpos : pos <> 0) by (destruct secs; [congruence | simpl in Hch; tauto]).
  unfold FetchFile. apply Z.eqb_neq in Hpos. rewrite Hpos.
  destruct (FetchFile_loop_chain SECSIZE inFile ltac:(lia) secs fuel pos L buf 0 s)
    as (p & Hp); auto; try lia.
  eexists. rewrite Hp. split; [apply done_eq | reflexivity].
  pose proof (chain_at_payloads SECSIZE inFile ltac:(lia) pos secs Hch) as Hlen.
  assert (HP : 0 <= payload_size SECSIZE) by (unfold payload_size; lia).
  unfold splice. change (Z.to_nat 0) with 0%nat. cbn [firstn app Nat.add].
  rewrite skipn_all2, app_nil_r; [reflexivity|].
  rewrite length_firstn, Hlen, Hbuf. nia.
Qed.

(** The first two calls of every main: the seek to [ROOTDIRPTRLOC]
    and the read of the root pointer. *)
Lemma read_root_pointer inFile root s :
  root_pointer inFile root ->
  exists s1 s2 w,
    fseek inFile ROOTDIRPTRLOC s = Done s1 0 /\
    fread inFile 4 1 s1 = Done s2 (1, w) /\
    word_at w 0 = root /\
    console s2 = console s.
Proof.
  intros (Hseek & Hfit & Hword).
  unfold fseek. rewrite Hseek.
  eexists. eexists. eexists. split; [reflexivity|].
  rewrite fread_exact by (unfold ROOTDIRPTRLOC in *; lia).
  split; [reflexivity|]. split; [|reflexivity].
  rewrite word_at_firstn; auto; try lia.
  rewrite length_skipn. unfold ROOTDIRPTRLOC in *. lia.
Qed.

(** X10.  The extractors compose the lookup and the read.  When the header
    of the archive holds the offset of the root of a directory tree
    laid out as FetchFilePos reads it, the tree has an entry for [id]
    with offset [o] and length [L], and at [o] starts a closed chain
    of sectors that hold at least [L] bytes, main ends with status 0,
    prints nothing, and writes to the output file the first [L] bytes
    of the payloads of the chain.  This holds for exp.c on one-sector
    nodes and sectors of 256 words and for exc.c on chained nodes and
    sectors of 64 words, whatever the stack and the heap held. *)
Theorem main_extracts_record :
  forall inFile fuel h root lo hi all id o L secs filePos len malloc s,
    (h <= fuel)%nat -> (length secs <= fuel)%nat ->
    root_pointer inFile root ->
    In (id, o, L) all ->
    0 <= L -> secs <> [] ->
    length (malloc L) = Z.to_nat L ->
    (tree_at (portal_node_at 256 inFile) h root lo hi all ->
     chain_at 256 inFile o secs ->
     L <= Z.of_nat (length secs) * payload_size 256 ->
     exists s',
       Exp.main fuel 3 (Some inFile) id filePos len malloc true s
       = Done s' (mkRun 0 []
                    (Some (firstn (Z.to_nat L) (concat (map payload secs)))))
       /\ console s' = console s) /\
    (tree_at (cell_node_at 64 inFile) h root lo hi all ->
     chain_at 64 inFile o secs ->
     L <= Z.of_nat (length secs) * payload_size 64 ->
     forall dir,
     exists s',
       Exc.main fuel 3 (Some inFile) id filePos len dir malloc true s
       = Done s' (mkRun 0 []
                    (Some (firstn (Z.to_nat L) (concat (map payload secs)))))
       /\ console s' = console s).
Proof.
  intros inFile fuel h root lo hi all id o L secs filePos len malloc s
         Hh Hk Hroot Hin HL Hne Hheap.
  destruct (read_root_pointer inFile root s Hroot)
    as (s1 & s2 & w & Hseek & Hread & Hw & Hco2).
  split.
  - intros Ht Hch Hcov.
    destruct (Portal_lookup 256 inFile ltac:(lia) id filePos len h root lo hi
                all Ht fuel s2 Hh) as (Hhit & _).
    destruct (Hhit o L Hin) as (s3 & Hlook & Hco3).
    destruct (FetchFile_reads_record 256 inFile fuel o L secs (malloc L) s3)
      as (s4 & Hfetch & Hco4); auto; try lia.
    unfold Exp.main, Portal.SECSIZE. cbn [Z.eqb Pos.eqb negb].
    rewrite (bind_done _ _ _ _ _ Hseek). cbn [Z.eqb negb].
    rewrite (bind_done _ _ _ _ _ Hread). cbn [Z.eqb Pos.eqb negb].
    cbv zeta. rewrite Hw, (bind_done _ _ _ _ _ Hlook). cbn [Z.eqb].
    rewrite (bind_done _ _ _ _ _ Hfetch). cbn [Z.eqb negb].
    rewrite firstn_firstn, Nat.min_id.
    exists s4. split; [reflexivity | congruence].
  - intros Ht Hch Hcov dir.
    destruct (Cell_lookup 64 inFile ltac:(lia) id filePos len h root lo hi
                all Ht fuel dir s2 Hh) as (Hhit & _).
    destruct (Hhit o L Hin) as (s3 & Hlook & Hco3).
    destruct (FetchFile_reads_record 64 inFile fuel o L secs (malloc L) s3)
      as (s4 & Hfetch & Hco4); auto; try lia.
    unfold Exc.main, Cell.SECSIZE. cbn [Z.eqb Pos.eqb negb].
    rewrite (bind_done _ _ _ _ _ Hseek). cbn [Z.eqb negb].
    rewrite (bind_done _ _ _ _ _ Hread). cbn [Z.eqb Pos.eqb negb].
    cbv zeta. rewrite Hw, (bind_done _ _ _ _ _ Hlook). cbn [Z.eqb].
    rewrite (bind_done _ _ _ _ _ Hfetch). cbn [Z.eqb negb].
    rewrite firstn_firstn, Nat.min_id.
    exists s4. split; [reflexivity | congruence].
Qed.

Lemma main_extracts_record_witness :
  exists s',
    Exc.main 2 3 (Some cell_example) 0x7F7FFFFF 0 0 junk heap true fresh
    = Done s' (mkRun 0 []
                 (Some (payload (landblock_sector 0x7F7FFFFF 0x0C 30))))
    /\ console s' = [].
Proof.
  destruct (main_extracts_record cell_example 2 2 1024 (-1) 0x100000000
              cell_entries 0x7F7FFFFF 2560 252
              [landblock_sector 0x7F7FFFFF 0x0C 30] 0 0 heap fresh)
    as (_ & HC).
  - lia.
  - simpl; lia.
  - vm_compute. repeat split; congruence.
  - simpl; auto.
  - lia.
  - discriminate.
  - reflexivity.
  - destruct (HC cell_example_tree) with (dir := junk) as (s' & E & C).
    + vm_compute. repeat split; congruence.
    + vm_compute. congruence.
    + exists s'. split; [exact E | exact C].
Defined.

(** X11.  An id that the directory does not hold is refused without
    output.  When the header holds the offset of the root of a
    directory tree that has no entry for [id], main prints its line
    on the missing file and nothing else, writes no file and ends
    with status -1: exp.c and exc.c alike. *)
Theorem main_missing_id :
  forall inFile fuel h root lo hi all id filePos len malloc can_write s,
    (h <= fuel)%nat ->
    root_pointer inFile root ->
    ~ In id (map key all) ->
    (tree_at (portal_node_at 256 inFile) h root lo hi all ->
     exists s',
       Exp.main fuel 3 (Some inFile) id filePos len malloc can_write s
       = Done s' (mkRun (-1) [ErrNoFile id] None)
       /\ console s' = console s) /\
    (tree_at (cell_node_at 64 inFile) h root lo hi all ->
     forall dir,
     exists s',
       Exc.main fuel 3 (Some inFile) id filePos len dir malloc can_write s
       = Done s' (mkRun (-1) [ErrNoFile id] None)
       /\ console s' = console s).
Proof.
  intros inFile fuel h root lo hi all id filePos len malloc can_write s
         Hh Hroot Hout.
  destruct (read_root_pointer inFile root s Hroot)
    as (s1 & s2 & w & Hseek & Hread & Hw & Hco2).
  split.
  - intros Ht.
    destruct (Portal_lookup 256 inFile ltac:(lia) id filePos len h root lo hi
                all Ht fuel s2 Hh) as (_ & Hmiss).
    destruct (Hmiss Hout) as (s3 & Hlook & Hco3).
    unfold Exp.main, Portal.SECSIZE. cbn [Z.eqb Pos.eqb negb].
    rewrite (bind_done _ _ _ _ _ Hseek). cbn [Z.eqb negb].
    rewrite (bind_done _ _ _ _ _ Hread). cbn [Z.eqb Pos.eqb negb].
    cbv zeta. rewrite Hw, (bind_done _ _ _ _ _ Hlook). cbn [Z.eqb].
    exists s3. split; [reflexivity | congruence].
  - intros Ht dir.
    destruct (Cell_lookup 64 inFile ltac:(lia) id filePos len h root lo hi
                all Ht fuel dir s2 Hh) as (_ & Hmiss).
    destruct (Hmiss Hout) as (s3 & Hlook & Hco3).
    unfold Exc.main, Cell.SECSIZE. cbn [Z.eqb Pos.eqb negb].
    rewrite (bind_done _ _ _ _ _ Hseek). cbn [Z.eqb negb].
    rewrite (bind_done _ _ _ _ _ Hread). cbn [Z.eqb Pos.eqb negb].
    cbv zeta. rewrite Hw, (bind_done _ _ _ _ _ Hlook). cbn [Z.eqb].
    exists s3. split; [reflexivity | congruence].
Qed.

Lemma main_missing_id_witness :
  exists s',
    Exp.main 2 3 (Some portal_example) 0x05000003 0 0 heap true fresh
    = Done s' (mkRun (-1) [ErrNoFile 0x05000003] None)
    /\ console s' = [].
Proof.
  destruct (main_missing_id portal_example 2 2 1024 (-1) 0x100000000
              portal_entries 0x05000003 0 0 heap true fresh)
    as (HP & _).
  - lia.
  - vm_compute. repeat split; congruence.
  - vm_compute. intuition congruence.
  - apply HP. exact portal_example_tree.
Defined.

(** X12.  An archive that ends inside its header is not an error to the
    extractors.  When the stream can go to [ROOTDIRPTRLOC] but the
    archive has fewer than four bytes from there on, main prints its
    line on the end of the file, writes no file and ends with status
    0, the status of a run that has extracted its record. *)
Theorem main_short_header :
  forall inFile fuel id filePos len dir malloc can_write s,
    seekable inFile ROOTDIRPTRLOC = true ->
    Z.of_nat (length (contents inFile)) < ROOTDIRPTRLOC + 4 ->
    (exists s',
       Exp.main fuel 3 (Some inFile) id filePos len malloc can_write s
       = Done s' (mkRun 0 [ErrEndOfFile] None)
       /\ console s' = console s) /\
    (exists s',
       Exc.main fuel 3 (Some inFile) id filePos len dir malloc can_write s
       = Done s' (mkRun 0 [ErrEndOfFile] None)
       /\ console s' = console s).
Proof.
  intros inFile fuel id filePos len dir malloc can_write s Hseek Hshort.
  assert (Hcnt : Z.min 1 (Z.max 0 (Z.of_nat (length (contents inFile))
                                   - ROOTDIRPTRLOC) / 4) = 0).
  { assert (H : Z.max 0 (Z.of_nat (length (contents inFile)) - ROOTDIRPTRLOC) / 4
                = 0) by (apply Z.div_small; lia).
    rewrite H. reflexivity. }
  split.
  - unfold Exp.main. cbn [Z.eqb Pos.eqb negb].
    unfold bind at 1, fseek. rewrite Hseek. cbn [Z.eqb negb].
    unfold bind at 1, fread. cbn [fpos seeks console].
    rewrite Hcnt. cbn [Z.eqb negb].
    eexists. split; reflexivity.
  - unfold Exc.main. cbn [Z.eqb Pos.eqb negb].
    unfold bind at 1, fseek. rewrite Hseek. cbn [Z.eqb negb].
    unfold bind at 1, fread. cbn [fpos seeks console].
    rewrite Hcnt. cbn [Z.eqb negb].
    eexists. split; reflexivity.
Qed.

Lemma main_short_header_witness :
  exists s',
    Exp.main 2 3 (Some (mkArchive (repeat x00 100) long_seek)) 0x05000001
             0 0 heap true fresh
    = Done s' (mkRun 0 [ErrEndOfFile] None)
    /\ console s' = [].
Proof.
  destruct (main_short_header (mkArchive (repeat x00 100) long_seek) 2
              0x05000001 0 0 junk heap true fresh) as (HP & _).
  - reflexivity.
  - vm_compute. reflexivity.
  - exact HP.
Defined.

(** X13.  Whatever the arguments and the archive, a run of exp or exc that
    returns ends with status 0 or -1; it has written a file only if
    the status is 0 and neither it nor the readers printed a line;
    and with status 0 it has written a file, unless the archive ended
    inside its header.  No assert can fail. *)
Theorem main_is_tidy :
  forall fuel argc inFile id filePos len dir malloc can_write s,
    tidy s (Exp.main fuel argc inFile id filePos len malloc can_write s) /\
    tidy s (Exc.main fuel argc inFile id filePos len dir malloc can_write s).
Proof.
  intros fuel argc inFile id filePos len dir malloc can_write s.
  assert (Hbad : forall (s' : stream) c,
             tidy s (Done s' (mkRun (-1) c None))).
  { intros s' c. unfold tidy. cbn [status said written].
    split; [right; reflexivity|]. split; [congruence | lia]. }
  assert (Hfetch : forall SECSIZE a p l s1,
             console s1 = console s ->
             tidy s (bind (FetchFile SECSIZE fuel a p l (malloc l))
                       (fun '(r, buf) =>
                          if r =? 0 then ret (mkRun (-1) [] None)
                          else if negb can_write
                               then ret (mkRun (-1) [ErrOutput] None)
                               else ret (mkRun 0 []
                                           (Some (firstn (Z.to_nat l) buf))))
                       s1)).
  { intros SECSIZE a p l s1 Hs1.
    pose proof (FetchFile_aloud SECSIZE a fuel p l (malloc l) s1) as Hf.
    unfold bind.
    destruct (FetchFile SECSIZE fuel a p l (malloc l) s1)
      as [s2 [r buf] | |]; cbn in Hf |- *; auto.
    destruct Hf as [(-> & Hco) | (-> & _)]; cbn [Z.eqb]; [|apply Hbad].
    destruct can_write; cbn [negb]; [|apply Hbad].
    unfold ret, tidy. cbn [status said written].
    split; [left; reflexivity|]. split.
    - intros _. repeat split. congruence.
    - intros _. left. discriminate. }
  split.
  - unfold Exp.main.
    destruct (negb (argc =? 3)); [apply Hbad|].
    destruct inFile as [a|]; [|apply Hbad].
    unfold bind at 1, fseek.
    destruct (seekable a ROOTDIRPTRLOC); cbn [Z.eqb negb]; [|apply Hbad].
    unfold bind at 1, fread. cbn [fpos seeks console].
    match goal with |- context [negb ?c] => destruct (negb c) end.
    { unfold ret, tidy. cbn [status said written].
      split; [left; reflexivity|]. split; [congruence | auto]. }
    cbv zeta. set (s1 := mkStream _ _ _).
    assert (Hs1 : console s1 = console s) by reflexivity.
    match goal with |- context [Portal.FetchFilePos ?S fuel a ?root id filePos len] =>
      pose proof (Portal_reported S a id filePos len fuel root s1) as Hl;
      unfold bind at 1;
      destruct (Portal.FetchFilePos S fuel a root id filePos len s1)
        as [s2 [r [p l]] | |]
    end; cbn in Hl |- *; auto.
    destruct Hl as [(-> & Hco) | (-> & _)]; cbn [Z.eqb]; [|apply Hbad].
    apply Hfetch. congruence.
  - unfold Exc.main.
    destruct (negb (argc =? 3)); [apply Hbad|].
    destruct inFile as [a|]; [|apply Hbad].
    unfold bind at 1, fseek.
    destruct (seekable a ROOTDIRPTRLOC); cbn [Z.eqb negb]; [|apply Hbad].
    unfold bind at 1, fread. cbn [fpos seeks console].
    match goal with |- context [negb ?c] => destruct (negb c) end.
    { unfold ret, tidy. cbn [status said written].
      split; [left; reflexivity|]. split; [congruence | auto]. }
    cbv zeta. set (s1 := mkStream _ _ _).
    assert (Hs1 : console s1 = console s) by reflexivity.
    match goal with |- context [Cell.FetchFilePos ?S fuel a ?root id filePos len dir] =>
      pose proof (Cell_reported S a id filePos len fuel root dir s1) as Hl;
      unfold bind at 1;
      destruct (Cell.FetchFilePos S fuel a root id filePos len dir s1)
        as [s2 [r [p l]] | |]
    end; cbn in Hl |- *; auto.
    destruct Hl as [(-> & Hco) | (-> & _)]; cbn [Z.eqb]; [|apply Hbad].
    apply Hfetch. congruence.
Qed.

(** ** The bitmap *)

Lemma byte_val_of z : byte_val (byte_of z) = z mod 256.
Proof.
  unfold byte_val, byte_of.
  pose proof (Z.mod_pos_bound z 256 ltac:(lia)) as Hb.
  destruct (Byte.of_N (Z.to_N (z mod 256))) as [b|] eqn:E.
  - apply Byte.to_of_N in E. rewrite E. lia.
  - apply Byte.of_N_None_iff in E. lia.
Qed.

Lemma word_of_bytes v rest :
  0 <= v < 0x100000000 ->
  word_at (word_bytes v ++ rest) 0 = v.
Proof.
  intros Hv. unfold word_at, word_bytes. cbv zeta.
  change (Z.to_nat (4 * 0)) with 0%nat. cbn [app nth Nat.add].
  unfold le32. rewrite !byte_val_of.
  Z.div_mod_to_equations. lia.
Qed.

Lemma land3_bounds W : 0 <= Z.land W 3 < 4.
Proof.
  change 3 with (Z.ones 2). rewrite Z.land_ones by lia.
  apply Z.mod_pos_bound. lia.
Qed.

Section BitmapRows.
Variable pixel : Z -> Z -> list byte.
Variable W : Z.
Hypothesis pixel_length : forall x y, length (pixel x y) = 3%nat.
Hypothesis W_nonneg : 0 <= W.

Lemma nth_flat_map_seq {B} (f : nat -> list B) (c : nat) (d : B) :
  (forall k, length (f k) = c) ->
  forall n start k j,
    (k < n)%nat -> (j < c)%nat ->
    nth (k * c + j) (flat_map f (seq start n)) d = nth j (f (start + k)%nat) d.
Proof.
  intros Hc. induction n as [|n IH]; intros start k j Hk Hj; [lia|].
  cbn [seq flat_map]. destruct k as [|k].
  - rewrite app_nth1 by (rewrite Hc; lia). now rewrite Nat.add_0_r.
  - rewrite app_nth2 by (rewrite Hc; lia).
    rewrite Hc.
    replace (S k * c + j - c)%nat with (k * c + j)%nat by lia.
    rewrite IH by lia. f_equal. f_equal. lia.
Qed.

Lemma row_length y :
  length (Bmp.row pixel W y) = Z.to_nat (Bmp.stride W).
Proof.
  pose proof (land3_bounds W) as Hl.
  unfold Bmp.row, Bmp.stride.
  rewrite length_app, repeat_length.
  rewrite (flat_map_constant_length (c := 3)) by (intros; apply pixel_length).
  rewrite length_seq. lia.
Qed.

Lemma nth_row_pixel y x c d :
  (x < Z.to_nat W)%nat -> (c < 3)%nat ->
  nth (x * 3 + c) (Bmp.row pixel W y) d = nth c (pixel (Z.of_nat x) y) d.
Proof.
  intros Hx Hc. unfold Bmp.row.
  rewrite app_nth1.
  - now rewrite (nth_flat_map_seq _ 3 d) by (auto; lia).
  - rewrite (flat_map_constant_length (c := 3)) by (intros; apply pixel_length).
    rewrite length_seq. lia.
Qed.

Lemma nth_row_pad y j :
  (j < Z.to_nat (Z.land W 3))%nat ->
  nth (Z.to_nat W * 3 + j) (Bmp.row pixel W y) x00 = x00.
Proof.
  intros Hj. unfold Bmp.row.
  rewrite app_nth2;
    rewrite (flat_map_constant_length (c := 3)) by (intros; apply pixel_length);
    rewrite length_seq; [|lia].
  apply nth_repeat.
Qed.

Lemma rows_from_length n :
  length (Bmp.rows_from pixel W n) = (n * Z.to_nat (Bmp.stride W))%nat.
Proof.
  induction n as [|n IH]; [reflexivity|].
  cbn [Bmp.rows_from]. rewrite length_app, row_length, IH. lia.
Qed.

Lemma nth_rows_from n :
  forall r j d,
    (r < n)%nat -> (j < Z.to_nat (Bmp.stride W))%nat ->
    nth (r * Z.to_nat (Bmp.stride W) + j) (Bmp.rows_from pixel W n) d
    = nth j (Bmp.row pixel W (Z.of_nat (n - 1 - r))) d.
Proof.
  induction n as [|n IH]; intros r j d Hr Hj; [lia|].
  cbn [Bmp.rows_from]. destruct r as [|r].
  - rewrite app_nth1 by (rewrite row_length; lia).
    do 2 f_equal. lia.
  - rewrite app_nth2 by (rewrite row_length; lia).
    rewrite row_length.
    replace (S r * Z.to_nat (Bmp.stride W) + j - Z.to_nat (Bmp.stride W))%nat
      with (r * Z.to_nat (Bmp.stride W) + j)%nat by lia.
    rewrite IH by lia. do 3 f_equal. lia.
Qed.
End BitmapRows.

Lemma rows_count H :
  0 <= H <= 0x80000000 ->
  Z.to_nat (to_int (u32 (H - 1)) + 1) = Z.to_nat H.
Proof.
  intros HH. unfold to_int, u32.
  destruct (Z.eq_dec H 0) as [-> | Hnz]; [reflexivity|].
  rewrite Z.mod_small by lia.
  destruct (Z.ltb_spec (H - 1) 0x80000000); lia.
Qed.

Lemma stride_aligned W : 0 <= W -> Bmp.stride W mod 4 = 0.
Proof.
  intros HW. unfold Bmp.stride.
  change 3 with (Z.ones 2) at 2. rewrite Z.land_ones by lia.
  change (2 ^ 2) with 4.
  Z.div_mod_to_equations. lia.
Qed.

Section Bitmap.
Variable pixel : Z -> Z -> list byte.
Variables W H : Z.
Hypothesis pixel_length : forall x y, length (pixel x y) = 3%nat.
Hypothesis W_nonneg : 0 <= W.
Hypothesis H_range : 0 <= H <= 0x80000000.

Let file : list byte := Bmp.file_header W H ++ Bmp.rows pixel W H.

Lemma bitmap_length :
  Z.of_nat (length file) = 54 + Bmp.stride W * H.
Proof.
  pose proof (land3_bounds W) as Hl.
  unfold file, Bmp.rows. rewrite length_app, rows_count by assumption.
  rewrite (rows_from_length pixel W pixel_length W_nonneg).
  change (length (Bmp.file_header W H)) with 54%nat.
  unfold Bmp.stride in *. nia.
Qed.

Lemma bitmap_size_field :
  54 + Bmp.stride W * H < 0x100000000 ->
  word_at (skipn 2 file) 0 = 54 + Bmp.stride W * H.
Proof.
  intros Hfit. pose proof (land3_bounds W) as Hl.
  unfold file, Bmp.file_header, Bmp.short_bytes, Bmp.int_bytes.
  cbn [app skipn]. rewrite <- app_assoc.
  unfold Bmp.stride in *.
  assert (E : u32 (W * H * 3 + 54 + Z.land W 3 * H)
              = 54 + (3 * W + Z.land W 3) * H)
    by (unfold u32; rewrite Z.mod_small by nia; lia).
  rewrite E. apply word_of_bytes. nia.
Qed.

Lemma bitmap_point x r c d :
  0 <= x < W -> 0 <= r < H -> 0 <= c < 3 ->
  nth (Z.to_nat (54 + r * Bmp.stride W + 3 * x + c)) file d
  = nth (Z.to_nat c) (pixel x (H - 1 - r)) d.
Proof.
  intros Hx Hr Hc. pose proof (land3_bounds W) as Hl.
  unfold file, Bmp.rows. rewrite rows_count by assumption.
  assert (HS : 0 <= Bmp.stride W) by (unfold Bmp.stride; lia).
  replace (Z.to_nat (54 + r * Bmp.stride W + 3 * x + c))
    with (54 + (Z.to_nat r * Z.to_nat (Bmp.stride W)
                + (Z.to_nat x * 3 + Z.to_nat c)))%nat
    by (rewrite !Z2Nat.inj_add, Z2Nat.inj_mul, Z2Nat.inj_mul by nia;
        change (Z.to_nat 54) with 54%nat; change (Z.to_nat 3) with 3%nat; lia).
  rewrite app_nth2 by (change (length (Bmp.file_header W H)) with 54%nat; lia).
  change (length (Bmp.file_header W H)) with 54%nat.
  replace (54 + (Z.to_nat r * Z.to_nat (Bmp.stride W)
                 + (Z.to_nat x * 3 + Z.to_nat c)) - 54)%nat
    with (Z.to_nat r * Z.to_nat (Bmp.stride W)
          + (Z.to_nat x * 3 + Z.to_nat c))%nat by lia.
  rewrite (nth_rows_from pixel W pixel_length W_nonneg)
    by (unfold Bmp.stride in *; lia).
  rewrite (nth_row_pixel pixel W pixel_length) by lia.
  do 2 f_equal; lia.
Qed.

Lemma bitmap_pad r j :
  0 <= r < H -> 0 <= j < Z.land W 3 ->
  nth (Z.to_nat (54 + r * Bmp.stride W + 3 * W + j)) file x00 = x00.
Proof.
  intros Hr Hj.
  unfold file, Bmp.rows. rewrite rows_count by assumption.
  assert (HS : 0 <= Bmp.stride W) by (unfold Bmp.stride; lia).
  replace (Z.to_nat (54 + r * Bmp.stride W + 3 * W + j))
    with (54 + (Z.to_nat r * Z.to_nat (Bmp.stride W)
                + (Z.to_nat W * 3 + Z.to_nat j)))%nat
    by (rewrite !Z2Nat.inj_add, Z2Nat.inj_mul, Z2Nat.inj_mul by nia;
        change (Z.to_nat 54) with 54%nat; change (Z.to_nat 3) with 3%nat; lia).
  rewrite app_nth2 by (change (length (Bmp.file_header W H)) with 54%nat; lia).
  change (length (Bmp.file_header W H)) with 54%nat.
  replace (54 + (Z.to_nat r * Z.to_nat (Bmp.stride W)
                 + (Z.to_nat W * 3 + Z.to_nat j)) - 54)%nat
    with (Z.to_nat r * Z.to_nat (Bmp.stride W)
          + (Z.to_nat W * 3 + Z.to_nat j))%nat by lia.
  rewrite (nth_rows_from pixel W pixel_length W_nonneg)
    by (unfold Bmp.stride in *; lia).
  apply (nth_row_pad pixel W pixel_length). lia.
Qed.
End Bitmap.

Lemma texture_pixel_length buf pal W x y :
  length (Bmp.texture_pixel buf pal W x y) = 3%nat.
Proof. reflexivity. Qed.

Lemma ui_pixel_length buf W x y : length (Bmp.ui_pixel buf W x y) = 3%nat.
Proof. reflexivity. Qed.

Lemma header_fields W H rest :
  0 <= W < 0x100000000 -> 0 <= H < 0x100000000 ->
  word_at (skipn 10 (Bmp.file_header W H ++ rest)) 0 = 54 /\
  word_at (skipn 18 (Bmp.file_header W H ++ rest)) 0 = W /\
  word_at (skipn 22 (Bmp.file_header W H ++ rest)) 0 = H /\
  half_at (skipn 28 (Bmp.file_header W H ++ rest)) 0 = 24.
Proof.
  intros HW HH.
  unfold Bmp.file_header, Bmp.short_bytes, Bmp.int_bytes.
  split; [|split; [|split]].
  - cbn [app skipn word_bytes]. apply (word_of_bytes 54). lia.
  - cbn [app skipn word_bytes]. apply (word_of_bytes W). lia.
  - cbn [app skipn word_bytes]. apply (word_of_bytes H). lia.
  - cbn [app skipn word_bytes]. unfold half_at. cbv zeta.
    change (Z.to_nat (2 * 0)) with 0%nat. cbn [nth Nat.add].
    unfold le16. rewrite !byte_val_of. reflexivity.
Qed.

(** X14.  The header of a bitmap agrees with the bytes that follow it.
    For a graphic of [W] columns and [H] rows, both as the record
    announces them, each row takes [3 W + (W & 3)] bytes, which is a
    multiple of four, and the file has 54 bytes of header and [H]
    rows.  The header declares that number as the size of the file,
    54 as the offset of the rows, [W] and [H] as the width and the
    height, and 24 bits for a point.  This holds for the bitmap of a
    texture and for that of a UI graphic, as long as the size fits a
    word. *)
Theorem bitmap_header_agrees :
  forall buf pal,
    (let W := word_at buf 2 in
     let H := word_at buf 3 in
     let file := Bmp.texture buf pal in
     H <= 0x80000000 -> 54 + Bmp.stride W * H < 0x100000000 ->
     Bmp.stride W mod 4 = 0 /\
     Z.of_nat (length file) = 54 + Bmp.stride W * H /\
     word_at (skipn 2 file) 0 = Z.of_nat (length file) /\
     word_at (skipn 10 file) 0 = 54 /\
     word_at (skipn 18 file) 0 = W /\
     word_at (skipn 22 file) 0 = H /\
     half_at (skipn 28 file) 0 = 24) /\
    (let W := word_at buf 1 in
     let H := word_at buf 2 in
     let file := Bmp.ui_graphic buf in
     H <= 0x80000000 -> 54 + Bmp.stride W * H < 0x100000000 ->
     Bmp.stride W mod 4 = 0 /\
     Z.of_nat (length file) = 54 + Bmp.stride W * H /\
     word_at (skipn 2 file) 0 = Z.of_nat (length file) /\
     word_at (skipn 10 file) 0 = 54 /\
     word_at (skipn 18 file) 0 = W /\
     word_at (skipn 22 file) 0 = H /\
     half_at (skipn 28 file) 0 = 24).
Proof.
  intros buf pal.
  assert (Hword : forall k, 0 <= word_at buf k < 0x100000000).
  { intros k. unfold word_at, le32. cbv zeta.
    repeat match goal with
           | |- context [byte_val ?b] =>
             lazymatch goal with
             | _ : byte_val b <= 255 |- _ => fail
             | _ => pose proof (byte_val_nonneg b);
                    assert (byte_val b <= 255)
                      by (unfold byte_val;
                          pose proof (Byte.to_N_bounded b); lia)
             end
           end.
    lia. }
  split; intros W H file HH Hfit.
  - pose proof (Hword 2) as HW. pose proof (Hword 3) as HH'. fold W in HW. fold H in HH'.
    pose proof (bitmap_length (Bmp.texture_pixel buf pal W) W H
                  (texture_pixel_length buf pal W) ltac:(lia) ltac:(lia)) as Hlen.
    pose proof (bitmap_size_field (Bmp.texture_pixel buf pal W) W H
                  ltac:(lia) ltac:(lia) Hfit) as Hsize.
    destruct (header_fields W H (Bmp.rows (Bmp.texture_pixel buf pal W) W H)
                HW HH') as (F1 & F2 & F3 & F4).
    split; [apply stride_aligned; lia|].
    split; [exact Hlen|].
    split; [unfold file, Bmp.texture; fold W; fold H; cbv zeta; congruence|].
    repeat split; assumption.
  - pose proof (Hword 1) as HW. pose proof (Hword 2) as HH'. fold W in HW. fold H in HH'.
    pose proof (bitmap_length (Bmp.ui_pixel buf W) W H
                  (ui_pixel_length buf W) ltac:(lia) ltac:(lia)) as Hlen.
    pose proof (bitmap_size_field (Bmp.ui_pixel buf W) W H
                  ltac:(lia) ltac:(lia) Hfit) as Hsize.
    destruct (header_fields W H (Bmp.rows (Bmp.ui_pixel buf W) W H)
                HW HH') as (F1 & F2 & F3 & F4).
    split; [apply stride_aligned; lia|].
    split; [exact Hlen|].
    split; [unfold file, Bmp.ui_graphic; fold W; fold H; cbv zeta; congruence|].
    repeat split; assumption.
Qed.

Lemma bitmap_header_agrees_witness :
  Bmp.stride 3 mod 4 = 0 /\
  Z.of_nat (length (Bmp.texture small_texture small_palette)) = 78 /\
  word_at (skipn 2 (Bmp.texture small_texture small_palette)) 0 = 78.
Proof.
  destruct (bitmap_header_agrees small_texture small_palette) as (HT & _).
  cbv zeta in HT.
  destruct (HT ltac:(vm_compute; congruence) ltac:(vm_compute; reflexivity))
    as (A & B & C & _).
  split; [exact A|]. split; [exact B|].
  rewrite C. exact B.
Defined.

(** X15.  The rows of a bitmap run from the bottom of the image to its top
    and a texture is coloured through its palette.  In the bitmap of
    a texture of [W] columns and [H] rows, the three bytes at
    [54 + r (3 W + (W & 3)) + 3 x] are the bytes 8, 9 and 10 -- blue,
    green and red -- of the palette entry of four bytes whose index
    the record holds for the point in column [x] of row [H - 1 - r],
    and the [W & 3] bytes that close row [r] are zero. *)
Theorem texture_bitmap_points :
  forall buf pal x r,
    let W := word_at buf 2 in
    let H := word_at buf 3 in
    H <= 0x80000000 -> W * H < 0x100000000 ->
    0 <= r < H ->
    (0 <= x < W ->
     forall c, 0 <= c < 3 ->
     nth (Z.to_nat (54 + r * Bmp.stride W + 3 * x + c))
         (Bmp.texture buf pal) x00
     = nth (Z.to_nat
              (4 * byte_val (nth (Z.to_nat (16 + ((H - 1 - r) * W + x)))
                                 buf x00)
               + 8 + c))
           pal x00) /\
    (forall j, 0 <= j < Z.land W 3 ->
     nth (Z.to_nat (54 + r * Bmp.stride W + 3 * W + j))
         (Bmp.texture buf pal) x00 = x00).
Proof.
  intros buf pal x r W H HH Hfit Hr.
  pose proof (word_at_nonneg buf 2) as HW. fold W in HW.
  pose proof (word_at_nonneg buf 3) as HH'. fold H in HH'.
  unfold Bmp.texture. fold W. fold H. cbv zeta.
  split.
  - intros Hx c Hc.
    rewrite (bitmap_point (Bmp.texture_pixel buf pal W) W H
               (texture_pixel_length buf pal W)) by lia.
    unfold Bmp.texture_pixel. cbv zeta.
    unfold u32. rewrite Z.mod_small by nia.
    assert (Hcases : c = 0 \/ c = 1 \/ c = 2) by lia.
    destruct Hcases as [-> | [-> | ->]];
      [change (Z.to_nat 0) with 0%nat
      |change (Z.to_nat 1) with 1%nat
      |change (Z.to_nat 2) with 2%nat];
      cbn [nth]; f_equal; lia.
  - intros j Hj.
    apply (bitmap_pad (Bmp.texture_pixel buf pal W) W H
             (texture_pixel_length buf pal W)); lia.
Qed.

Lemma texture_bitmap_points_witness :
  nth 54 (Bmp.texture small_texture small_palette) x00 = x03 /\
  nth 55 (Bmp.texture small_texture small_palette) x00 = x67 /\
  nth 63 (Bmp.texture small_texture small_palette) x00 = x00.
Proof.
  destruct (texture_bitmap_points small_texture small_palette 0 0)
    as (HP & HZ).
  - vm_compute. congruence.
  - vm_compute. reflexivity.
  - vm_compute. split; congruence.
  - split; [|split].
    + exact (HP ltac:(vm_compute; split; congruence) 0 ltac:(lia)).
    + exact (HP ltac:(vm_compute; split; congruence) 1 ltac:(lia)).
    + exact (HZ 0 ltac:(vm_compute; split; congruence)).
Defined.

(** X16.  A UI graphic is written with its rows from the bottom up and the
    three bytes of each point in reverse.  In the bitmap of a UI
    graphic of [W] columns and [H] rows, byte [c] of the three at
    [54 + r (3 W + (W & 3)) + 3 x] is byte [2 - c] of the three that
    the record holds for the point in column [x] of row [H - 1 - r],
    and the [W & 3] bytes that close row [r] are zero. *)
Theorem ui_bitmap_points :
  forall buf x r,
    let W := word_at buf 1 in
    let H := word_at buf 2 in
    H <= 0x80000000 -> 3 * (W * H) < 0x100000000 ->
    0 <= r < H ->
    (0 <= x < W ->
     forall c, 0 <= c < 3 ->
     nth (Z.to_nat (54 + r * Bmp.stride W + 3 * x + c))
         (Bmp.ui_graphic buf) x00
     = nth (Z.to_nat (12 + 3 * ((H - 1 - r) * W + x) + (2 - c))) buf x00) /\
    (forall j, 0 <= j < Z.land W 3 ->
     nth (Z.to_nat (54 + r * Bmp.stride W + 3 * W + j))
         (Bmp.ui_graphic buf) x00 = x00).
Proof.
  intros buf x r W H HH Hfit Hr.
  pose proof (word_at_nonneg buf 1) as HW. fold W in HW.
  pose proof (word_at_nonneg buf 2) as HH'. fold H in HH'.
  unfold Bmp.ui_graphic. fold W. fold H. cbv zeta.
  split.
  - intros Hx c Hc.
    rewrite (bitmap_point (Bmp.ui_pixel buf W) W H
               (ui_pixel_length buf W)) by lia.
    unfold Bmp.ui_pixel, u32. rewrite !Z.mod_small by nia.
    assert (Hcases : c = 0 \/ c = 1 \/ c = 2) by lia.
    destruct Hcases as [-> | [-> | ->]];
      [change (Z.to_nat 0) with 0%nat
      |change (Z.to_nat 1) with 1%nat
      |change (Z.to_nat 2) with 2%nat];
      cbn [nth]; f_equal; lia.
  - intros j Hj.
    apply (bitmap_pad (Bmp.ui_pixel buf W) W H (ui_pixel_length buf W)); lia.
Qed.

Lemma ui_bitmap_points_witness :
  nth 54 (Bmp.ui_graphic two_by_two) x00 = x09 /\
  nth 56 (Bmp.ui_graphic two_by_two) x00 = x07 /\
  nth 60 (Bmp.ui_graphic two_by_two) x00 = x00.
Proof.
  destruct (ui_bitmap_points two_by_two 0 0) as (HP & HZ).
  - vm_compute. congruence.
  - vm_compute. reflexivity.
  - vm_compute. split; congruence.
  - split; [|split].
    + exact (HP ltac:(vm_compute; split; congruence) 0 ltac:(lia)).
    + exact (HP ltac:(vm_compute; split; congruence) 2 ltac:(lia)).
    + exact (HZ 0 ltac:(vm_compute; split; congruence)).
Defined.

(** ** The passes of acbmp.c *)

Lemma FetchFile_record SECSIZE inFile fuel o L secs malloc s :
  2 <= SECSIZE ->
  record_at SECSIZE inFile o L secs ->
  (length secs <= fuel)%nat ->
  (forall n, length (malloc n) = Z.to_nat n) ->
  exists s',
    FetchFile SECSIZE fuel inFile o L (malloc L) s
    = Done s' (1, record_bytes L secs)
    /\ console s' = console s.
Proof.
  intros HS (HL & Hne & Hch & Hcov) Hfuel Hheap.
  apply FetchFile_reads_record; auto.
Qed.

Section TextureRound.
Variable inFile : archive.
Variable fuel : nat.
Variables (h : nat) (root lo hi : Z) (all : list entry).
Hypothesis Htree : tree_at (portal_node_at 256 inFile) h root lo hi all.
Hypothesis Hfuel : (h <= fuel)%nat.
Variable malloc : Z -> list byte.
Hypothesis Hheap : forall n, length (malloc n) = Z.to_nat n.
Variable can_write : Z -> bool.

Lemma lookup_found id o L filePos len s :
  In (id, o, L) all ->
  exists s',
    Portal.FetchFilePos Portal.SECSIZE fuel inFile root id filePos len s
    = Done s' (1, (o, L))
    /\ console s' = console s.
Proof.
  intros Hin.
  destruct (Portal_lookup 256 inFile ltac:(lia) id filePos len h root lo hi
              all Htree fuel s Hfuel) as (Hhit & _).
  exact (Hhit o L Hin).
Qed.

Lemma lookup_missed id filePos len s :
  ~ In id (map key all) ->
  exists s',
    Portal.FetchFilePos Portal.SECSIZE fuel inFile root id filePos len s
    = Done s' (0, (filePos, len))
    /\ console s' = console s.
Proof.
  intros Hout.
  destruct (Portal_lookup 256 inFile ltac:(lia) id filePos len h root lo hi
              all Htree fuel s Hfuel) as (_ & Hmiss).
  exact (Hmiss Hout).
Qed.

(** The start of a round: the record of the id is found and read. *)
Lemma round_reads id o L secs filePos len s :
  In (id, o, L) all ->
  record_at 256 inFile o L secs ->
  (length secs <= fuel)%nat ->
  exists s1 s2,
    Portal.FetchFilePos Portal.SECSIZE fuel inFile root id filePos len s
    = Done s1 (1, (o, L)) /\
    FetchFile Portal.SECSIZE fuel inFile o L (malloc L) s1
    = Done s2 (1, record_bytes L secs) /\
    console s2 = console s.
Proof.
  intros Hin Hrec Hk.
  destruct (lookup_found id o L filePos len s Hin) as (s1 & H1 & C1).
  destruct (FetchFile_record 256 inFile fuel o L secs malloc s1
              ltac:(lia) Hrec Hk Hheap) as (s2 & H2 & C2).
  exists s1, s2. repeat split; auto. congruence.
Qed.
End TextureRound.

(** X17.  The texture pass composes two lookups, two reads and the
    bitmap.  On a directory tree laid out as FetchFilePos reads it,
    when the id [0x05000000 | i] has an entry whose record is stored
    whole, holds all that the pass reads from it and announces type
    2, and the word that the pass takes for the id of the palette has
    an entry whose record is stored whole with its 256 entries,
    the round of [i] prints nothing through the readers, writes one
    bitmap -- that of the texture record coloured through the
    palette record -- under the number the counter holds, lists it
    under that number with the id of the texture, the id of the
    palette, the width and the height, and moves the counter on by
    one. *)
Theorem texture_round_exports :
  forall inFile fuel h root lo hi all i o L secs po pL psecs
         filePos len malloc can_write out s,
    tree_at (portal_node_at 256 inFile) h root lo hi all ->
    (h <= fuel)%nat ->
    (length secs <= fuel)%nat -> (length psecs <= fuel)%nat ->
    (forall n, length (malloc n) = Z.to_nat n) ->
    In (Z.lor 0x05000000 i, o, L) all ->
    record_at 256 inFile o L secs ->
    texture_whole (record_bytes L secs) ->
    Acbmp.imageType (record_bytes L secs) = 2 ->
    In (Acbmp.palette_key (record_bytes L secs), po, pL) all ->
    record_at 256 inFile po pL psecs ->
    palette_whole (record_bytes pL psecs) ->
    can_write (fileNum out) = true ->
    exists s',
      AcbmpMain.texture_round fuel inFile root malloc can_write
                              i filePos len out s
      = Done s'
          (Go po pL
              (mkOutput
                 (u32 (fileNum out + 1))
                 (files out
                  ++ [(fileNum out,
                       Bmp.texture (record_bytes L secs)
                                   (record_bytes pL psecs))])
                 (listed out
                  ++ [Listed (fileNum out)
                             (Acbmp.imageId (record_bytes L secs))
                             (Acbmp.palette_key (record_bytes L secs))
                             (Acbmp.imageW (record_bytes L secs))
                             (Acbmp.imageH (record_bytes L secs))])))
      /\ console s' = console s.
Proof.
  intros inFile fuel h root lo hi all i o L secs po pL psecs
         filePos len malloc can_write out s
         Htree Hh Hk Hpk Hheap Hin Hrec _ Htype Hpin Hprec _ Hcan.
  destruct (round_reads inFile fuel h root lo hi all Htree Hh malloc Hheap
              _ o L secs filePos len s Hin Hrec Hk)
    as (s1 & s2 & E1 & E2 & C2).
  destruct (round_reads inFile fuel h root lo hi all Htree Hh malloc Hheap
              _ po pL psecs o L s2 Hpin Hprec Hpk)
    as (s3 & s4 & E3 & E4 & C4).
  unfold AcbmpMain.texture_round.
  rewrite (bind_done _ _ _ _ _ E1). cbn [Z.eqb].
  rewrite (bind_done _ _ _ _ _ E2). cbn [Z.eqb]. cbv zeta.
  rewrite Htype. cbn [Z.eqb Pos.eqb].
  rewrite (bind_done _ _ _ _ _ E3). cbn [Z.eqb].
  rewrite (bind_done _ _ _ _ _ E4). cbn [Z.eqb].
  rewrite Hcan. cbn [negb].
  exists s4. split; [reflexivity | congruence].
Qed.


(** X19.  What the texture pass leaves alone.  A round whose id the
    directory does not hold changes nothing: the two cells, the
    counter, the bitmaps and the list are as before.  A round whose
    record is found and read, holds the four words of its header and
    announces a type other than 2 reads the record and drops it: no
    bitmap, no line, the counter as before; only the two cells now
    hold the offset and the length of the record. *)
Theorem texture_round_skips :
  forall inFile fuel h root lo hi all i filePos len malloc can_write out s,
    tree_at (portal_node_at 256 inFile) h root lo hi all ->
    (h <= fuel)%nat ->
    (forall n, length (malloc n) = Z.to_nat n) ->
    (~ In (Z.lor 0x05000000 i) (map key all) ->
     exists s',
       AcbmpMain.texture_round fuel inFile root malloc can_write
                               i filePos len out s
       = Done s' (Go filePos len out)
       /\ console s' = console s) /\
    (forall o L secs,
       In (Z.lor 0x05000000 i, o, L) all ->
       record_at 256 inFile o L secs ->
       (length secs <= fuel)%nat ->
       16 <= L ->
       Acbmp.imageType (record_bytes L secs) <> 2 ->
       exists s',
         AcbmpMain.texture_round fuel inFile root malloc can_write
                                 i filePos len out s
         = Done s' (Go o L out)
         /\ console s' = console s).
Proof.
  intros inFile fuel h root lo hi all i filePos len malloc can_write out s
         Htree Hh Hheap.
  split.
  - intros Hout.
    destruct (lookup_missed inFile fuel h root lo hi all Htree Hh
                _ filePos len s Hout) as (s1 & E1 & C1).
    unfold AcbmpMain.texture_round.
    rewrite (bind_done _ _ _ _ _ E1). cbn [Z.eqb].
    exists s1. split; [reflexivity | exact C1].
  - intros o L secs Hin Hrec Hk _ Htype.
    destruct (round_reads inFile fuel h root lo hi all Htree Hh malloc Hheap
                _ o L secs filePos len s Hin Hrec Hk)
      as (s1 & s2 & E1 & E2 & C2).
    unfold AcbmpMain.texture_round.
    rewrite (bind_done _ _ _ _ _ E1). cbn [Z.eqb].
    rewrite (bind_done _ _ _ _ _ E2). cbn [Z.eqb]. cbv zeta.
    apply Z.eqb_neq in Htype. rewrite Htype.
    exists s2. split; [reflexivity | exact C2].
Qed.

(** X20.  The pass over the UI graphics composes the lookup, the read and
    the bitmap.  When the id [0x06000000 | i] has an entry whose
    record is stored whole and holds its header and its points, the
    round of [i] prints nothing through the readers, writes the
    bitmap of the record under the number the counter holds and
    moves the counter on by one.  Its line
    lists the id of the graphic in both columns of ids: the pointer
    printed for the palette still points to the first word of the
    record. *)
Theorem ui_round_exports :
  forall inFile fuel h root lo hi all i o L secs
         filePos len malloc can_write out s,
    tree_at (portal_node_at 256 inFile) h root lo hi all ->
    (h <= fuel)%nat -> (length secs <= fuel)%nat ->
    (forall n, length (malloc n) = Z.to_nat n) ->
    In (Z.lor 0x06000000 i, o, L) all ->
    record_at 256 inFile o L secs ->
    ui_whole (record_bytes L secs) ->
    can_write (fileNum out) = true ->
    exists s',
      AcbmpMain.ui_round fuel inFile root malloc can_write
                         i filePos len out s
      = Done s'
          (Go o L
              (mkOutput
                 (u32 (fileNum out + 1))
                 (files out
                  ++ [(fileNum out, Bmp.ui_graphic (record_bytes L secs))])
                 (listed out
                  ++ [Listed (fileNum out)
                             (word_at (record_bytes L secs) 0)
                             (word_at (record_bytes L secs) 0)
                             (word_at (record_bytes L secs) 1)
                             (word_at (record_bytes L secs) 2)])))
      /\ console s' = console s.
Proof.
  intros inFile fuel h root lo hi all i o L secs
         filePos len malloc can_write out s
         Htree Hh Hk Hheap Hin Hrec _ Hcan.
  destruct (round_reads inFile fuel h root lo hi all Htree Hh malloc Hheap
              _ o L secs filePos len s Hin Hrec Hk)
    as (s1 & s2 & E1 & E2 & C2).
  unfold AcbmpMain.ui_round.
  rewrite (bind_done _ _ _ _ _ E1). cbn [Z.eqb].
  rewrite (bind_done _ _ _ _ _ E2). cbn [Z.eqb]. cbv zeta.
  rewrite Hcan. cbn [negb].
  exists s2. split; [reflexivity | exact C2].
Qed.

(** *** The archives of the examples *)

Lemma sector_at_extend SECSIZE a more pos sec :
  sector_at SECSIZE a pos sec ->
  sector_at SECSIZE (mkArchive (contents a ++ more) (seekable a)) pos sec.
Proof.
  intros (Hseek & Hpos & Hlen & Hsec).
  repeat split; auto. cbn [contents].
  assert (Hfit : (Z.to_nat (4 * SECSIZE)
                  <= length (skipn (Z.to_nat pos) (contents a)))%nat).
  { rewrite <- Hsec, length_firstn in Hlen. lia. }
  rewrite skipn_app, firstn_app.
  replace (Z.to_nat (4 * SECSIZE)
           - length (skipn (Z.to_nat pos) (contents a)))%nat
    with 0%nat by lia.
  cbn [firstn]. now rewrite app_nil_r.
Qed.

Lemma tree_at_mono (N N' : Z -> list byte -> Prop) :
  (forall p d, N p d -> N' p d) ->
  forall h pos lo hi all,
    tree_at N h pos lo hi all -> tree_at N' h pos lo hi all.
Proof.
  intros HN h pos lo hi all Ht.
  induction Ht as [h pos lo hi dir Hn HN1 Hf Hc
                  | h pos lo hi dir subs Hn HN1 Hf Hc Hl Hsub IH].
  - apply tree_leaf; auto.
  - apply tree_branch; auto.
Qed.

Lemma graphics_tree texture :
  tree_at (portal_node_at 256 (graphics_with texture)) 2 1024 (-1)
          0x100000000 portal_entries.
Proof.
  apply (tree_at_mono (portal_node_at 256 portal_example)).
  - intros p d (Hp & Hs). split; [exact Hp|].
    exact (sector_at_extend 256 portal_example (graphics_records texture)
             p d Hs).
  - exact portal_example_tree.
Qed.

Lemma heap_length n : length (heap n) = Z.to_nat n.
Proof. apply repeat_length. Qed.

Lemma texture_round_exports_witness :
  exists s',
    AcbmpMain.texture_round 2 graphics_archive 1024 heap writable
                            1 0 0 (mkOutput 0 [] []) fresh
    = Done s'
        (Go 5120 1032
            (mkOutput 1 [(0, Bmp.texture square_texture palette)]
                      [Listed 0 0x05000001 0x04000001 2 2]))
    /\ console s' = [].
Proof.
  destruct (texture_round_exports graphics_archive 2 2 1024 (-1) 0x100000000
              portal_entries 1 6144 24 [record_sector 0 square_texture]
              5120 1032
              [record_sector 9216 (firstn 1020 palette);
               record_sector 0 (skipn 1020 palette)]
              0 0 heap writable (mkOutput 0 [] []) fresh)
    as (s' & E & C).
  - apply graphics_tree.
  - lia.
  - simpl; lia.
  - simpl; lia.
  - apply heap_length.
  - simpl; auto.
  - vm_compute. repeat split; congruence.
  - vm_compute. split; [reflexivity | congruence].
  - reflexivity.
  - simpl; auto.
  - vm_compute. repeat split; congruence.
  - vm_compute. congruence.
  - reflexivity.
  - exists s'. split; [|exact C]. rewrite E. reflexivity.
Defined.


Lemma texture_round_skips_witness :
  exists s',
    AcbmpMain.texture_round 2 graphics_archive 1024 heap writable
                            2 0 0 (mkOutput 0 [] []) fresh
    = Done s' (Go 4096 20 (mkOutput 0 [] []))
    /\ console s' = [].
Proof.
  destruct (texture_round_skips graphics_archive 2 2 1024 (-1) 0x100000000
              portal_entries 2 0 0 heap writable (mkOutput 0 [] []) fresh)
    as (_ & HS).
  - apply graphics_tree.
  - lia.
  - apply heap_length.
  - apply (HS 4096 20 [record_sector 0 bump_map]).
    + simpl; auto.
    + vm_compute. repeat split; congruence.
    + simpl; lia.
    + lia.
    + vm_compute. congruence.
Defined.

Lemma ui_round_exports_witness :
  exists s',
    AcbmpMain.ui_round 2 graphics_archive 1024 heap writable
                       0 0 0 (mkOutput 1 [] []) fresh
    = Done s'
        (Go 8192 24
            (mkOutput 2 [(1, Bmp.ui_graphic two_by_two)]
                      [Listed 1 0x06000000 0x06000000 2 2]))
    /\ console s' = [].
Proof.
  destruct (ui_round_exports graphics_archive 2 2 1024 (-1) 0x100000000
              portal_entries 0 8192 24 [record_sector 0 two_by_two]
              0 0 heap writable (mkOutput 1 [] []) fresh)
    as (s' & E & C).
  - apply graphics_tree.
  - lia.
  - simpl; lia.
  - apply heap_length.
  - simpl; auto 10.
  - vm_compute. repeat split; congruence.
  - vm_compute. congruence.
  - reflexivity.
  - exists s'. split; [|exact C]. rewrite E. reflexivity.
Defined.

(** *** The numbers of the bitmaps *)

Lemma numbered_weaken b b' out :
  numbered b out -> b <= b' -> numbered b' out.
Proof. intros (H1 & H2) Hb. split; [lia | exact H2]. Qed.

Lemma numbered_push b out bytes imageId palId imageW imageH :
  numbered b out -> b + 1 < 0x100000000 ->
  numbered (b + 1)
    (mkOutput (u32 (fileNum out + 1))
              (files out ++ [(fileNum out, bytes)])
              (listed out
               ++ [Listed (fileNum out) imageId palId imageW imageH])).
Proof.
  intros (Hb & Hnum & Hfiles & Hlist) Hfit.
  unfold numbered. cbn [fileNum files listed].
  rewrite length_app. cbn [length].
  rewrite !map_app, Hlist. cbn [map fst listed_number].
  rewrite Hfiles, Hnum.
  repeat split.
  - lia.
  - unfold u32. rewrite Z.mod_small by lia. lia.
  - replace (length (files out) + 1)%nat with (S (length (files out))) by lia.
    rewrite seq_S, map_app. reflexivity.
Qed.

Ltac cases_of_lookup :=
  match goal with
  | |- context [bind (Portal.FetchFilePos ?S ?f ?a ?root ?id ?p ?l) _ ?s] =>
    let R := fresh "R" in
    pose proof (Portal_reported S a id p l f root s) as R;
    unfold bind at 1;
    destruct (Portal.FetchFilePos S f a root id p l s) as [? [? [? ?]] | |];
    unfold lookup_reported in R;
    [destruct R as [(-> & _) | (-> & _)]; cbn [Z.eqb]
    |destruct R
    |exact I]
  end.

Ltac cases_of_read :=
  match goal with
  | |- context [bind (FetchFile ?S ?f ?a ?p ?l ?b) _ ?s] =>
    let R := fresh "R" in
    pose proof (FetchFile_aloud S a f p l b s) as R;
    unfold bind at 1;
    destruct (FetchFile S f a p l b s) as [? [? ?] | |];
    unfold fails_aloud in R;
    [destruct R as [(-> & _) | (-> & _)]; cbn [Z.eqb]
    |destruct R
    |exact I]
  end.

Lemma texture_round_keeps fuel inFile root malloc can_write i fp ln out s b :
  numbered b out -> b + 1 < 0x100000000 ->
  round_keeps b
    (AcbmpMain.texture_round fuel inFile root malloc can_write i fp ln out s).
Proof.
  intros Hn Hb.
  assert (Hsame : numbered (b + 1) out)
    by (apply (numbered_weaken b); [exact Hn | lia]).
  unfold AcbmpMain.texture_round.
  cases_of_lookup; [|exact Hsame].
  cases_of_read; [|split; [exact Hsame | reflexivity]].
  cbv zeta.
  destruct (Acbmp.imageType _ =? 2); [|exact Hsame].
  cases_of_lookup; [|split; [exact Hsame | reflexivity]].
  cases_of_read; [|split; [exact Hsame | reflexivity]].
  destruct (can_write (fileNum out)); cbn [negb];
    [|split; [exact Hsame | reflexivity]].
  apply numbered_push; assumption.
Qed.

Lemma ui_round_keeps fuel inFile root malloc can_write i fp ln out s b :
  numbered b out -> b + 1 < 0x100000000 ->
  round_keeps b
    (AcbmpMain.ui_round fuel inFile root malloc can_write i fp ln out s).
Proof.
  intros Hn Hb.
  assert (Hsame : numbered (b + 1) out)
    by (apply (numbered_weaken b); [exact Hn | lia]).
  unfold AcbmpMain.ui_round.
  cases_of_lookup; [|exact Hsame].
  cases_of_read; [|split; [exact Hsame | reflexivity]].
  cbv zeta.
  destruct (can_write (fileNum out)); cbn [negb];
    [|split; [exact Hsame | reflexivity]].
  apply numbered_push; assumption.
Qed.

Lemma rounds_keep body n :
  (forall i fp ln out s b,
     numbered b out -> b + 1 < 0x100000000 ->
     round_keeps b (body i fp ln out s)) ->
  forall i fp ln out s b,
    numbered b out -> b + Z.of_nat n < 0x100000000 ->
    match rounds n i body fp ln out s with
    | Done _ (Go _ _ out') => numbered (b + Z.of_nat n) out'
    | Done _ (Return code _ out') =>
      numbered (b + Z.of_nat n) out' /\ code = -1
    | Aborted _ => False
    | OutOfFuel _ => True
    end.
Proof.
  intros Hbody.
  induction n as [|n IH]; intros i fp ln out s b Hn Hb.
  - cbn [rounds]. unfold ret. apply (numbered_weaken b); [exact Hn | lia].
  - cbn [rounds]. unfold bind at 1.
    pose proof (Hbody i fp ln out s b Hn ltac:(lia)) as Hr.
    destruct (body i fp ln out s) as [s1 [fp1 ln1 out1 | code said out1] | |];
      cbn [round_keeps] in Hr; auto.
    + specialize (IH (i + 1) fp1 ln1 out1 s1 (b + 1) Hr ltac:(lia)).
      replace (b + Z.of_nat (S n)) with (b + 1 + Z.of_nat n) by lia.
      exact IH.
    + unfold ret. destruct Hr as (Hr & ->). split; [|reflexivity].
      apply (numbered_weaken (b + 1)); [exact Hr | lia].
Qed.

(** X21.  The bitmaps of a run of acbmp are numbered as they are written.
    Whatever the arguments and the archive, when main returns, the
    bitmaps it has written carry the numbers 0, 1, 2, ... in the
    order in which they were written, across the two passes; there
    are at most 131072 of them; the list printed names each of them
    once, under its number and in the same order; and the exit
    status is 0 or -1.  No assert can fail. *)
Theorem main_numbers_bitmaps :
  forall fuel argc inFile filePos len malloc can_write s,
    match AcbmpMain.main fuel argc inFile filePos len malloc can_write s with
    | Done _ (code, _, out) =>
      numbered 131072 out /\ (code = 0 \/ code = -1)
    | Aborted _ => False
    | OutOfFuel _ => True
    end.
Proof.
  intros fuel argc inFile filePos len malloc can_write s.
  assert (H0 : numbered 0 (mkOutput 0 [] []))
    by (repeat split; cbn; lia).
  assert (Hnone : numbered 131072 (mkOutput 0 [] []))
    by (apply (numbered_weaken 0); [exact H0 | lia]).
  unfold AcbmpMain.main. cbv zeta.
  destruct (negb (argc =? 2)); [split; [exact Hnone | right; reflexivity]|].
  destruct inFile as [a|]; [|split; [exact Hnone | right; reflexivity]].
  unfold bind at 1, fseek.
  destruct (seekable a ROOTDIRPTRLOC); cbn [Z.eqb negb];
    [|split; [exact Hnone | right; reflexivity]].
  unfold bind at 1, fread. cbn [fpos seeks console].
  match goal with |- context [negb ?c] => destruct (negb c) end;
    [split; [exact Hnone | left; reflexivity]|].
  set (s1 := mkStream _ _ _). clearbody s1.
  set (root := word_at _ 0). clearbody root.
  set (n := Z.to_nat 65536).
  assert (En : Z.of_nat n = 65536) by (apply Z2Nat.id; lia).
  clearbody n.
  unfold bind at 1.
  pose proof (rounds_keep
                (AcbmpMain.texture_round fuel a root malloc can_write) n
                (texture_round_keeps fuel a root malloc can_write)
                0 filePos len (mkOutput 0 [] []) s1 0 H0 ltac:(lia)) as H1.
  destruct (rounds n 0 (AcbmpMain.texture_round fuel a root malloc can_write)
                   filePos len (mkOutput 0 [] []) s1)
    as [s2 [fp1 ln1 out1 | code said out1] | |]; auto.
  - unfold bind at 1.
    pose proof (rounds_keep
                  (AcbmpMain.ui_round fuel a root malloc can_write) n
                  (ui_round_keeps fuel a root malloc can_write)
                  0 fp1 ln1 out1 s2 (0 + Z.of_nat n) H1 ltac:(lia)) as H2.
    destruct (rounds n 0 (AcbmpMain.ui_round fuel a root malloc can_write)
                     fp1 ln1 out1 s2)
      as [s3 [fp2 ln2 out2 | code said out2] | |]; auto.
    + unfold ret. split; [|left; reflexivity].
      apply (numbered_weaken (0 + Z.of_nat n + Z.of_nat n)); [exact H2 | lia].
    + unfold ret. destruct H2 as (H2 & ->). split; [|right; reflexivity].
      apply (numbered_weaken (0 + Z.of_nat n + Z.of_nat n)); [exact H2 | lia].
  - unfold ret. destruct H1 as (H1 & ->). split; [|right; reflexivity].
    apply (numbered_weaken (0 + Z.of_nat n)); [exact H1 | lia].
Qed.

(** ** writeLandData and the rest of the map *)

Lemma for_upto_inv_io {St} (P : Z -> St -> stream -> Prop)
      (body : Z -> St -> io St) n :
  forall i0 st s,
    P i0 st s ->
    (forall i st s, i0 <= i < i0 + Z.of_nat n -> P i st s ->
                    exists s' st', body i st s = Done s' st' /\ P (i + 1) st' s') ->
    exists s' st',
      for_upto n i0 body st s = Done s' st' /\ P (i0 + Z.of_nat n) st' s'.
Proof.
  induction n as [|n IH]; intros i0 st s HP Hbody; cbn [for_upto].
  - exists s, st. rewrite Z.add_0_r. split; [reflexivity | assumption].
  - destruct (Hbody i0 st s ltac:(lia) HP) as (s1 & st1 & Hb & HP1).
    rewrite (bind_done _ _ _ _ _ Hb).
    destruct (IH (i0 + 1) st1 s1 HP1) as (s' & st' & Hrun & HP').
    { intros i st2 s2 Hi. apply Hbody. lia. }
    exists s', st'. split; [exact Hrun|].
    replace (i0 + Z.of_nat (S n)) with (i0 + 1 + Z.of_nat n) by lia.
    exact HP'.
Qed.

Lemma seq_next k : 0 <= k -> seq 0 (Z.to_nat (k + 1)) = seq 0 (Z.to_nat k) ++ [Z.to_nat k].
Proof.
  intros Hk. replace (Z.to_nat (k + 1)) with (S (Z.to_nat k)) by lia.
  now rewrite seq_S.
Qed.

Section LandblockLines.
Variable sec : list byte.
Variables X Y : Z.
Hypothesis HX : 0 <= X < 255.
Hypothesis HY : 0 <= Y < 255.
Variable land : Mapac.landmap.
Variable s : stream.

(** The cells written when the columns before [xi] are done, and
    in column [x] the rows before [yi]. *)
Let touched (xi : Z) (r c : Z) : Prop :=
  2041 - 8 * Y - 9 <= r <= 2041 - 8 * Y - 1 /\ 8 * X <= c < 8 * X + xi.

Let touched_in (x yi : Z) (r c : Z) : Prop :=
  touched x r c \/ (c = 8 * X + x /\ 2041 - 8 * Y - 1 - yi < r <= 2041 - 8 * Y - 1).

Lemma write_point_line x y land1 s1 :
  0 <= x <= 8 -> 0 <= y <= 8 ->
  (forall r c, ~ touched_in x y r c -> land1 r c = land r c) ->
  console s1
  = console s ++ change_lines sec X Y land (Z.to_nat x)
    ++ column_lines sec X Y land x (Z.to_nat y) ->
  exists s2 land2,
    Mapac.write_point sec (u32 (X * 8)) (u32 (Mapac.LANDSIZE - Y * 8 - 1))
                      x y land1 s1 = Done s2 land2
    /\ (forall r c, ~ touched_in x (y + 1) r c -> land2 r c = land r c)
    /\ console s2
       = console s ++ change_lines sec X Y land (Z.to_nat x)
         ++ column_lines sec X Y land x (Z.to_nat (y + 1)).
Proof.
  intros Hx Hy Hframe Hcon. unfold Mapac.write_point. cbv zeta.
  unfold Mapac.LANDSIZE, u32.
  rewrite (Z.mod_small (X * 8)) by lia.
  rewrite (Z.mod_small (2041 - Y * 8 - 1)) by lia.
  rewrite (Z.mod_small (2041 - Y * 8 - 1 - y)) by lia.
  rewrite (Z.mod_small (X * 8 + x)) by lia.
  assert (Hold : land1 (2041 - Y * 8 - 1 - y) (X * 8 + x)
                 = land (2041 - 8 * Y - 1 - y) (8 * X + x)).
  { replace (2041 - Y * 8 - 1 - y) with (2041 - 8 * Y - 1 - y) by lia.
    replace (X * 8 + x) with (8 * X + x) by lia.
    apply Hframe. unfold touched_in, touched. lia. }
  rewrite Hold.
  assert (Hline : forall s2,
             console s2 = console s1
                          ++ change_line sec X Y land x y ->
             console s2
             = console s ++ change_lines sec X Y land (Z.to_nat x)
               ++ column_lines sec X Y land x (Z.to_nat (y + 1))).
  { intros s2 H2. rewrite H2, Hcon. unfold column_lines.
    rewrite seq_next, flat_map_app by lia. cbn [flat_map].
    rewrite Z2Nat.id, app_nil_r by lia. now rewrite <- !app_assoc. }
  assert (Hset : forall r c,
             ~ touched_in x (y + 1) r c ->
             Mapac.land_set land1 (2041 - Y * 8 - 1 - y) (X * 8 + x)
               (Mapac.mkLand (Mapac.typeData sec (x * 9 + y))
                             (Mapac.zData sec (x * 9 + y)) 1) r c
             = land r c).
  { intros r c Hn. unfold Mapac.land_set.
    destruct (Z.eqb_spec r (2041 - Y * 8 - 1 - y));
      destruct (Z.eqb_spec c (X * 8 + x)); cbn [andb];
      try (apply Hframe; unfold touched_in, touched in *; lia).
    exfalso. apply Hn. unfold touched_in, touched. right. lia. }
  unfold change_line in Hline. cbv zeta in Hline.
  unfold landblock_sample in Hline. cbn [Mapac.type Mapac.z] in Hline.
  match goal with
  | |- context [bind (if ?c then _ else _)] => destruct c
  end; unfold bind, printf, ret; eexists; eexists;
    (split; [reflexivity|]); (split; [exact Hset|]);
    apply Hline; cbn [console].
  - replace (X * 8 + x) with (8 * X + x) by lia.
    replace (2041 - Y * 8 - 1 - y) with (2041 - 8 * Y - 1 - y) by lia.
    reflexivity.
  - now rewrite app_nil_r.
Qed.

Lemma writeLandData_lines :
  exists s' land',
    Mapac.writeLandData sec X Y land s = Done s' land'
    /\ (forall r c, ~ in_window X Y r c -> land' r c = land r c)
    /\ console s' = console s ++ change_lines sec X Y land 9.
Proof.
  unfold Mapac.writeLandData. cbv zeta.
  destruct (for_upto_inv_io
              (fun xi land1 s1 =>
                 (forall r c, ~ touched xi r c -> land1 r c = land r c) /\
                 console s1
                 = console s ++ change_lines sec X Y land (Z.to_nat xi))
              (fun x land1 =>
                 for_upto 9 0
                   (Mapac.write_point sec (u32 (X * 8))
                      (u32 (Mapac.LANDSIZE - Y * 8 - 1)) x) land1)
              9 0 land s) as (s' & land' & Hrun & Hframe & Hcon).
  - split; [reflexivity|]. cbn. now rewrite app_nil_r.
  - intros x land1 s1 Hx (Hf1 & Hc1).
    destruct (for_upto_inv_io
                (fun yi land2 s2 =>
                   (forall r c, ~ touched_in x yi r c -> land2 r c = land r c) /\
                   console s2
                   = console s ++ change_lines sec X Y land (Z.to_nat x)
                     ++ column_lines sec X Y land x (Z.to_nat yi))
                (Mapac.write_point sec (u32 (X * 8))
                   (u32 (Mapac.LANDSIZE - Y * 8 - 1)) x)
                9 0 land1 s1) as (s2 & land2 & Hrun & Hf2 & Hc2).
    + split.
      * intros r c Hn. apply Hf1. unfold touched_in, touched in *. lia.
      * rewrite Hc1. cbn. now rewrite app_nil_r.
    + intros y land3 s3 Hy (Hf3 & Hc3).
      destruct (write_point_line x y land3 s3 ltac:(lia) ltac:(lia) Hf3 Hc3)
        as (s4 & land4 & Hw & Hf4 & Hc4).
      exists s4, land4. auto.
    + exists s2, land2. split; [exact Hrun|]. split.
      * intros r c Hn. apply Hf2. unfold touched_in, touched in *. lia.
      * rewrite Hc2. unfold change_lines.
        rewrite seq_next, flat_map_app by lia. cbn [flat_map].
        rewrite Z2Nat.id, app_nil_r by lia. reflexivity.
  - exists s', land'. split; [exact Hrun|]. split; [|exact Hcon].
    intros r c Hn. apply Hframe. unfold touched, in_window in *. lia.
Qed.
End LandblockLines.

(** X22.  writeLandData changes the window of its landblock and nothing
    else, and prints one line for each cell it changes.  For a
    landblock [(X, Y)] with both indices below 255, the call returns
    with every cell outside the 9 by 9 window of the landblock as it
    was; and the lines it prints are, column after column and row
    after row of the landblock, one for each cell of the window that
    was in use and held another type or height, each line with the
    cell, what it held and what it now holds.  A cell that was not
    in use, or held the same type and height, draws no line. *)
Theorem writeLandData_frame_and_lines :
  forall sec X Y land s,
    0 <= X < 255 -> 0 <= Y < 255 ->
    exists s' land',
      Mapac.writeLandData sec X Y land s = Done s' land'
      /\ (forall r c, ~ in_window X Y r c -> land' r c = land r c)
      /\ console s' = console s ++ change_lines sec X Y land 9.
Proof.
  intros sec X Y land s HX HY.
  exact (writeLandData_lines sec X Y HX HY land s).
Qed.

Lemma writeLandData_frame_and_lines_witness :
  exists s' land',
    Mapac.writeLandData (landblock_sector 0x0102FFFF 0x41 50) 1 2
                        settled_map fresh
    = Done s' land'
    /\ land' 0 0 = Mapac.mkLand 7 9 1
    /\ length (console s') = 81%nat.
Proof.
  destruct (writeLandData_frame_and_lines
              (landblock_sector 0x0102FFFF 0x41 50) 1 2 settled_map fresh)
    as (s' & land' & Hrun & Hframe & Hcon); try lia.
  exists s', land'. split; [exact Hrun|]. split.
  - apply Hframe. unfold in_window. lia.
  - rewrite Hcon. vm_compute. reflexivity.
Defined.

(** *** The same landblock twice, and neighbours *)

Lemma writeLandData_samples sec X Y land s :
  0 <= X < 255 -> 0 <= Y < 255 ->
  exists s' land',
    Mapac.writeLandData sec X Y land s = Done s' land'
    /\ (forall x y, 0 <= x <= 8 -> 0 <= y <= 8 ->
          land' (2041 - 8 * Y - 1 - y) (8 * X + x) = landblock_sample sec x y)
    /\ (forall r c, ~ in_window X Y r c -> land' r c = land r c)
    /\ console s' = console s ++ change_lines sec X Y land 9.
Proof.
  intros HX HY.
  destruct (writeLandData_placed sec X Y HX HY land s)
    as (s1 & land1 & Hrun1 & Hp).
  destruct (writeLandData_lines sec X Y HX HY land s)
    as (s2 & land2 & Hrun2 & Hf & Hc).
  rewrite Hrun1 in Hrun2. inversion Hrun2; subst s2 land2.
  exists s1, land1. split; [exact Hrun1|].
  split; [|split; [exact Hf | exact Hc]].
  intros x y Hx Hy. apply Hp; auto.
Qed.

Lemma flat_map_all_nil {A B} (f : A -> list B) l :
  (forall x, In x l -> f x = []) -> flat_map f l = [].
Proof.
  induction l as [|a l IH]; intros H; cbn [flat_map]; [reflexivity|].
  rewrite (H a) by (left; reflexivity).
  apply IH. intros x Hx. apply H. right. exact Hx.
Qed.

Lemma no_lines_when_same sec X Y land :
  (forall x y, 0 <= x <= 8 -> 0 <= y <= 8 ->
     land (2041 - 8 * Y - 1 - y) (8 * X + x) = landblock_sample sec x y) ->
  change_lines sec X Y land 9 = [].
Proof.
  intros Hsame.
  assert (Hline : forall x y, 0 <= x <= 8 -> 0 <= y <= 8 ->
                              change_line sec X Y land x y = []).
  { intros x y Hx Hy. unfold change_line. cbv zeta.
    rewrite (Hsame x y Hx Hy). rewrite !Z.eqb_refl. reflexivity. }
  unfold change_lines, column_lines.
  apply flat_map_all_nil.
  intros x Hx. apply in_seq in Hx.
  apply flat_map_all_nil.
  intros y Hy. apply in_seq in Hy.
  apply Hline; lia.
Qed.

(** X23.  Writing a landblock again changes nothing and prints nothing.
    After a call of writeLandData for a landblock with both indices
    below 255, a second call with the same sector returns with no
    line added to the console and with every cell of the map as the
    first call left it. *)
Theorem writeLandData_twice :
  forall sec X Y land s,
    0 <= X < 255 -> 0 <= Y < 255 ->
    exists s1 land1 s2 land2,
      Mapac.writeLandData sec X Y land s = Done s1 land1 /\
      Mapac.writeLandData sec X Y land1 s1 = Done s2 land2 /\
      console s2 = console s1 /\
      forall r c, land2 r c = land1 r c.
Proof.
  intros sec X Y land s HX HY.
  destruct (writeLandData_samples sec X Y land s HX HY)
    as (s1 & land1 & Hrun1 & Hp1 & _ & _).
  destruct (writeLandData_samples sec X Y land1 s1 HX HY)
    as (s2 & land2 & Hrun2 & Hp2 & Hf2 & Hc2).
  exists s1, land1, s2, land2. repeat split; auto.
  - rewrite Hc2, (no_lines_when_same sec X Y land1 Hp1). apply app_nil_r.
  - intros r c.
    destruct (Z_le_gt_dec (2041 - 8 * Y - 9) r);
      [destruct (Z_le_gt_dec r (2041 - 8 * Y - 1));
       [destruct (Z_le_gt_dec (8 * X) c);
        [destruct (Z_le_gt_dec c (8 * X + 8))|]|]|];
      try (apply Hf2; unfold in_window; lia).
    replace r with (2041 - 8 * Y - 1 - (2041 - 8 * Y - 1 - r)) by lia.
    replace c with (8 * X + (c - 8 * X)) by lia.
    rewrite Hp1, Hp2 by lia. reflexivity.
Qed.

Lemma writeLandData_twice_witness :
  exists s1 land1 s2 land2,
    Mapac.writeLandData (landblock_sector 0x0102FFFF 0x41 50) 1 2
                        settled_map fresh = Done s1 land1 /\
    Mapac.writeLandData (landblock_sector 0x0102FFFF 0x41 50) 1 2
                        land1 s1 = Done s2 land2 /\
    console s2 = console s1 /\
    land2 2024 8 = land1 2024 8.
Proof.
  destruct (writeLandData_twice (landblock_sector 0x0102FFFF 0x41 50) 1 2
              settled_map fresh)
    as (s1 & land1 & s2 & land2 & H1 & H2 & Hc & Hl); try lia.
  exists s1, land1, s2, land2. auto.
Defined.

(** X24.  Neighbouring landblocks share their edge, and the later one
    wins.  After the landblock [(X, Y)] is written from [secA], a
    call for its neighbour to the east, [(X + 1, Y)], from [secB]
    leaves column 8 of the first holding column 0 of the second and
    the columns 0 to 7 of the first as they were written; and a call
    for its neighbour to the north, [(X, Y + 1)], leaves row 8 of the
    first holding row 0 of the second and the rows 0 to 7 of the
    first as they were written. *)
Theorem writeLandData_shared_edge :
  forall secA secB X Y land s,
    0 <= X < 254 -> 0 <= Y < 254 ->
    exists s1 land1,
      Mapac.writeLandData secA X Y land s = Done s1 land1 /\
      (exists s2 land2,
         Mapac.writeLandData secB (X + 1) Y land1 s1 = Done s2 land2 /\
         forall y, 0 <= y <= 8 ->
           land2 (2041 - 8 * Y - 1 - y) (8 * X + 8)
           = landblock_sample secB 0 y /\
           forall x, 0 <= x <= 7 ->
             land2 (2041 - 8 * Y - 1 - y) (8 * X + x)
             = landblock_sample secA x y) /\
      (exists s2 land2,
         Mapac.writeLandData secB X (Y + 1) land1 s1 = Done s2 land2 /\
         forall x, 0 <= x <= 8 ->
           land2 (2041 - 8 * Y - 1 - 8) (8 * X + x)
           = landblock_sample secB x 0 /\
           forall y, 0 <= y <= 7 ->
             land2 (2041 - 8 * Y - 1 - y) (8 * X + x)
             = landblock_sample secA x y).
Proof.
  intros secA secB X Y land s HX HY.
  destruct (writeLandData_samples secA X Y land s ltac:(lia) ltac:(lia))
    as (s1 & land1 & Hrun1 & Hp1 & _ & _).
  exists s1, land1. split; [exact Hrun1|]. split.
  - destruct (writeLandData_samples secB (X + 1) Y land1 s1
                ltac:(lia) ltac:(lia))
      as (s2 & land2 & Hrun2 & Hp2 & Hf2 & _).
    exists s2, land2. split; [exact Hrun2|].
    intros y Hy. split.
    + replace (8 * X + 8) with (8 * (X + 1) + 0) by lia.
      apply Hp2; lia.
    + intros x Hx. rewrite Hf2 by (unfold in_window; lia).
      apply Hp1; lia.
  - destruct (writeLandData_samples secB X (Y + 1) land1 s1
                ltac:(lia) ltac:(lia))
      as (s2 & land2 & Hrun2 & Hp2 & Hf2 & _).
    exists s2, land2. split; [exact Hrun2|].
    intros x Hx. split.
    + replace (2041 - 8 * Y - 1 - 8) with (2041 - 8 * (Y + 1) - 1 - 0) by lia.
      apply Hp2; lia.
    + intros y Hy. rewrite Hf2 by (unfold in_window; lia).
      apply Hp1; lia.
Qed.

Lemma writeLandData_shared_edge_witness :
  exists s1 land1 s2 land2,
    Mapac.writeLandData (landblock_sector 0x0102FFFF 0x41 50) 1 2
                        Mapac.blank fresh = Done s1 land1 /\
    Mapac.writeLandData (landblock_sector 0x0202FFFF 0x0C 30) 2 2
                        land1 s1 = Done s2 land2 /\
    land2 2024 16 = Mapac.mkLand 0x0C 30 1 /\
    land2 2024 15 = Mapac.mkLand 0x41 50 1.
Proof.
  destruct (writeLandData_shared_edge
              (landblock_sector 0x0102FFFF 0x41 50)
              (landblock_sector 0x0202FFFF 0x0C 30) 1 2 Mapac.blank fresh)
    as (s1 & land1 & H1 & (s2 & land2 & H2 & He) & _); try lia.
  exists s1, land1, s2, land2. split; [exact H1|]. split; [exact H2|].
  destruct (He 0 ltac:(lia)) as (Hb & Ha). split.
  - exact Hb.
  - exact (Ha 7 ltac:(lia)).
Defined.

(** ** ReadDir over a directory *)

Lemma for_upto_pure {St} (body : Z -> St -> io St) (f : Z -> St -> St) :
  (forall i st s, exists s', body i st s = Done s' (f i st)) ->
  forall n i st s,
    exists s', for_upto n i body st s = Done s' (upto n i f st).
Proof.
  intros Hb. induction n as [|n IH]; intros i st s; cbn [for_upto upto].
  - exists s. reflexivity.
  - destruct (Hb i st s) as (s1 & H1). rewrite (bind_done _ _ _ _ _ H1).
    apply IH.
Qed.

Lemma writeLandData_plotted sec X Y land s :
  exists s',
    Mapac.writeLandData sec X Y land s = Done s' (plotted sec X Y land).
Proof.
  unfold Mapac.writeLandData, plotted. cbv zeta.
  apply for_upto_pure. intros x land1 s1.
  apply for_upto_pure. intros y land2 s2.
  unfold Mapac.write_point, plot_point. cbv zeta.
  match goal with
  | |- context [bind (if ?c then _ else _)] => destruct c
  end; unfold bind, printf, ret; eexists; reflexivity.
Qed.

Lemma u32_succ a : u32 (u32 a + 1) = u32 (a + 1).
Proof. unfold u32. apply Z.add_mod_idemp_l. lia. Qed.

Lemma u32_add a b : u32 (u32 a + u32 b) = u32 (a + b).
Proof. unfold u32. symmetry. apply Z.add_mod. lia. Qed.

Lemma firstn_snoc {A} (l : list A) (d : A) :
  forall k, (k < length l)%nat ->
            firstn (S k) l = firstn k l ++ [nth k l d].
Proof.
  induction l as [|a l IH]; intros k Hk; [simpl in Hk; lia|].
  destruct k as [|k]; [reflexivity|].
  cbn [firstn nth app]. f_equal. apply IH. simpl in Hk. lia.
Qed.

Section Visit.
Variable inFile : archive.
(** The node as it is stored, and the local array after the read. *)
Variables img dir : list byte.
Hypothesis Hwords :
  forall k, 0 <= k < NUMFILELOC + 1 + 3 * numFiles_of img ->
            word_at dir k = word_at img k.

Lemma visit_other i st s :
  0 <= i < numFiles_of img ->
  is_landblock (dir_entry img i) = false ->
  Mapac.visit_entry inFile dir i st s = Done s st.
Proof.
  intros Hi Hlb. unfold Mapac.visit_entry. destruct st as [found land].
  rewrite Hwords by (unfold NUMFILELOC in *; lia).
  unfold is_landblock, dir_entry, key in Hlb. cbn [fst] in Hlb.
  rewrite Hlb. reflexivity.
Qed.

Lemma visit_landblock i found land s :
  0 <= i < numFiles_of img ->
  is_landblock (dir_entry img i) = true ->
  landblock_ok inFile (dir_entry img i) ->
  exists s',
    Mapac.visit_entry inFile dir i (found, land) s
    = Done s' (u32 (found + 1), stamp inFile land (dir_entry img i)).
Proof.
  intros Hi Hlb (Hlen & Hx & Hy & sec & Hsec & _ & _).
  unfold Mapac.visit_entry.
  rewrite !Hwords by (unfold NUMFILELOC in *; lia).
  unfold is_landblock, dir_entry, key in *. cbn [fst snd] in *.
  rewrite Hlb, Hlen.
  apply Z.eqb_neq in Hx. apply Z.eqb_neq in Hy. rewrite Hx, Hy.
  unfold assert, bind at 1 2 3. cbn [Z.eqb Pos.eqb negb].
  rewrite (bind_done _ _ _ _ _ (fseek_sector _ _ _ _ s Hsec)).
  unfold bind at 1. cbn [Z.eqb].
  rewrite (bind_done _ _ _ _ _ (Mapac_fread_sector inFile _ _ _ _ Hsec)).
  unfold bind at 1. cbn [Z.eqb Pos.eqb].
  match goal with
  | |- context [Mapac.writeLandData ?a ?b ?c ?d] =>
    destruct (writeLandData_plotted a b c d
                (mkStream (word_at img (i * 3 + NUMFILELOC + 2) + 256)
                          (seeks s ++ [word_at img (i * 3 + NUMFILELOC + 2)])
                          (console s))) as (s' & Hw)
  end.
  rewrite (bind_done _ _ _ _ _ Hw).
  exists s'. unfold ret, stamp. cbv zeta. cbn [fst snd].
  assert (E : sector_bytes Mapac.CELLSECSIZE inFile
                (word_at img (i * 3 + NUMFILELOC + 2)) = sec).
  { destruct Hsec as (_ & _ & _ & Hs). rewrite <- Hs. reflexivity. }
  rewrite E. reflexivity.
Qed.

Hypothesis Hok :
  forall e, In e (dir_entries img) -> is_landblock e = true ->
            landblock_ok inFile e.

Lemma visit_entries land s :
  exists s',
    for_upto (Z.to_nat (numFiles_of img)) 0 (Mapac.visit_entry inFile dir)
             (0, land) s
    = Done s'
        (u32 (Z.of_nat (length (filter is_landblock (dir_entries img)))),
         fold_left (stamp inFile) (filter is_landblock (dir_entries img)) land).
Proof.
  pose proof (numFiles_nonneg img) as H0.
  pose proof (dir_entries_length img) as Hlen.
  destruct (for_upto_inv
              (fun i (st : Z * Mapac.landmap) =>
                 let done := filter is_landblock
                                    (firstn (Z.to_nat i) (dir_entries img)) in
                 st = (u32 (Z.of_nat (length done)),
                       fold_left (stamp inFile) done land))
              (Mapac.visit_entry inFile dir)
              (Z.to_nat (numFiles_of img)) 0 (0, land) s)
    as (s' & st' & Hrun & Hst).
  - reflexivity.
  - intros i st s1 Hi Hst. cbv zeta in Hst |- *. subst st.
    rewrite Z.add_0_l, Z2Nat.id in Hi by lia.
    replace (Z.to_nat (i + 1)) with (S (Z.to_nat i)) by lia.
    rewrite (firstn_snoc (dir_entries img) (0, 0, 0) (Z.to_nat i))
      by (rewrite Hlen; lia).
    rewrite dir_entries_nth, Z2Nat.id by lia.
    rewrite filter_app. cbn [filter].
    destruct (is_landblock (dir_entry img i)) eqn:Hlb.
    + match goal with
      | |- context [Mapac.visit_entry inFile dir i (?f, ?l) s1] =>
        destruct (visit_landblock i f l s1 Hi Hlb) as (s2 & Hv)
      end.
      { apply Hok; [|exact Hlb]. apply In_dir_entries. exists i. auto. }
      exists s2. eexists. split; [exact Hv|].
      rewrite length_app, fold_left_app, u32_succ. cbn [length fold_left].
      do 2 f_equal. lia.
    + rewrite (visit_other i _ s1 Hi Hlb).
      exists s1. eexists. split; [reflexivity|].
      now rewrite app_nil_r.
  - cbv zeta in Hst. rewrite Z.add_0_l, Nat2Z.id in Hst.
    rewrite <- Hlen, firstn_all in Hst.
    exists s'. rewrite Hrun, Hst. reflexivity.
Qed.
End Visit.

From Stdlib Require Import Permutation.

Lemma Permutation_filter_of {A} (f : A -> bool) (l l' : list A) :
  Permutation l l' -> Permutation (filter f l) (filter f l').
Proof.
  induction 1 as [|x l l' _ IH|x y l|l l' l'' _ IH1 _ IH2]; cbn [filter].
  - constructor.
  - destruct (f x); [constructor|]; exact IH.
  - destruct (f x), (f y); try apply Permutation_refl. constructor.
  - exact (Permutation_trans IH1 IH2).
Qed.

Lemma filter_concat {A} (f : A -> bool) (ls : list (list A)) :
  filter f (concat ls) = concat (map (filter f) ls).
Proof.
  induction ls as [|l ls IH]; [reflexivity|].
  cbn [concat map]. now rewrite filter_app, IH.
Qed.

Lemma inorder_permutation (subs : list (list entry)) :
  forall es,
    length subs = S (length es) ->
    Permutation (es ++ concat subs) (inorder subs es).
Proof.
  induction subs as [|sub subs IH]; intros es Hlen; [discriminate|].
  destruct es as [|e es]; cbn [inorder].
  - destruct subs; [|discriminate]. cbn. rewrite app_nil_r.
    apply Permutation_refl.
  - cbn [concat app].
    apply (Permutation_trans (l' := sub ++ e :: es ++ concat subs)).
    + apply (Permutation_cons_app sub (es ++ concat subs) e).
      rewrite !app_assoc. apply Permutation_app_tail.
      apply Permutation_app_comm.
    + apply Permutation_app_head. constructor.
      apply IH. simpl in Hlen. lia.
Qed.

Lemma ReadDir_walk :
  forall inFile h root lo hi all,
    tree_at (cell_node_at 64 inFile) h root lo hi all ->
    (forall e, In e all -> is_landblock e = true -> landblock_ok inFile e) ->
    forall fuel junk land s,
      (h <= fuel)%nat ->
      exists s' order,
        Mapac.ReadDir fuel inFile junk root land s
        = Done s' (u32 (Z.of_nat (length order)),
                   fold_left (stamp inFile) order land)
        /\ Permutation order (filter is_landblock all).
Proof.
  intros inFile h root lo hi all Ht.
  induction Ht as [h pos lo hi dir Hnode HN Hf Hleaf
                  |h pos lo hi dir subs Hnode HN Hf Hbr Hlen Hsub IH];
    intros Hok fuel junk land s Hfuel;
    (destruct fuel as [|fuel]; [lia|]);
    destruct Hnode as (secs & Hne & Hl & Himg & Hcov);
    destruct (Mapac_read_node_image inFile pos secs junk s Hne Hl)
      as (s1 & Hread & _);
    rewrite <- Himg in *;
    pose proof (numFiles_nonneg dir) as H0;
    assert (Hwords : forall k,
               0 <= k < NUMFILELOC + 1 + 3 * numFiles_of dir ->
               word_at (splice junk 0 dir) k = word_at dir k)
      by (intros k Hk; apply word_at_splice; unfold NUMFILELOC in *; lia);
    cbn [Mapac.ReadDir];
    rewrite (bind_done _ _ _ _ _ Hread); cbv zeta;
    rewrite (Hwords NUMFILELOC) by (unfold NUMFILELOC in *; lia);
    fold (numFiles_of dir);
    (destruct (Z.ltb_spec (numFiles_of dir) NUMFILELOC) as [_ | Hge]; [|lia]);
    unfold assert at 1, bind at 1;
    rewrite (Hwords 1) by (unfold NUMFILELOC in *; lia);
    change (word_at dir 1) with (dir_child dir 0).
  - (* a leaf: its entries *)
    destruct (visit_entries inFile dir (splice junk 0 dir) Hwords Hok land s1)
      as (s2 & Hent).
    rewrite (bind_done _ _ _ _ _ Hent).
    rewrite Hleaf. cbn [Z.eqb negb].
    exists s2, (filter is_landblock (dir_entries dir)).
    split; [reflexivity | apply Permutation_refl].
  - (* its entries, then its children *)
    assert (Hes : length subs = S (length (dir_entries dir)))
      by (rewrite dir_entries_length; exact Hlen).
    assert (Hok_here : forall e, In e (dir_entries dir) ->
                                 is_landblock e = true -> landblock_ok inFile e).
    { intros e He. apply Hok. apply In_inorder; auto. }
    destruct (visit_entries inFile dir (splice junk 0 dir) Hwords Hok_here
                land s1) as (s2 & Hent).
    rewrite (bind_done _ _ _ _ _ Hent).
    apply Z.eqb_neq in Hbr. rewrite Hbr. cbn [negb].
    destruct (for_upto_inv
                (fun i (st : Z * Mapac.landmap) =>
                   exists order,
                     st = (u32 (Z.of_nat (length order)),
                           fold_left (stamp inFile) order land) /\
                     Permutation order
                       (filter is_landblock (dir_entries dir)
                        ++ concat (map (filter is_landblock)
                                       (firstn (Z.to_nat i) subs))))
                (fun i (st : Z * Mapac.landmap) =>
                   let '(found, land) := st in
                   '(sub, land') <-
                     Mapac.ReadDir fuel inFile junk
                                   (word_at (splice junk 0 dir) (i + 1)) land ;;
                   ret (u32 (found + sub), land'))
                (Z.to_nat (numFiles_of dir + 1)) 0
                (u32 (Z.of_nat (length (filter is_landblock (dir_entries dir)))),
                 fold_left (stamp inFile)
                           (filter is_landblock (dir_entries dir)) land)
                s2) as (s3 & st3 & Hrun & order & Hst & Hperm).
    + exists (filter is_landblock (dir_entries dir)).
      split; [reflexivity|]. cbn. rewrite app_nil_r. apply Permutation_refl.
    + intros i st s4 Hi (order & -> & Hperm).
      rewrite Z.add_0_l, Z2Nat.id in Hi by lia.
      rewrite (Hwords (i + 1)) by (unfold NUMFILELOC in *; lia).
      change (word_at dir (i + 1)) with (dir_child dir i).
      destruct (IH i ltac:(lia)) with (fuel := fuel) (junk := junk)
                                      (land := fold_left (stamp inFile) order land)
                                      (s := s4)
        as (s5 & sub & Hsub_run & Hsub_perm).
      { intros e He. apply Hok. apply In_inorder; auto.
        right. exists (Z.to_nat i). split; [lia | exact He]. }
      { lia. }
      rewrite (bind_done _ _ _ _ _ Hsub_run).
      exists s5. eexists. split; [reflexivity|].
      exists (order ++ sub). split.
      * rewrite length_app, fold_left_app, u32_add. do 2 f_equal. lia.
      * replace (Z.to_nat (i + 1)) with (S (Z.to_nat i)) by lia.
        rewrite (firstn_snoc subs [] (Z.to_nat i)) by lia.
        rewrite map_app, concat_app. cbn [map concat].
        rewrite app_nil_r, app_assoc.
        apply Permutation_app; assumption.
    + exists s3, order. rewrite Hrun, Hst. split; [reflexivity|].
      replace (Z.to_nat (0 + Z.of_nat (Z.to_nat (numFiles_of dir + 1))))
        with (length subs) in Hperm by lia.
      rewrite firstn_all, <- filter_concat, <- filter_app in Hperm.
      apply (Permutation_trans Hperm).
      apply Permutation_filter_of, inorder_permutation. exact Hes.
Qed.

(** The samples of a landblock whose sector carries block indices
    below 255 in its id word stay on the map. *)
Lemma stamp_on_map inFile e land r c :
  landblock_ok inFile e ->
  ~ on_map r c ->
  stamp inFile land e r c = land r c.
Proof.
  intros (_ & _ & _ & sec & Hsec & HX & HY) Hout. unfold stamp. cbv zeta.
  assert (E : sector_bytes Mapac.CELLSECSIZE inFile (snd (fst e)) = sec).
  { destruct Hsec as (_ & _ & _ & Hs). rewrite <- Hs. reflexivity. }
  rewrite E.
  pose proof (word_at_nonneg sec 1) as Hw.
  assert (HX0 : 0 <= Mapac.blockX_of (word_at sec 1))
    by (unfold Mapac.blockX_of; apply Z.shiftr_nonneg; exact Hw).
  assert (HY0 : 0 <= Mapac.blockY_of (word_at sec 1)).
  { unfold Mapac.blockY_of. apply Z.shiftr_nonneg, Z.land_nonneg. now left. }
  set (X := Mapac.blockX_of (word_at sec 1)) in *.
  set (Y := Mapac.blockY_of (word_at sec 1)) in *.
  destruct (writeLandData_lines sec X Y (conj HX0 HX) (conj HY0 HY) land fresh)
    as (s1 & land1 & Hrun & Hframe & _).
  destruct (writeLandData_plotted sec X Y land fresh) as (s2 & Hplot).
  rewrite Hplot in Hrun. injection Hrun as _ <-.
  apply Hframe. intros (Hr & Hc). apply Hout.
  unfold on_map, Mapac.LANDSIZE. lia.
Qed.

Lemma stamps_on_map inFile order :
  (forall e, In e order -> landblock_ok inFile e) ->
  forall land r c,
    ~ on_map r c ->
    fold_left (stamp inFile) order land r c = land r c.
Proof.
  induction order as [|e order IH]; intros Hok land r c Hout; cbn [fold_left].
  - reflexivity.
  - rewrite IH by (auto using in_cons).
    apply stamp_on_map; auto. apply Hok, in_eq.
Qed.

(** X25.  ReadDir visits every landblock of the directory once.  On a
    directory tree laid out as the CELL-class readers see it, each of
    whose entries with an id ending in FFFF has length 252, an id
    with neither upper byte FF and, at its offset, a sector whose own
    id word has both upper bytes below 255, ReadDir returns -- no
    assert fails -- the number of these entries, counted in 32 bits,
    and the map it leaves is the map after writeLandData has been
    called for the sector of each of them, once each, in some order,
    and for no other sector; no point outside the 2041 by 2041
    points of the map is written.  In particular a directory without
    such entries leaves the map as it was and gives 0. *)
Theorem ReadDir_visits_landblocks :
  forall inFile h root lo hi all,
    tree_at (cell_node_at 64 inFile) h root lo hi all ->
    (forall e, In e all -> is_landblock e = true -> landblock_ok inFile e) ->
    forall fuel junk land s,
      (h <= fuel)%nat ->
      exists s' order,
        Mapac.ReadDir fuel inFile junk root land s
        = Done s' (u32 (Z.of_nat (length order)),
                   fold_left (stamp inFile) order land)
        /\ Permutation order (filter is_landblock all)
        /\ forall r c,
             ~ on_map r c ->
             fold_left (stamp inFile) order land r c = land r c.
Proof.
  intros inFile h root lo hi all Ht Hok fuel junk land s Hfuel.
  destruct (ReadDir_walk inFile h root lo hi all Ht Hok fuel junk land s Hfuel)
    as (s' & order & Hrun & Hperm).
  exists s', order. split; [exact Hrun|]. split; [exact Hperm|].
  apply stamps_on_map. intros e He.
  apply (Permutation_in _ Hperm), filter_In in He.
  destruct He as (He & Hlb). now apply Hok.
Qed.

Lemma ReadDir_visits_landblocks_witness :
  exists s' order,
    Mapac.ReadDir 2 cell_example junk 1024 Mapac.blank fresh
    = Done s' (2, fold_left (stamp cell_example) order Mapac.blank)
    /\ Permutation order [(0x0102FFFF, 2816, 252); (0x7F7FFFFF, 2560, 252)].
Proof.
  destruct (ReadDir_visits_landblocks cell_example 2 1024 (-1) 0x100000000
              cell_entries cell_example_tree) with
      (fuel := 2%nat) (junk := junk) (land := Mapac.blank) (s := fresh)
    as (s' & order & Hrun & Hperm & _).
  - intros e [<- | [<- | [<- | []]]] Hlb; try discriminate Hlb.
    + split; [reflexivity|].
      split; [vm_compute; congruence|].
      split; [vm_compute; congruence|].
      exists (landblock_sector 0x0102FFFF 0x41 50).
      vm_compute. repeat split; congruence.
    + split; [reflexivity|].
      split; [vm_compute; congruence|].
      split; [vm_compute; congruence|].
      exists (landblock_sector 0x7F7FFFFF 0x0C 30).
      vm_compute. repeat split; congruence.
  - lia.
  - exists s', order. split; [|exact Hperm].
    rewrite Hrun. apply Permutation_length in Hperm.
    rewrite Hperm. reflexivity.
Defined.

(** ** The map file *)

Lemma byte_of_val b : byte_of (byte_val b) = b.
Proof.
  unfold byte_of, byte_val.
  pose proof (Byte.to_N_bounded b) as Hb.
  rewrite Z.mod_small by lia.
  rewrite N2Z.id, Byte.of_to_N. reflexivity.
Qed.

Lemma byte_of_mod z : byte_of (z mod 256) = byte_of z.
Proof. unfold byte_of. now rewrite Z.mod_mod by lia. Qed.

Lemma byte_val_bounds b : 0 <= byte_val b < 256.
Proof.
  unfold byte_val. pose proof (Byte.to_N_bounded b). lia.
Qed.

Lemma cell_bytes_decode d :
  cell_fits d ->
  Mapac.mkLand
    (le16 (nth 0 (MapFile.cell_bytes d) x00) (nth 1 (MapFile.cell_bytes d) x00))
    (byte_val (nth 2 (MapFile.cell_bytes d) x00))
    (byte_val (nth 3 (MapFile.cell_bytes d) x00))
  = d.
Proof.
  intros (Ht & Hz & Hu). destruct d as [t z u]. cbn [Mapac.type Mapac.z Mapac.used] in *.
  unfold MapFile.cell_bytes. cbn [nth Mapac.type Mapac.z Mapac.used].
  unfold le16. rewrite !byte_val_of.
  f_equal.
  - Z.div_mod_to_equations. lia.
  - apply Z.mod_small. lia.
  - apply Z.mod_small. lia.
Qed.

Lemma cell_bytes_encode b0 b1 b2 b3 :
  MapFile.cell_bytes (Mapac.mkLand (le16 b0 b1) (byte_val b2) (byte_val b3))
  = [b0; b1; b2; b3].
Proof.
  pose proof (byte_val_bounds b0). pose proof (byte_val_bounds b1).
  unfold MapFile.cell_bytes. cbn [Mapac.type Mapac.z Mapac.used].
  rewrite !byte_of_val. unfold le16.
  rewrite <- (byte_of_mod (byte_val b0 + 256 * byte_val b1)).
  replace ((byte_val b0 + 256 * byte_val b1) mod 256) with (byte_val b0)
    by (Z.div_mod_to_equations; lia).
  replace ((byte_val b0 + 256 * byte_val b1) / 256) with (byte_val b1)
    by (Z.div_mod_to_equations; lia).
  now rewrite !byte_of_val.
Qed.

Section MapBytes.
Variable side : Z.
Hypothesis side_pos : 0 < side.

Lemma map_bytes_length land :
  length (MapFile.map_bytes side land) = (Z.to_nat (side * side) * 4)%nat.
Proof.
  unfold MapFile.map_bytes.
  rewrite (flat_map_constant_length (c := 4)) by reflexivity.
  now rewrite length_seq.
Qed.

Lemma map_bytes_nth land k j d :
  (k < Z.to_nat (side * side))%nat -> (j < 4)%nat ->
  nth (k * 4 + j) (MapFile.map_bytes side land) d
  = nth j (MapFile.cell_bytes
             (land (Z.of_nat k / side) (Z.of_nat k mod side))) d.
Proof.
  intros Hk Hj. unfold MapFile.map_bytes.
  now rewrite (nth_flat_map_seq _ 4 d) by (auto; lia).
Qed.

Lemma map_bytes_decode land r c :
  0 <= r < side -> 0 <= c < side ->
  cell_fits (land r c) ->
  MapFile.map_of_bytes side (MapFile.map_bytes side land) r c = land r c.
Proof.
  intros Hr Hc Hfit. unfold MapFile.map_of_bytes. cbv zeta.
  assert (Hk : (Z.to_nat (r * side + c) < Z.to_nat (side * side))%nat) by nia.
  replace (Z.to_nat (4 * (r * side + c)))
    with (Z.to_nat (r * side + c) * 4 + 0)%nat by lia.
  replace (Z.to_nat (r * side + c) * 4 + 0 + 1)%nat
    with (Z.to_nat (r * side + c) * 4 + 1)%nat by lia.
  replace (Z.to_nat (r * side + c) * 4 + 0 + 2)%nat
    with (Z.to_nat (r * side + c) * 4 + 2)%nat by lia.
  replace (Z.to_nat (r * side + c) * 4 + 0 + 3)%nat
    with (Z.to_nat (r * side + c) * 4 + 3)%nat by lia.
  rewrite !map_bytes_nth by (auto; lia).
  rewrite Z2Nat.id by nia.
  replace ((r * side + c) / side) with r
    by (apply (Z.div_unique _ _ r c); lia).
  replace ((r * side + c) mod side) with c
    by (apply (Z.mod_unique _ _ r c); lia).
  apply cell_bytes_decode. exact Hfit.
Qed.

Lemma map_bytes_encode bs :
  length bs = (Z.to_nat (side * side) * 4)%nat ->
  MapFile.map_bytes side (MapFile.map_of_bytes side bs) = bs.
Proof.
  intros Hlen.
  apply (nth_ext _ _ x00 x00).
  - now rewrite map_bytes_length.
  - intros n Hn. rewrite map_bytes_length in Hn.
    pose proof (Nat.div_mod_eq n 4) as Hdm.
    pose proof (Nat.mod_upper_bound n 4 ltac:(lia)) as Hj.
    set (k := (n / 4)%nat) in *. set (j := (n mod 4)%nat) in *.
    replace n with (k * 4 + j)%nat by lia.
    rewrite map_bytes_nth by lia.
    unfold MapFile.map_of_bytes. cbv zeta.
    assert (Hside : Z.of_nat k / side * side + Z.of_nat k mod side = Z.of_nat k)
      by (pose proof (Z.div_mod (Z.of_nat k) side ltac:(lia)); lia).
    rewrite Hside, cell_bytes_encode.
    replace (Z.to_nat (4 * Z.of_nat k)) with (k * 4)%nat by lia.
    assert (Hcases : (j = 0 \/ j = 1 \/ j = 2 \/ j = 3)%nat) by lia.
    destruct Hcases as [-> | [-> | [-> | ->]]]; cbn [nth];
      f_equal; lia.
Qed.

Lemma map_bytes_blank :
  MapFile.map_bytes side Mapac.blank = repeat x00 (Z.to_nat (side * side) * 4).
Proof.
  unfold MapFile.map_bytes.
  assert (H : forall n start,
             flat_map
               (fun k => MapFile.cell_bytes
                           (Mapac.blank (Z.of_nat k / side)
                                        (Z.of_nat k mod side)))
               (seq start n)
             = repeat x00 (n * 4)).
  { induction n as [|n IH]; intros start; [reflexivity|].
    cbn [seq flat_map]. rewrite IH. reflexivity. }
  apply H.
Qed.
End MapBytes.

Lemma LANDSIZE_pos : 0 < Mapac.LANDSIZE.
Proof. reflexivity. Qed.


Lemma zero_map_file_length :
  Z.of_nat (length zero_map_file) = 4 * (Mapac.LANDSIZE * Mapac.LANDSIZE).
Proof.
  pose proof LANDSIZE_pos as HL.
  unfold zero_map_file. rewrite repeat_length, Z2Nat.id by nia. reflexivity.
Qed.


Lemma upto_inv {St} (P : Z -> St -> Prop) (f : Z -> St -> St) n :
  forall i0 st,
    P i0 st ->
    (forall i st, i0 <= i < i0 + Z.of_nat n -> P i st -> P (i + 1) (f i st)) ->
    P (i0 + Z.of_nat n) (upto n i0 f st).
Proof.
  induction n as [|n IH]; intros i0 st HP Hf; cbn [upto].
  - now rewrite Z.add_0_r.
  - replace (i0 + Z.of_nat (S n)) with (i0 + 1 + Z.of_nat n) by lia.
    apply IH.
    + apply Hf; [lia | exact HP].
    + intros i st1 Hi. apply Hf. lia.
Qed.

(** The loops of the NEWMAP branch leave a zero in every cell of the
    array, whatever it held. *)
Lemma zero_fill_zeroes land r c :
  0 <= r < Mapac.LANDSIZE -> 0 <= c < Mapac.LANDSIZE ->
  MapacMain.zero_fill land r c = Mapac.mkLand 0 0 0.
Proof.
  intros Hr Hc. pose proof LANDSIZE_pos as HL.
  unfold MapacMain.zero_fill.
  pose proof (upto_inv
                (fun y (l : Mapac.landmap) =>
                   forall r c, 0 <= r < y -> 0 <= c < Mapac.LANDSIZE ->
                               l r c = Mapac.mkLand 0 0 0)
                (fun y l =>
                   upto (Z.to_nat Mapac.LANDSIZE) 0
                        (fun x l => Mapac.land_set l y x (Mapac.mkLand 0 0 0))
                        l)
                (Z.to_nat Mapac.LANDSIZE) 0 land) as Hrows.
  cbv beta in Hrows. rewrite Z.add_0_l, Z2Nat.id in Hrows by lia.
  apply Hrows; auto.
  - intros r' c' Hr'. lia.
  - intros y l Hy Hdone.
    pose proof (upto_inv
                  (fun x (l' : Mapac.landmap) =>
                     forall r c, 0 <= c < Mapac.LANDSIZE ->
                                 0 <= r < y \/ (r = y /\ c < x) ->
                                 l' r c = Mapac.mkLand 0 0 0)
                  (fun x l' => Mapac.land_set l' y x (Mapac.mkLand 0 0 0))
                  (Z.to_nat Mapac.LANDSIZE) 0 l) as Hcols.
    cbv beta in Hcols. rewrite Z.add_0_l, Z2Nat.id in Hcols by lia.
    intros r' c' Hr' Hc'. apply Hcols; auto.
    + intros r2 c2 Hc2 [Hr2 | (-> & Hlt)]; [apply Hdone; auto | lia].
    + intros x l' Hx Hl' r2 c2 Hc2 Hcell.
      unfold Mapac.land_set.
      destruct (Z.eqb_spec r2 y); destruct (Z.eqb_spec c2 x); cbn [andb];
        try reflexivity; apply Hl'; auto; lia.
    + lia.
Qed.

Lemma flat_map_same {A B} (f g : A -> list B) l :
  (forall x, In x l -> f x = g x) -> flat_map f l = flat_map g l.
Proof.
  induction l as [|a l IH]; intros H; cbn [flat_map]; [reflexivity|].
  rewrite (H a) by (left; reflexivity).
  rewrite IH; [reflexivity|]. intros x Hx. apply H. right. exact Hx.
Qed.

Lemma map_bytes_ext side land land' :
  0 < side ->
  (forall r c, 0 <= r < side -> 0 <= c < side -> land r c = land' r c) ->
  MapFile.map_bytes side land = MapFile.map_bytes side land'.
Proof.
  intros Hs Hsame. unfold MapFile.map_bytes.
  apply flat_map_same. intros k Hk. apply in_seq in Hk.
  rewrite Hsame; [reflexivity | |].
  - split; [apply Z.div_pos; lia|].
    apply Z.div_lt_upper_bound; [lia|]. nia.
  - apply Z.mod_pos_bound. lia.
Qed.

(** X27.  NEWMAP erases the map.  With NEWMAP for its first argument, main
    reads neither the map file nor the archive, leaves the stream
    alone, prints no total and ends with status 0 having filled the
    array with zeros and written a map file of four bytes for each
    of the 2041 by 2041 cells, every byte zero. *)
Theorem main_newmap_writes_blank_map :
  forall fuel mapFile cellFile junk s,
    exists file,
      MapacMain.main fuel 3 true mapFile cellFile junk true s
      = Done s (mkMapRun 0 None (Some file)) /\
      Z.of_nat (length file) = 4 * (Mapac.LANDSIZE * Mapac.LANDSIZE) /\
      Forall (fun b => b = x00) file.
Proof.
  intros fuel mapFile cellFile junk s. pose proof LANDSIZE_pos as HL.
  exists (MapFile.map_bytes Mapac.LANDSIZE (MapacMain.zero_fill Mapac.blank)).
  split; [reflexivity|]. split.
  - rewrite map_bytes_length, Nat2Z.inj_mul, Z2Nat.id by nia. lia.
  - rewrite (map_bytes_ext Mapac.LANDSIZE _ Mapac.blank HL)
      by (intros r c Hr Hc; apply zero_fill_zeroes; assumption).
    rewrite map_bytes_blank. apply Forall_forall.
    intros b Hb. apply repeat_spec in Hb. exact Hb.
Qed.

(** *** main over a directory *)

Lemma main_merge_run cellFile h root lo hi all bytes fuel junk s :
  root_pointer cellFile root ->
  tree_at (cell_node_at 64 cellFile) h root lo hi all ->
  (forall e, In e all -> is_landblock e = true -> landblock_ok cellFile e) ->
  (h <= fuel)%nat ->
  exists s' order,
    MapacMain.main fuel 3 false (Some bytes) (Some cellFile) junk true s
    = Done s'
        (mkMapRun 0 (Some (u32 (Z.of_nat (length order))))
           (Some (MapFile.map_bytes Mapac.LANDSIZE
                    (fold_left (stamp cellFile) order
                       (MapFile.map_of_bytes Mapac.LANDSIZE bytes)))))
    /\ Permutation order (filter is_landblock all).
Proof.
  intros Hroot Ht Hok Hfuel.
  destruct (read_root_pointer cellFile root s Hroot)
    as (s1 & s2 & w & Hseek & Hread & Hw & _).
  destruct (ReadDir_walk cellFile h root lo hi all Ht Hok fuel junk
              (MapFile.map_of_bytes Mapac.LANDSIZE bytes) s2 Hfuel)
    as (s3 & order & Hrun & Hperm).
  exists s3, order. split; [|exact Hperm].
  unfold MapacMain.main. cbn [Z.eqb Pos.eqb negb]. cbv zeta.
  rewrite (bind_done _ _ _ _ _ Hseek).
  unfold assert at 1, bind at 1. cbn [Z.eqb].
  rewrite (bind_done _ _ _ _ _ Hread).
  unfold assert at 1, bind at 1. cbn [Z.eqb Pos.eqb].
  rewrite Hw, (bind_done _ _ _ _ _ Hrun). reflexivity.
Qed.

(** X28.  A run of mapac over a directory.  When the header of the archive
    holds the offset of the root of a directory tree laid out as the
    CELL-class readers see it, and each of its entries with an id
    ending in FFFF passes the asserts of ReadDir and has, at its
    offset, a sector whose own id word has both upper bytes below
    255, so that every sample stays on the map, main ends with
    status 0: the total it prints is the number of these entries, and
    the map file it writes holds the map read from the old map file
    with the landblock of each of these entries written over it, once
    each. *)
Theorem main_merges_landblocks :
  forall cellFile h root lo hi all bytes fuel junk s,
    root_pointer cellFile root ->
    tree_at (cell_node_at 64 cellFile) h root lo hi all ->
    (forall e, In e all -> is_landblock e = true -> landblock_ok cellFile e) ->
    (h <= fuel)%nat ->
    exists s' order,
      MapacMain.main fuel 3 false (Some bytes) (Some cellFile) junk true s
      = Done s'
          (mkMapRun 0 (Some (u32 (Z.of_nat (length order))))
             (Some (MapFile.map_bytes Mapac.LANDSIZE
                      (fold_left (stamp cellFile) order
                         (MapFile.map_of_bytes Mapac.LANDSIZE bytes)))))
      /\ Permutation order (filter is_landblock all).
Proof.
  intros cellFile h root lo hi all bytes fuel junk s Hroot Ht Hok Hfuel.
  exact (main_merge_run cellFile h root lo hi all bytes fuel junk s
           Hroot Ht Hok Hfuel).
Qed.

Lemma cell_example_landblocks :
  forall e, In e cell_entries -> is_landblock e = true ->
            landblock_ok cell_example e.
Proof.
  intros e [<- | [<- | [<- | []]]] Hlb; try discriminate Hlb.
  - split; [reflexivity|].
    split; [vm_compute; congruence|].
    split; [vm_compute; congruence|].
    exists (landblock_sector 0x0102FFFF 0x41 50).
    vm_compute. repeat split; congruence.
  - split; [reflexivity|].
    split; [vm_compute; congruence|].
    split; [vm_compute; congruence|].
    exists (landblock_sector 0x7F7FFFFF 0x0C 30).
    vm_compute. repeat split; congruence.
Qed.

Lemma main_merges_landblocks_witness :
  exists s' order,
    MapacMain.main 2 3 false (Some []) (Some cell_example) junk true fresh
    = Done s'
        (mkMapRun 0 (Some 2)
           (Some (MapFile.map_bytes Mapac.LANDSIZE
                    (fold_left (stamp cell_example) order
                       (MapFile.map_of_bytes Mapac.LANDSIZE [])))))
    /\ Permutation order [(0x0102FFFF, 2816, 252); (0x7F7FFFFF, 2560, 252)].
Proof.
  destruct (main_merges_landblocks cell_example 2 1024 (-1) 0x100000000
              cell_entries [] 2 junk fresh)
    as (s' & order & Hrun & Hperm).
  - vm_compute. repeat split; congruence.
  - exact cell_example_tree.
  - exact cell_example_landblocks.
  - lia.
  - exists s', order. split; [|exact Hperm].
    rewrite Hrun. apply Permutation_length in Hperm.
    rewrite Hperm. reflexivity.
Defined.

(** X29.  Merging an archive without landblocks gives the map file back.
    When no entry of the directory has an id ending in FFFF and the
    old map file has the full size, main prints the total 0 and
    writes a map file with the same bytes as the old one. *)
Theorem main_without_landblocks_keeps_map :
  forall cellFile h root lo hi all bytes fuel junk s,
    root_pointer cellFile root ->
    tree_at (cell_node_at 64 cellFile) h root lo hi all ->
    filter is_landblock all = [] ->
    Z.of_nat (length bytes) = 4 * (Mapac.LANDSIZE * Mapac.LANDSIZE) ->
    (h <= fuel)%nat ->
    exists s',
      MapacMain.main fuel 3 false (Some bytes) (Some cellFile) junk true s
      = Done s' (mkMapRun 0 (Some 0) (Some bytes)).
Proof.
  intros cellFile h root lo hi all bytes fuel junk s Hroot Ht Hnone Hlen Hfuel.
  destruct (main_merge_run cellFile h root lo hi all bytes fuel junk s
              Hroot Ht) as (s' & order & Hrun & Hperm); auto.
  { intros e He Hlb. exfalso.
    assert (Hin : In e (filter is_landblock all))
      by (apply filter_In; auto).
    rewrite Hnone in Hin. exact Hin. }
  rewrite Hnone in Hperm. apply Permutation_sym, Permutation_nil in Hperm.
  subst order. cbn [length fold_left] in Hrun.
  exists s'. rewrite Hrun.
  pose proof LANDSIZE_pos as HL.
  rewrite map_bytes_encode; auto.
  apply Nat2Z.inj. rewrite Hlen, Nat2Z.inj_mul, Z2Nat.id by nia. lia.
Qed.

Lemma lone_directory_tree :
  tree_at (cell_node_at 64 lone_directory) 1 1024 (-1) 0x100000000
          [(0x8000FFFE, 3072, 8)].
Proof.
  apply (tree_at_eq _ 1 1024 (-1) 0x100000000
           (dir_entries (cell_image cell_right))); try reflexivity.
  apply tree_leaf.
  - exists cell_right. by_computation.
  - by_computation.
  - by_computation.
  - by_computation.
Qed.

Lemma main_without_landblocks_keeps_map_witness :
  exists s',
    MapacMain.main 1 3 false (Some zero_map_file) (Some lone_directory)
                   junk true fresh
    = Done s' (mkMapRun 0 (Some 0) (Some zero_map_file)).
Proof.
  apply (main_without_landblocks_keeps_map lone_directory 1 1024 (-1)
           0x100000000 [(0x8000FFFE, 3072, 8)] zero_map_file 1 junk fresh).
  - vm_compute. repeat split; congruence.
  - exact lone_directory_tree.
  - reflexivity.
  - exact zero_map_file_length.
  - lia.
Defined.

(** ** An archive that ends inside its header, and the other tools *)

(** X30.  The tools disagree on an archive that ends inside its header.
    When the stream can go to [ROOTDIRPTRLOC] but the archive has
    fewer than four bytes from there on, main of acbmp prints its
    line on the end of the file, writes no bitmap and ends with
    status 0, as the extractors do; main of mapac, which has already
    read the old map file, fails its assert on the read and writes no
    map file. *)
Theorem short_header_acbmp_and_mapac :
  forall inFile fuel filePos len malloc can_write bytes junk writable_map s,
    seekable inFile ROOTDIRPTRLOC = true ->
    Z.of_nat (length (contents inFile)) < ROOTDIRPTRLOC + 4 ->
    (exists s',
       AcbmpMain.main fuel 2 (Some inFile) filePos len malloc can_write s
       = Done s' (0, [NoRoot], mkOutput 0 [] [])
       /\ console s' = console s) /\
    (exists s',
       MapacMain.main fuel 3 false (Some bytes) (Some inFile) junk
                      writable_map s
       = Aborted s'
       /\ console s' = console s).
Proof.
  intros inFile fuel filePos len malloc can_write bytes junk writable_map s
         Hseek Hshort.
  assert (Hcnt : Z.min 1 (Z.max 0 (Z.of_nat (length (contents inFile))
                                   - ROOTDIRPTRLOC) / 4) = 0).
  { assert (H : Z.max 0 (Z.of_nat (length (contents inFile)) - ROOTDIRPTRLOC) / 4
                = 0) by (apply Z.div_small; lia).
    rewrite H. reflexivity. }
  split.
  - unfold AcbmpMain.main. cbn [Z.eqb Pos.eqb negb]. cbv zeta.
    unfold bind at 1, fseek. rewrite Hseek. cbn [Z.eqb negb].
    unfold bind at 1, fread. cbn [fpos seeks console].
    rewrite Hcnt. cbn [Z.eqb negb].
    eexists. split; reflexivity.
  - unfold MapacMain.main. cbn [Z.eqb Pos.eqb negb]. cbv zeta.
    unfold bind at 1, fseek. rewrite Hseek.
    unfold assert at 1, bind at 1. cbn [Z.eqb].
    unfold bind at 1, fread. cbn [fpos seeks console].
    rewrite Hcnt. unfold assert at 1, bind at 1. cbn [Z.eqb].
    eexists. split; reflexivity.
Qed.

Lemma short_header_acbmp_and_mapac_witness :
  exists s',
    MapacMain.main 2 3 false (Some []) (Some (mkArchive (repeat x00 100) long_seek))
                   junk true fresh
    = Aborted s'
    /\ console s' = [].
Proof.
  destruct (short_header_acbmp_and_mapac
              (mkArchive (repeat x00 100) long_seek) 2 0 0 heap writable
              [] junk true fresh) as (_ & HM).
  - reflexivity.
  - vm_compute. reflexivity.
  - exact HM.
Defined.
